(** * PolkArena: short codes, shareable URLs, durations and the event creation form

    A shallow embedding of [lib/utils] (short-code generation, the
    shareable-URL helpers, the duration formatter) and of the submit handler
    of [app/events/create/page.tsx], with the properties the specification
    states about them.

    JavaScript strings are sequences of UTF-16 code units; they are modelled
    as lists of code units.  Everything the code obtains from its platform or
    from the hosted backend (the random source, the clock, date parsing,
    Unicode lower-casing, the database) is a field of [Env], and every
    theorem holds for an arbitrary [Env]. *)

From Stdlib Require Import String Ascii List ZArith NArith QArith Qround Bool Lia.
From Stdlib Require Import DecimalString.
Import ListNotations.

Close Scope Q_scope.

(* ================================================================= *)
(** ** Strings and numbers *)

(** A string is the list of its UTF-16 code units. *)
Definition jsstring := list N.

(** An ASCII literal as a string. *)
Definition js (s : string) : jsstring := map N_of_ascii (list_ascii_of_string s).
Arguments js s%_string.

(** A number that is an integer or NaN (time values, minute counts). *)
Inductive number :=
| NaN
| Int (z : Z).

(** [s === t] on strings. *)
Fixpoint str_eqb (s t : jsstring) : bool :=
  match s, t with
  | [], [] => true
  | a :: s', b :: t' => N.eqb a b && str_eqb s' t'
  | _, _ => false
  end.

(** A string is falsy exactly when it is empty. *)
Definition falsy (s : jsstring) : bool :=
  match s with [] => true | _ => false end.

Definition truthy (s : jsstring) : bool := negb (falsy s).

(** [s || null] *)
Definition or_null (s : jsstring) : option jsstring :=
  if truthy s then Some s else None.

(** [s.charAt(i)]: the empty string when [i] is out of range. *)
Definition charAt (s : jsstring) (i : Z) : jsstring :=
  if (i <? 0)%Z then []
  else match nth_error s (Z.to_nat i) with
       | Some c => [c]
       | None => []
       end.

(** [s.substring(0, n)] *)
Definition substring0 (n : nat) (s : jsstring) : jsstring := firstn n s.

Definition is_digit (c : N) : bool := (48 <=? c)%N && (c <=? 57)%N.
Definition is_lower (c : N) : bool := (97 <=? c)%N && (c <=? 122)%N.
Definition is_upper (c : N) : bool := (65 <=? c)%N && (c <=? 90)%N.

(** The class [[a-z0-9]]. *)
Definition is_lower_alnum (c : N) : bool := is_lower c || is_digit c.

(** The class [[a-z0-9]] under the [i] flag.  Without the [u] flag a code
    unit above 127 is never canonicalized to an ASCII one, so the class is
    exactly the ASCII letters and digits. *)
Definition is_alnum_ci (c : N) : bool := is_lower c || is_upper c || is_digit c.

(** [s.replace(/[^a-z0-9]/g, '')] *)
Definition strip_non_alnum (s : jsstring) : jsstring := filter is_lower_alnum s.

(** WhiteSpace and LineTerminator code units, as [trim] removes them. *)
Definition is_space (c : N) : bool :=
  ((9 <=? c)%N && (c <=? 13)%N) || (c =? 32)%N || (c =? 160)%N
  || (c =? 5760)%N || ((8192 <=? c)%N && (c <=? 8202)%N)
  || (c =? 8232)%N || (c =? 8233)%N || (c =? 8239)%N || (c =? 8287)%N
  || (c =? 12288)%N || (c =? 65279)%N.

Fixpoint drop_while (p : N -> bool) (s : jsstring) : jsstring :=
  match s with
  | [] => []
  | c :: s' => if p c then drop_while p s' else s
  end.

Fixpoint take_while (p : N -> bool) (s : jsstring) : jsstring :=
  match s with
  | [] => []
  | c :: s' => if p c then c :: take_while p s' else []
  end.

(** [s.trim()] *)
Definition trim (s : jsstring) : jsstring :=
  rev (drop_while is_space (rev (drop_while is_space s))).

(** [s.split(sep)] for a one-unit separator: never the empty list. *)
Fixpoint split (sep : N) (s : jsstring) : list jsstring :=
  match s with
  | [] => [[]]
  | c :: s' =>
      if (c =? sep)%N then [] :: split sep s'
      else match split sep s' with
           | seg :: segs => (c :: seg) :: segs
           | [] => [[c]]
           end
  end.

(** Decimal rendering of an integer, as in a template literal. *)
Definition Z_to_js (z : Z) : jsstring := js (NilZero.string_of_int (Z.to_int z)).

Definition number_to_js (n : number) : jsstring :=
  match n with
  | NaN => js "NaN"
  | Int z => Z_to_js z
  end.

(** [a - b] on time values.  Time values are integers of magnitude at most
    8.64e15, which doubles hold exactly, and the difference of two of them
    is exact as long as its magnitude is at most 2^53 (about 285,000
    years); beyond that a double rounds it to an even number of
    milliseconds.  The integer difference taken here is the code's within
    that span, and so are the quotients and remainders computed from it. *)
Definition num_sub (a b : number) : number :=
  match a, b with
  | Int x, Int y => Int (x - y)
  | _, _ => NaN
  end.

(** [Math.floor(a / d)] for a positive integer constant [d]. *)
Definition num_floor_div (a : number) (d : Z) : number :=
  match a with
  | Int x => Int (x / d)
  | NaN => NaN
  end.

(** [a % d]: the remainder takes the sign of the dividend. *)
Definition num_rem (a : number) (d : Z) : number :=
  match a with
  | Int x => Int (Z.rem x d)
  | NaN => NaN
  end.

(** [a === z] *)
Definition num_is (a : number) (z : Z) : bool :=
  match a with
  | Int x => (x =? z)%Z
  | NaN => false
  end.

(* ================================================================= *)
(** ** Records of the application *)

(** The error object of the database client. *)
Record PostgrestError := {
  code : jsstring;
  message : jsstring
}.

Record User := {
  user_id : jsstring;
  email : option jsstring
}.

Record CustomField := {
  id : jsstring;
  field_name : jsstring;
  type : jsstring;
  required : bool;
  options : option (list jsstring)
}.

(** The form state, as entered. *)
Record FormData := {
  name : jsstring;
  description : jsstring;
  start_time : jsstring;
  end_time : jsstring;
  location : jsstring;
  is_online : bool;
  participant_limit : jsstring;
  tags : jsstring;
  registration_deadline : jsstring;
  website_url : jsstring;
  discord_url : jsstring;
  twitter_url : jsstring;
  requirements : jsstring;
  banner_image_url : jsstring
}.

(** The record handed to the insert; [None] is [null].  The attributes
    carry the prefix [ev_] to keep them apart from the form fields of the
    same names. *)
Record EventData := {
  ev_name : jsstring;
  ev_description : jsstring;
  ev_start_time : jsstring;
  ev_end_time : jsstring;
  ev_organizer_id : jsstring;
  ev_organizer_name : jsstring;
  ev_location : option jsstring;
  ev_is_online : bool;
  ev_participant_limit : option number;
  ev_tags : option (list jsstring);
  ev_custom_fields : option (list CustomField);
  ev_registration_deadline : option jsstring;
  ev_website_url : option jsstring;
  ev_discord_url : option jsstring;
  ev_twitter_url : option jsstring;
  ev_requirements : option jsstring;
  ev_banner_image_url : option jsstring;
  ev_short_code : jsstring
}.

(** The calls issued to the hosted backend. *)
Inductive Call :=
| SelectEventByShortCode (short_code : jsstring)
| SelectUserName (uid : jsstring)
| InsertEvent (data : EventData).

(** [{ data, error }] of the short-code lookup. *)
Record LookupResponse := {
  lookup_data : option jsstring;
  lookup_error : option PostgrestError
}.

(** [{ data }] of the profile lookup: the row, and its name column. *)
Record ProfileResponse := {
  profile_data : option (option jsstring)
}.

(** [{ data, error }] of the insert; [data] carries the new row's id. *)
Record InsertResponse := {
  insert_data : option jsstring;
  insert_error : option PostgrestError
}.

(** The platform and the backend.  A backend answer may depend on the
    whole history of calls issued before it; the database client reports a
    failure in the [error] field of its answer and does not throw. *)
Record Env := {
  String_toLowerCase : jsstring -> jsstring;
  Math_random : nat -> Q;
  Date_parse : jsstring -> number;
  Date_now : Z;
  Date_toISOString : Z -> jsstring;
  parseInt : jsstring -> number;
  window_location_origin : option jsstring;
  events_single : list Call -> jsstring -> LookupResponse;
  users_single : list Call -> jsstring -> ProfileResponse;
  events_insert : list Call -> EventData -> InsertResponse
}.

Inductive Toast :=
| ToastError (msg : jsstring)
| ToastSuccess (msg : jsstring).

(** What a run can change: how many random numbers were drawn, the calls
    issued, the notifications shown, the busy flag and the route. *)
Record World := {
  rand_pos : nat;
  calls : list Call;
  toasts : list Toast;
  saving : bool;
  route : option jsstring
}.

Definition draw (w : World) : World :=
  {| rand_pos := S (rand_pos w); calls := calls w; toasts := toasts w;
     saving := saving w; route := route w |}.

Definition issue (c : Call) (w : World) : World :=
  {| rand_pos := rand_pos w; calls := calls w ++ [c]; toasts := toasts w;
     saving := saving w; route := route w |}.

Definition notify (t : Toast) (w : World) : World :=
  {| rand_pos := rand_pos w; calls := calls w; toasts := toasts w ++ [t];
     saving := saving w; route := route w |}.

Definition advance (n : nat) (w : World) : World :=
  {| rand_pos := n + rand_pos w; calls := calls w; toasts := toasts w;
     saving := saving w; route := route w |}.

Definition set_saving (b : bool) (w : World) : World :=
  {| rand_pos := rand_pos w; calls := calls w; toasts := toasts w;
     saving := b; route := route w |}.

Definition push_route (r : jsstring) (w : World) : World :=
  {| rand_pos := rand_pos w; calls := calls w; toasts := toasts w;
     saving := saving w; route := Some r |}.

(* ================================================================= *)
(** ** lib/utils.ts *)

Definition characters : jsstring := js "23456789abcdefghjkmnpqrstuvwxyz".

Definition targetLength : nat := 7.

Definition maxAttempts : nat := 10.

Section Utils.

Variable E : Env.

(** [Math.floor(Math.random() * characters.length)] at the [k]-th draw.
    The product is taken exactly.  In double precision it is rounded, which
    can move a draw lying within one rounding step of a cell boundary into
    the next cell; it stays below [characters.length] for every double
    below 1 all the same.  What is stated of a generated code therefore
    never depends on which symbol a given draw selects, only on the index
    being in range. *)
Definition random_index (k : nat) : Z :=
  Qfloor (Math_random E k * inject_Z (Z.of_nat (length characters)))%Q.

(** [Math.random()] returns a value in [[0, 1)]. *)
Definition random_in_unit_interval : Prop :=
  forall k, (0 <= Math_random E k)%Q /\ (Math_random E k < 1)%Q.

(** The loop [while (result.length < targetLength) result += ...]. *)
Fixpoint fill (fuel : nat) (result : jsstring) (w : World)
  : option (jsstring * World) :=
  match fuel with
  | O => None
  | S fuel' =>
      if (length result <? targetLength)%nat
      then fill fuel' (result ++ charAt characters (random_index (rand_pos w))) (draw w)
      else Some (result, w)
  end.

(** The prefix taken from the event name. *)
Definition seed_prefix (eventName : option jsstring) : jsstring :=
  match eventName with
  | Some n =>
      if truthy n then
        let prefix := substring0 3 (strip_non_alnum (String_toLowerCase E n)) in
        if (2 <=? length prefix)%nat then prefix else []
      else []
  | None => []
  end.

(** The characters the next [n] draws select, and the world after them:
    what [n] turns of the loop append. *)
Fixpoint random_chars (k n : nat) : jsstring :=
  match n with
  | O => []
  | S n' => charAt characters (random_index k) ++ random_chars (S k) n'
  end.

Definition generateShortCode (fuel : nat) (eventName : option jsstring) (w : World)
  : option (jsstring * World) :=
  fill fuel (seed_prefix eventName) w.

(** [supabase.from('events').select('id').eq('short_code', c).single()] *)
Definition select_event (c : jsstring) (w : World) : LookupResponse * World :=
  (events_single E (calls w) c, issue (SelectEventByShortCode c) w).

(** [error && error.code === 'PGRST116'] *)
Definition no_rows (r : LookupResponse) : bool :=
  match lookup_error r with
  | Some e => str_eqb (code e) (js "PGRST116")
  | None => false
  end.

(** The loop [while (attempts < maxAttempts)] and the fallback after it. *)
Fixpoint unique_loop (fuel : nat) (eventName : option jsstring) (attempts : nat)
  (w : World) : option (jsstring * World) :=
  match fuel with
  | O => None
  | S fuel' =>
      if (attempts <? maxAttempts)%nat then
        match generateShortCode fuel' eventName w with
        | None => None
        | Some (shortCode, w1) =>
            let (r, w2) := select_event shortCode w1 in
            if no_rows r then Some (shortCode, w2)
            else unique_loop fuel' eventName (S attempts) w2
        end
      else generateShortCode fuel' None w
  end.

(** One turn of the loop seen from outside: the code generated, the answer
    of the lookup, and the world after the lookup. *)
Definition attempt (fuel : nat) (eventName : option jsstring) (w : World)
  : option (jsstring * LookupResponse * World) :=
  match generateShortCode fuel eventName w with
  | None => None
  | Some (shortCode, w1) =>
      let (r, w2) := select_event shortCode w1 in Some (shortCode, r, w2)
  end.

(** The world after [k] turns in a row. *)
Fixpoint after_attempts (fuel : nat) (eventName : option jsstring) (k : nat)
  (w : World) : option World :=
  match k with
  | O => Some w
  | S k' =>
      match attempt fuel eventName w with
      | None => None
      | Some (_, _, w2) => after_attempts fuel eventName k' w2
      end
  end.

(** The [k]-th turn (counted from 0), made after [k] earlier turns. *)
Definition nth_attempt (fuel : nat) (eventName : option jsstring) (k : nat)
  (w : World) : option (jsstring * LookupResponse * World) :=
  match after_attempts fuel eventName k w with
  | Some wk => attempt fuel eventName wk
  | None => None
  end.

(** None of the first [j] turns is answered "no rows". *)
Definition all_fail (fuel : nat) (eventName : option jsstring) (j : nat)
  (w : World) : Prop :=
  forall k c r w', (k < j)%nat ->
    nth_attempt fuel eventName k w = Some (c, r, w') -> no_rows r = false.

Definition generateUniqueShortCode (fuel : nat) (eventName : option jsstring)
  (w : World) : option (jsstring * World) :=
  unique_loop fuel eventName 0 w.

(** [baseUrl || (typeof window !== 'undefined' ? window.location.origin : ...)] *)
Definition base_of (baseUrl : option jsstring) : jsstring :=
  match baseUrl with
  | Some b => if truthy b then b else
      match window_location_origin E with
      | Some o => o
      | None => js "https://polkarena.montaq.org"
      end
  | None =>
      match window_location_origin E with
      | Some o => o
      | None => js "https://polkarena.montaq.org"
      end
  end.

Definition createShareableEventURL (shortCode : jsstring) (baseUrl : option jsstring)
  : jsstring :=
  base_of baseUrl ++ js "/e/" ++ shortCode.

(** [new Date(s).getTime()] *)
Definition getTime (s : jsstring) : number := Date_parse E s.

Definition plural (n : number) : jsstring :=
  if negb (num_is n 1) then js "s" else [].

Definition formatEventDuration (startTime endTime : jsstring) : jsstring :=
  let durationMs := num_sub (getTime endTime) (getTime startTime) in
  let totalMinutes := num_floor_div durationMs (1000 * 60) in
  let hours := num_floor_div totalMinutes 60 in
  let minutes := num_rem totalMinutes 60 in
  if num_is hours 0 then
    number_to_js minutes ++ js " minute" ++ plural minutes
  else if num_is minutes 0 then
    number_to_js hours ++ js " hour" ++ plural hours
  else
    number_to_js hours ++ js " hour" ++ plural hours ++ js " "
      ++ number_to_js minutes ++ js " minute" ++ plural minutes.

(** [parts.join(sep)] for a one-unit separator. *)
Fixpoint join (sep : N) (parts : list jsstring) : jsstring :=
  match parts with
  | [] => []
  | [p] => p
  | p :: rest => p ++ sep :: join sep rest
  end.

(** A count with its unit word, singular for exactly 1: the rendering the
    specification describes for each part of a duration. *)
Definition counted (n : Z) (unit_word : jsstring) : jsstring :=
  Z_to_js n ++ js " " ++ unit_word ++ (if (n =? 1)%Z then [] else js "s").

End Utils.

(** Whether [/\/e\/([a-z0-9]+)/i] matches at the very start of [url]: the
    decision needs the first four code units only. *)
Definition matches_here (url : jsstring) : bool :=
  match url with
  | a :: b :: c :: d :: _ =>
      (a =? 47)%N && ((b =? 101)%N || (b =? 69)%N) && (c =? 47)%N && is_alnum_ci d
  | _ => false
  end.

(** [url.match(/\/e\/([a-z0-9]+)/i)]: the leftmost match, its group being
    the longest run of letters and digits after the path segment. *)
Fixpoint extractShortCodeFromURL (url : jsstring) : option jsstring :=
  match url with
  | [] => None
  | _ :: rest =>
      if matches_here url then Some (take_while is_alnum_ci (skipn 3 url))
      else extractShortCodeFromURL rest
  end.

(* ================================================================= *)
(** ** app/events/create/page.tsx *)

(** The component state the handlers read. *)
Record Component := {
  user : option User;
  formData : FormData;
  customFields : list CustomField
}.

(** How a block of statements ends: normally with a value, by [return],
    or by a thrown exception. *)
Inductive Completion (A : Type) :=
| Normal (a : A)
| Returned
| Thrown.
Arguments Normal {A} a.
Arguments Returned {A}.
Arguments Thrown {A}.

(** A statement block: [None] when the fuel of a loop ran out. *)
Definition Block (A : Type) := World -> option (Completion A * World).

Definition ret {A} (a : A) : Block A := fun w => Some (Normal a, w).

Definition bind {A B} (m : Block A) (k : A -> Block B) : Block B :=
  fun w =>
    match m w with
    | None => None
    | Some (Normal a, w1) => k a w1
    | Some (Returned, w1) => Some (Returned, w1)
    | Some (Thrown, w1) => Some (Thrown, w1)
    end.

Declare Scope block_scope.
Delimit Scope block_scope with block.
Notation "x <- m ;; k" := (bind m (fun x => k))
  (at level 61, m at next level, right associativity) : block_scope.
Notation "m ;;; k" := (bind m (fun _ => k))
  (at level 61, right associativity) : block_scope.

Definition early_return {A} : Block A := fun w => Some (Returned, w).

Definition throw {A} : Block A := fun w => Some (Thrown, w).

Definition toast_error (msg : jsstring) : Block unit :=
  fun w => Some (Normal tt, notify (ToastError msg) w).

Definition toast_success (msg : jsstring) : Block unit :=
  fun w => Some (Normal tt, notify (ToastSuccess msg) w).

Definition setSaving (b : bool) : Block unit :=
  fun w => Some (Normal tt, set_saving b w).

Definition router_push (r : jsstring) : Block unit :=
  fun w => Some (Normal tt, push_route r w).

(** [try { body } catch { handler } finally { final }], the whole being the
    last statement of its function. *)
Definition try_catch_finally (body handler final : Block unit) (w : World)
  : option World :=
  let after (r : option (Completion unit * World)) : option World :=
    match r with
    | None => None
    | Some (_, w1) =>
        match final w1 with
        | None => None
        | Some (_, w2) => Some w2
        end
    end in
  match body w with
  | None => None
  | Some (Thrown, w1) => after (handler w1)
  | Some (c, w1) => after (Some (c, w1))
  end.

(** [isNaN(d.getTime())] *)
Definition isNaN (n : number) : bool :=
  match n with NaN => true | Int _ => false end.

(** [a < b] on time values: false when either side is NaN. *)
Definition num_lt (a b : number) : bool :=
  match a, b with
  | Int x, Int y => (x <? y)%Z
  | _, _ => false
  end.

Definition num_le (a b : number) : bool :=
  match a, b with
  | Int x, Int y => (x <=? y)%Z
  | _, _ => false
  end.

(** [a || b] on optional strings: the first one that is present and not empty. *)
Definition or_else (a : option jsstring) (b : option jsstring) : option jsstring :=
  match a with
  | Some s => if truthy s then Some s else b
  | None => b
  end.

Section CreateEventPage.

Variable E : Env.

(** [d.toISOString()]: a RangeError on an invalid date. *)
Definition toISOString (d : number) : Block jsstring :=
  match d with
  | NaN => throw
  | Int t => ret (Date_toISOString E t)
  end.

(** [formData.tags.split(",").map(t => t.trim()).filter(t => t.length > 0)] *)
Definition tagsArray_of (f : FormData) : list jsstring :=
  filter (fun tag => (0 <? length tag)%nat) (map trim (split 44 (tags f))).

(** The profile lookup [supabase.from("users").select("name").eq("id", uid).single()]. *)
Definition select_user (uid : jsstring) : Block ProfileResponse :=
  fun w => Some (Normal (users_single E (calls w) uid), issue (SelectUserName uid) w).

(** [supabase.from("events").insert(eventData).select().single()] *)
Definition insert_event (d : EventData) : Block InsertResponse :=
  fun w => Some (Normal (events_insert E (calls w) d), issue (InsertEvent d) w).

Definition await_generateUniqueShortCode (fuel : nat) (seed : jsstring)
  : Block jsstring :=
  fun w =>
    match generateUniqueShortCode E fuel (Some seed) w with
    | None => None
    | Some (c, w1) => Some (Normal c, w1)
    end.

(** [userProfile?.name || user.email || "Anonymous"] *)
Definition organizer_name_of (p : ProfileResponse) (u : User) : jsstring :=
  match or_else (match profile_data p with Some n => n | None => None end)
                (or_else (email u) None) with
  | Some s => s
  | None => js "Anonymous"
  end.

(** The object literal [eventData]. *)
Definition eventData (c : Component) (u : User) (startISO endISO : jsstring)
  (deadlineISO : option jsstring) (tagsArray : list jsstring)
  (p : ProfileResponse) (shortCode : jsstring) : EventData :=
  let f := formData c in
  {| ev_name := name f;
     ev_description := description f;
     ev_start_time := startISO;
     ev_end_time := endISO;
     ev_organizer_id := user_id u;
     ev_organizer_name := organizer_name_of p u;
     ev_location := or_null (location f);
     ev_is_online := is_online f;
     ev_participant_limit :=
       if truthy (participant_limit f)
       then Some (parseInt E (participant_limit f)) else None;
     ev_tags := if (0 <? length tagsArray)%nat then Some tagsArray else None;
     ev_custom_fields :=
       if (0 <? length (customFields c))%nat then Some (customFields c) else None;
     ev_registration_deadline := or_else deadlineISO None;
     ev_website_url := or_null (website_url f);
     ev_discord_url := or_null (discord_url f);
     ev_twitter_url := or_null (twitter_url f);
     ev_requirements := or_null (requirements f);
     ev_banner_image_url := or_null (banner_image_url f);
     ev_short_code := shortCode |}.

(** The block [if (formData.registration_deadline) { ... }], yielding the
    value [registrationDeadline] has after it. *)
Definition check_deadline (f : FormData) (startTime now : number)
  : Block (option number) :=
  (if truthy (registration_deadline f) then
     let registrationDeadline := Date_parse E (registration_deadline f) in
     if isNaN registrationDeadline then
       toast_error (js "Please enter a valid registration deadline") ;;;
       setSaving false ;;; early_return
     else if num_le startTime registrationDeadline then
       toast_error (js "Registration deadline must be before start time") ;;;
       setSaving false ;;; early_return
     else if num_lt registrationDeadline now then
       toast_error (js "Registration deadline cannot be in the past") ;;;
       setSaving false ;;; early_return
     else ret (Some registrationDeadline)
   else ret None)%block.

(** The statements after the validation of the dates. *)
Definition submit_valid (fuel : nat) (c : Component) (u : User)
  (startTime endTime : number) (registrationDeadline : option number)
  : Block unit :=
  (let f := formData c in
   let tagsArray := tagsArray_of f in
   userProfile <- select_user (user_id u) ;;
   shortCode <- await_generateUniqueShortCode fuel (name f) ;;
   startISO <- toISOString startTime ;;
   endISO <- toISOString endTime ;;
   deadlineISO <- match registrationDeadline with
                  | Some d => (s <- toISOString d ;; ret (Some s))
                  | None => ret None
                  end ;;
   r <- insert_event (eventData c u startISO endISO deadlineISO tagsArray
                        userProfile shortCode) ;;
   match insert_error r with
   | Some e =>
       toast_error (js "Failed to create event: " ++ message e) ;;;
       setSaving false ;;; early_return
   | None =>
       toast_success (js "Event created successfully!") ;;;
       match insert_data r with
       | Some new_id => router_push (js "/events/" ++ new_id)
       | None => throw
       end
   end)%block.

(** The body of the [try] block. *)
Definition submit_body (fuel : nat) (c : Component) (u : User) : Block unit :=
  (let f := formData c in
   if falsy (name f) || falsy (description f)
      || falsy (start_time f) || falsy (end_time f) then
     toast_error (js "Please fill in all required fields") ;;;
     setSaving false ;;; early_return
   else
     let startTime := Date_parse E (start_time f) in
     let endTime := Date_parse E (end_time f) in
     let now := Int (Date_now E) in
     toISOString startTime ;;;
     toISOString endTime ;;;
     toISOString now ;;;
     if isNaN startTime || isNaN endTime then
       toast_error (js "Please enter valid start and end times") ;;;
       setSaving false ;;; early_return
     else if num_lt startTime now then
       toast_error (js "Start time cannot be in the past") ;;;
       setSaving false ;;; early_return
     else if num_le endTime startTime then
       toast_error (js "End time must be after start time") ;;;
       setSaving false ;;; early_return
     else
       registrationDeadline <- check_deadline f startTime now ;;
       submit_valid fuel c u startTime endTime registrationDeadline)%block.

Definition handleSubmit (fuel : nat) (c : Component) (w : World) : option World :=
  match user c with
  | None => Some w
  | Some u =>
      try_catch_finally
        (submit_body fuel c u)
        (toast_error (js "Failed to create event"))
        (setSaving false)
        (set_saving true w)
  end.

(** The local checks in the specification's words (validation pipeline,
    steps 1 to 5), as one decision to compare [handleSubmit] with: the
    required fields are present, start and end are valid times, the start
    is not in the past, the end is strictly after the start, and a
    registration deadline, when present, is a valid time strictly before
    the start and not in the past. *)
Definition passes_validation (f : FormData) : bool :=
  truthy (name f) && truthy (description f)
  && truthy (start_time f) && truthy (end_time f)
  && match Date_parse E (start_time f), Date_parse E (end_time f) with
     | Int s, Int e =>
         (Date_now E <=? s)%Z && (s <? e)%Z
         && (if truthy (registration_deadline f) then
               match Date_parse E (registration_deadline f) with
               | Int d => (d <? s)%Z && (Date_now E <=? d)%Z
               | NaN => false
               end
             else true)
     | _, _ => false
     end.

(** The notice a form is rejected with, if any.  An invalid start or end
    time makes [toISOString] throw in the logging statement that precedes
    the validity check, so the notice is the one of the [catch] block. *)
Definition validation_message (f : FormData) : option jsstring :=
  if falsy (name f) || falsy (description f)
     || falsy (start_time f) || falsy (end_time f)
  then Some (js "Please fill in all required fields")
  else
    match Date_parse E (start_time f), Date_parse E (end_time f) with
    | Int s, Int e =>
        if (s <? Date_now E)%Z then Some (js "Start time cannot be in the past")
        else if (e <=? s)%Z then Some (js "End time must be after start time")
        else if truthy (registration_deadline f) then
          match Date_parse E (registration_deadline f) with
          | NaN => Some (js "Please enter a valid registration deadline")
          | Int d =>
              if (s <=? d)%Z
              then Some (js "Registration deadline must be before start time")
              else if (d <? Date_now E)%Z
              then Some (js "Registration deadline cannot be in the past")
              else None
          end
        else None
    | _, _ => Some (js "Failed to create event")
    end.

(** The value of [registrationDeadline?.toISOString()] on a form that
    passed the checks. *)
Definition deadline_iso (f : FormData) : option jsstring :=
  if truthy (registration_deadline f) then
    match Date_parse E (registration_deadline f) with
    | Int d => Some (Date_toISOString E d)
    | NaN => None
    end
  else None.

(** The payload of a form that passed the checks, given the profile found
    and the short code obtained. *)
Definition payload (c : Component) (u : User) (p : ProfileResponse)
  (shortCode : jsstring) : EventData :=
  let f := formData c in
  let iso s := match Date_parse E s with
               | Int t => Date_toISOString E t
               | NaN => []
               end in
  eventData c u (iso (start_time f)) (iso (end_time f)) (deadline_iso f)
    (tagsArray_of f) p shortCode.

(** How a submission ends once the short code is obtained: the insert, then
    the failure notice, or the success notice and the navigation. *)
Definition conclude (c : Component) (u : User) (p : ProfileResponse)
  (shortCode : jsstring) (w : World) : World :=
  let d := payload c u p shortCode in
  let r := events_insert E (calls w) d in
  let w1 := issue (InsertEvent d) w in
  match insert_error r with
  | Some e =>
      set_saving false (set_saving false
        (notify (ToastError (js "Failed to create event: " ++ message e)) w1))
  | None =>
      let w2 := notify (ToastSuccess (js "Event created successfully!")) w1 in
      match insert_data r with
      | Some new_id => set_saving false (push_route (js "/events/" ++ new_id) w2)
      | None => set_saving false (notify (ToastError (js "Failed to create event")) w2)
      end
  end.

(** [addCustomField], called when the clock reads [Date_now]. *)
Definition addCustomField (c : Component) : Component :=
  let newField :=
    {| id := Z_to_js (Date_now E);
       field_name := js "";
       type := js "text";
       required := false;
       options := Some [] |} in
  {| user := user c; formData := formData c;
     customFields := customFields c ++ [newField] |}.

End CreateEventPage.

(** A call with the custom-fields attribute of an inserted record left out. *)
Definition without_custom_fields (c : Call) : Call :=
  match c with
  | InsertEvent d =>
      InsertEvent
        {| ev_name := ev_name d; ev_description := ev_description d;
           ev_start_time := ev_start_time d; ev_end_time := ev_end_time d;
           ev_organizer_id := ev_organizer_id d;
           ev_organizer_name := ev_organizer_name d;
           ev_location := ev_location d; ev_is_online := ev_is_online d;
           ev_participant_limit := ev_participant_limit d;
           ev_tags := ev_tags d; ev_custom_fields := None;
           ev_registration_deadline := ev_registration_deadline d;
           ev_website_url := ev_website_url d;
           ev_discord_url := ev_discord_url d;
           ev_twitter_url := ev_twitter_url d;
           ev_requirements := ev_requirements d;
           ev_banner_image_url := ev_banner_image_url d;
           ev_short_code := ev_short_code d |}
  | _ => c
  end.

(** The world a locally rejected submission leaves: one more error
    notice, nothing else changed, the busy flag down. *)
Definition rejected_with (msg : jsstring) (w : World) : World :=
  {| rand_pos := rand_pos w; calls := calls w;
     toasts := toasts w ++ [ToastError msg]; saving := false;
     route := route w |}.

(* ================================================================= *)
(** ** The rest of app/events/create/page.tsx *)

(** [parts.join(sep)] for a separator of any length. *)
Fixpoint join_with (sep : jsstring) (parts : list jsstring) : jsstring :=
  match parts with
  | [] => []
  | [p] => p
  | p :: rest => p ++ sep ++ join_with sep rest
  end.

(** [s.startsWith(p)] *)
Fixpoint starts_with (p s : jsstring) : bool :=
  match p, s with
  | [], _ => true
  | a :: p', b :: s' => N.eqb a b && starts_with p' s'
  | _ :: _, [] => false
  end.

(** [s.includes(p)] *)
Fixpoint includes (s p : jsstring) : bool :=
  starts_with p s
  || match s with
     | [] => false
     | _ :: s' => includes s' p
     end.

(** *** The custom-field handlers *)

(** A [Partial<CustomField>]: the attributes an update carries. *)
Record FieldUpdates := {
  upd_id : option jsstring;
  upd_name : option jsstring;
  upd_type : option jsstring;
  upd_required : option bool;
  upd_options : option (option (list jsstring))
}.

(** [{ ...field, ...updates }] *)
Definition merge_field (field : CustomField) (updates : FieldUpdates) : CustomField :=
  {| id := match upd_id updates with Some v => v | None => id field end;
     field_name := match upd_name updates with Some v => v | None => field_name field end;
     type := match upd_type updates with Some v => v | None => type field end;
     required := match upd_required updates with Some v => v | None => required field end;
     options := match upd_options updates with Some v => v | None => options field end |}.

Definition updateCustomField (i : jsstring) (updates : FieldUpdates) (c : Component)
  : Component :=
  {| user := user c; formData := formData c;
     customFields :=
       map (fun field => if str_eqb (id field) i then merge_field field updates
                         else field)
           (customFields c) |}.

Definition removeCustomField (i : jsstring) (c : Component) : Component :=
  {| user := user c; formData := formData c;
     customFields := filter (fun field => negb (str_eqb (id field) i)) (customFields c) |}.

(** The options input of a dropdown field shows
    [field.options?.join(", ") || ""] ... *)
Definition options_display (field : CustomField) : jsstring :=
  match options field with
  | Some opts => join_with (js ", ") opts
  | None => []
  end.

(** ... and on a change stores
    [value.split(",").map(opt => opt.trim()).filter(opt => opt)]. *)
Definition options_of_input (value : jsstring) : list jsstring :=
  filter truthy (map trim (split 44 value)).

Definition only_options (opts : list jsstring) : FieldUpdates :=
  {| upd_id := None; upd_name := None; upd_type := None; upd_required := None;
     upd_options := Some (Some opts) |}.

Definition change_options_input (i : jsstring) (value : jsstring) (c : Component)
  : Component :=
  updateCustomField i (only_options (options_of_input value)) c.

(** The banner's [onChange]:
    [setFormData({ ...formData, banner_image_url: path || "" })]. *)
Definition set_banner (path : option jsstring) (f : FormData) : FormData :=
  {| name := name f; description := description f; start_time := start_time f;
     end_time := end_time f; location := location f; is_online := is_online f;
     participant_limit := participant_limit f; tags := tags f;
     registration_deadline := registration_deadline f;
     website_url := website_url f; discord_url := discord_url f;
     twitter_url := twitter_url f; requirements := requirements f;
     banner_image_url := match or_else path None with Some p => p | None => [] end |}.

(** *** Loading the signed-in user *)

(** A thrown value: an [Error] with its message, or anything else. *)
Inductive Exn :=
| ErrorObject (msg : jsstring)
| NonError.

(** What [supabase.auth.getUser()] gives: a user, none, or a rejection. *)
Inductive AuthAnswer :=
| AuthUser (u : User)
| AuthNone
| AuthThrows (e : Exn).

(** The page state the effect writes. *)
Record PageState := {
  page_user : option User;
  loading : bool
}.

Definition initial_page : PageState := {| page_user := None; loading := true |}.

(** The component renders the form only when [loading] is false. *)
Definition form_rendered (p : PageState) : bool := negb (loading p).

(** [getUser] of the mount effect.  [ensured uid] tells whether
    [ensureUserProfile(uid)] fulfils; a rejection of the auth call is not
    caught and leaves everything as it is. *)
Definition getUser (auth : AuthAnswer) (ensured : jsstring -> bool)
  (p : PageState) (w : World) : PageState * World :=
  match auth with
  | AuthThrows _ => (p, w)
  | AuthNone => (p, push_route (js "/auth/login") w)
  | AuthUser u =>
      if ensured (user_id u) then
        ({| page_user := Some u; loading := false |}, w)
      else
        (p, push_route (js "/auth/login")
              (notify (ToastError (js "Failed to load user profile")) w))
  end.

(** *** The image upload component *)

Record File := {
  file_name : jsstring;
  file_size : Z;
  file_type : jsstring
}.

Inductive StorageCall :=
| AuthGetUser
| StorageUpload (path : jsstring) (file : File)
| StorageRemove (path : jsstring).

(** The answer of [upload]: the stored path, an error, or a rejection. *)
Inductive UploadAnswer :=
| UploadDone (path : jsstring)
| UploadFailed (msg : jsstring)
| UploadThrows (e : Exn).

Inductive RemoveAnswer :=
| RemoveDone
| RemoveFailed (msg : jsstring)
| RemoveThrows (e : Exn).

(** The collaborators of the upload component; [getPublicUrl] is [None]
    when it throws. *)
Record UploadEnv := {
  upload_auth : list StorageCall -> AuthAnswer;
  upload_now : Z;
  storage_upload : list StorageCall -> jsstring -> File -> UploadAnswer;
  storage_remove : list StorageCall -> jsstring -> RemoveAnswer;
  storage_getPublicUrl : jsstring -> option jsstring
}.

(** What the component's handlers change.  [preview] is the value the
    handlers themselves last set; a reader started by [readAsDataURL] sets
    it to the data URL when its [onload] fires, in a later turn of the
    event loop, which is outside a handler's run. *)
Record UploadWorld := {
  uploading : bool;
  preview : option jsstring;
  notices : list Toast;
  storage_calls : list StorageCall;
  changes : list (option jsstring);
  readers : list File;
  input_cleared : bool
}.

Definition up_set_uploading (b : bool) (w : UploadWorld) : UploadWorld :=
  {| uploading := b; preview := preview w; notices := notices w;
     storage_calls := storage_calls w; changes := changes w;
     readers := readers w; input_cleared := input_cleared w |}.

Definition up_set_preview (p : option jsstring) (w : UploadWorld) : UploadWorld :=
  {| uploading := uploading w; preview := p; notices := notices w;
     storage_calls := storage_calls w; changes := changes w;
     readers := readers w; input_cleared := input_cleared w |}.

Definition up_notify (t : Toast) (w : UploadWorld) : UploadWorld :=
  {| uploading := uploading w; preview := preview w; notices := notices w ++ [t];
     storage_calls := storage_calls w; changes := changes w;
     readers := readers w; input_cleared := input_cleared w |}.

Definition up_issue (c : StorageCall) (w : UploadWorld) : UploadWorld :=
  {| uploading := uploading w; preview := preview w; notices := notices w;
     storage_calls := storage_calls w ++ [c]; changes := changes w;
     readers := readers w; input_cleared := input_cleared w |}.

Definition up_onChange (p : option jsstring) (w : UploadWorld) : UploadWorld :=
  {| uploading := uploading w; preview := preview w; notices := notices w;
     storage_calls := storage_calls w; changes := changes w ++ [p];
     readers := readers w; input_cleared := input_cleared w |}.

Definition up_read (f : File) (w : UploadWorld) : UploadWorld :=
  {| uploading := uploading w; preview := preview w; notices := notices w;
     storage_calls := storage_calls w; changes := changes w;
     readers := readers w ++ [f]; input_cleared := input_cleared w |}.

Definition up_clear_input (w : UploadWorld) : UploadWorld :=
  {| uploading := uploading w; preview := preview w; notices := notices w;
     storage_calls := storage_calls w; changes := changes w;
     readers := readers w; input_cleared := true |}.

(** A block of the upload handlers: a value or a thrown exception. *)
Definition Try (A : Type) := UploadWorld -> (A + Exn) * UploadWorld.

Definition try_ret {A} (a : A) : Try A := fun w => (inl a, w).

Definition try_throw {A} (e : Exn) : Try A := fun w => (inr e, w).

Definition try_bind {A B} (m : Try A) (k : A -> Try B) : Try B :=
  fun w =>
    match m w with
    | (inl a, w1) => k a w1
    | (inr e, w1) => (inr e, w1)
    end.

Definition try_do (f : UploadWorld -> UploadWorld) : Try unit :=
  fun w => (inl tt, f w).

Declare Scope try_scope.
Delimit Scope try_scope with try.
Notation "x <- m ;; k" := (try_bind m (fun x => k))
  (at level 61, m at next level, right associativity) : try_scope.
Notation "m ;;; k" := (try_bind m (fun _ => k))
  (at level 61, right associativity) : try_scope.

(** [name.split('.').pop()]: the text after the last dot, or the whole
    name when it has no dot. *)
Definition file_extension (file_name : jsstring) : jsstring :=
  last (split 46 file_name) [].

Section ImageUpload.

Variable U : UploadEnv.

Definition getImageUrl (path : jsstring) : option jsstring :=
  if falsy path then None else storage_getPublicUrl U path.

Definition await_getUser : Try (option User) :=
  fun w =>
    let w1 := up_issue AuthGetUser w in
    match upload_auth U (storage_calls w) with
    | AuthUser u => (inl (Some u), w1)
    | AuthNone => (inl None, w1)
    | AuthThrows e => (inr e, w1)
    end.

Definition await_upload (fileName : jsstring) (file : File) : Try jsstring :=
  fun w =>
    let w1 := up_issue (StorageUpload fileName file) w in
    match storage_upload U (storage_calls w) fileName file with
    | UploadDone path => (inl path, w1)
    | UploadFailed msg =>
        if includes msg (js "Bucket not found")
        then (inr (ErrorObject
                     (js "Storage bucket not configured. Please contact support.")), w1)
        else (inr (ErrorObject msg), w1)
    | UploadThrows e => (inr e, w1)
    end.

(** The [try] block of [handleFileSelect]. *)
Definition upload_body (file : File) : Try unit :=
  (user <- await_getUser ;;
   match user with
   | None => try_throw (ErrorObject (js "User not authenticated"))
   | Some u =>
       let fileExt := file_extension (file_name file) in
       let fileName :=
         user_id u ++ js "/" ++ Z_to_js (upload_now U) ++ js "." ++ fileExt in
       try_do (up_read file) ;;;
       path <- await_upload fileName file ;;
       (match getImageUrl path with
        | Some uploadedImageUrl =>
            if truthy uploadedImageUrl
            then try_do (up_set_preview (Some uploadedImageUrl))
            else try_ret tt
        | None => try_ret tt
        end) ;;;
       try_do (up_onChange (Some path)) ;;;
       try_do (up_notify (ToastSuccess (js "Image uploaded successfully!")))
   end)%try.

(** [handleFileSelect]; [selected] is [event.target.files?.[0]], and
    [maxSize] a whole number of MiB, as the page passes it.  The two checks
    return before the [try] block, so before the flag is raised and without
    clearing the input. *)
Definition handleFileSelect (maxSize : Z) (selected : option File)
  (w : UploadWorld) : UploadWorld :=
  match selected with
  | None => w
  | Some file =>
      if (maxSize * 1024 * 1024 <? file_size file)%Z then
        up_notify (ToastError (js "File size must be less than "
                               ++ Z_to_js maxSize ++ js "MB")) w
      else if negb (starts_with (js "image/") (file_type file)) then
        up_notify (ToastError (js "Please select an image file")) w
      else
        let w1 := up_set_uploading true w in
        let w2 :=
          match upload_body file w1 with
          | (inl _, w') => w'
          | (inr e, w') =>
              up_set_preview None
                (up_notify
                   (ToastError match e with
                               | ErrorObject msg => msg
                               | NonError => js "Failed to upload image"
                               end) w')
          end in
        up_clear_input (up_set_uploading false w2)
  end.

(** [handleRemove]: an error in the storage's answer is only logged. *)
Definition handleRemove (value : option jsstring) (w : UploadWorld) : UploadWorld :=
  match or_else value None with
  | None => w
  | Some v =>
      let w1 := up_issue (StorageRemove v) w in
      match storage_remove U (storage_calls w) v with
      | RemoveThrows _ => up_notify (ToastError (js "Failed to remove image")) w1
      | _ =>
          up_notify (ToastSuccess (js "Image removed"))
            (up_clear_input (up_set_preview None (up_onChange None w1)))
      end
  end.

End ImageUpload.

(** The shape of a short code: 7 characters, each in [[a-z0-9]]. *)
Definition well_formed_code (c : jsstring) : Prop :=
  length c = 7%nat /\ Forall (fun x => is_lower_alnum x = true) c.

(** A form in order: the local checks of [handleSubmit], spelled out. *)
Definition form_in_order (E : Env) (f : FormData) : Prop :=
  name f <> [] /\ description f <> [] /\ start_time f <> [] /\ end_time f <> []
  /\ exists s e,
      Date_parse E (start_time f) = Int s /\ Date_parse E (end_time f) = Int e
      /\ (Date_now E <= s < e)%Z
      /\ (registration_deadline f = []
          \/ (registration_deadline f <> []
              /\ exists d, Date_parse E (registration_deadline f) = Int d
                           /\ (Date_now E <= d < s)%Z)).

(** An entry of a comma-separated list as it is stored: not empty, without
    a comma, with no white space at either end. *)
Definition clean_item (t : jsstring) : Prop :=
  t <> [] /\ ~ In 44%N t /\ trim t = t.

(** The notice the [catch] block of [handleFileSelect] shows for a thrown
    value. *)
Definition upload_failure_notice (e : Exn) : Toast :=
  ToastError match e with
             | ErrorObject msg => msg
             | NonError => js "Failed to upload image"
             end.

(** A file that passes the size and type checks of [handleFileSelect]. *)
Definition acceptable_file (maxSize : Z) (file : File) : Prop :=
  (file_size file <= maxSize * 1024 * 1024)%Z
  /\ starts_with (js "image/") (file_type file) = true.

(* ================================================================= *)
(** ** Sample environments

    Concrete platforms and backends on which the definitions are run. *)

(** Lower-casing of the ASCII letters, as [toLowerCase] acts on ASCII text. *)
Definition ascii_toLowerCase (s : jsstring) : jsstring :=
  map (fun c => if is_upper c then (c + 32)%N else c) s.

(** A parser that knows three [datetime-local] values (read as UTC). *)
Definition sample_Date_parse (s : jsstring) : number :=
  if str_eqb s (js "2030-01-01T09:00") then Int 1893488400000
  else if str_eqb s (js "2030-01-01T10:00") then Int 1893492000000
  else if str_eqb s (js "2030-01-01T11:30") then Int 1893497400000
  else NaN.

Definition sample_toISOString (t : Z) : jsstring :=
  if (t =? 1893488400000)%Z then js "2030-01-01T09:00:00.000Z"
  else if (t =? 1893492000000)%Z then js "2030-01-01T10:00:00.000Z"
  else if (t =? 1893497400000)%Z then js "2030-01-01T11:30:00.000Z"
  else Z_to_js t.

(** Decimal digits only; anything else is NaN. *)
Definition sample_parseInt (s : jsstring) : number :=
  match s with
  | [] => NaN
  | _ => if forallb is_digit s
         then Int (fold_left (fun acc c => acc * 10 + (Z.of_N c - 48))%Z s 0%Z)
         else NaN
  end.

Definition found_row : LookupResponse :=
  {| lookup_data := Some (js "7"); lookup_error := None |}.

Definition no_rows_error : LookupResponse :=
  {| lookup_data := None;
     lookup_error := Some {| code := js "PGRST116";
                             message := js "JSON object requested, multiple (or no) rows returned" |} |}.

Definition network_error : LookupResponse :=
  {| lookup_data := None;
     lookup_error := Some {| code := js ""; message := js "TypeError: Failed to fetch" |} |}.

(** The sample random source cycles through the alphabet: the [k]-th draw
    is the middle of the cell of symbol [k mod 31], so it selects that
    symbol whether the product with 31 is exact or rounded. *)
Definition sample_random (k : nat) : Q := (2 * Z.of_nat (k mod 31) + 1 # 62)%Q.

(** A browser session: the random source cycles through the alphabet; a
    short-code lookup finds a row while fewer than three calls have been
    issued, and none afterwards. *)
Definition browser : Env :=
  {| String_toLowerCase := ascii_toLowerCase;
     Math_random := sample_random;
     Date_parse := sample_Date_parse;
     Date_now := 1767225600000;
     Date_toISOString := sample_toISOString;
     parseInt := sample_parseInt;
     window_location_origin := Some (js "http://localhost:3000");
     events_single := fun history _ =>
       if (length history <? 3)%nat then found_row else no_rows_error;
     users_single := fun _ _ => {| profile_data := Some (Some (js "Alice")) |};
     events_insert := fun _ _ =>
       {| insert_data := Some (js "42"); insert_error := None |} |}.

(** The same session against a backend whose lookups never report "no rows". *)
Definition browser_offline : Env :=
  {| String_toLowerCase := ascii_toLowerCase;
     Math_random := sample_random;
     Date_parse := sample_Date_parse;
     Date_now := 1767225600000;
     Date_toISOString := sample_toISOString;
     parseInt := sample_parseInt;
     window_location_origin := Some (js "http://localhost:3000");
     events_single := fun history _ =>
       if Nat.even (length history) then found_row else network_error;
     users_single := fun _ _ => {| profile_data := None |};
     events_insert := fun _ _ =>
       {| insert_data := Some (js "42"); insert_error := None |} |}.

(** The same session against a backend that first fails with a network
    error, then finds a row, and reports "no rows" from the third lookup on. *)
Definition browser_flaky : Env :=
  {| String_toLowerCase := ascii_toLowerCase;
     Math_random := sample_random;
     Date_parse := sample_Date_parse;
     Date_now := 1767225600000;
     Date_toISOString := sample_toISOString;
     parseInt := sample_parseInt;
     window_location_origin := Some (js "http://localhost:3000");
     events_single := fun history _ =>
       match length history with
       | O => network_error
       | S O => found_row
       | _ => no_rows_error
       end;
     users_single := fun _ _ => {| profile_data := None |};
     events_insert := fun _ _ =>
       {| insert_data := Some (js "42"); insert_error := None |} |}.

(** A page served from the single-label host [e]. *)
Definition intranet : Env :=
  {| String_toLowerCase := ascii_toLowerCase;
     Math_random := sample_random;
     Date_parse := sample_Date_parse;
     Date_now := 1767225600000;
     Date_toISOString := sample_toISOString;
     parseInt := sample_parseInt;
     window_location_origin := Some (js "http://e");
     events_single := fun _ _ => no_rows_error;
     users_single := fun _ _ => {| profile_data := None |};
     events_insert := fun _ _ =>
       {| insert_data := Some (js "42"); insert_error := None |} |}.

(** Server-side rendering: no [window]. *)
Definition server : Env :=
  {| String_toLowerCase := ascii_toLowerCase;
     Math_random := sample_random;
     Date_parse := sample_Date_parse;
     Date_now := 1767225600000;
     Date_toISOString := sample_toISOString;
     parseInt := sample_parseInt;
     window_location_origin := None;
     events_single := fun _ _ => no_rows_error;
     users_single := fun _ _ => {| profile_data := None |};
     events_insert := fun _ _ =>
       {| insert_data := Some (js "42"); insert_error := None |} |}.

Definition fresh_world : World :=
  {| rand_pos := 0; calls := []; toasts := []; saving := false; route := None |}.

Definition alice : User :=
  {| user_id := js "u-1"; email := Some (js "alice@example.org") |}.

Definition blank_form : FormData :=
  {| name := []; description := []; start_time := []; end_time := [];
     location := []; is_online := false; participant_limit := []; tags := [];
     registration_deadline := []; website_url := []; discord_url := [];
     twitter_url := []; requirements := []; banner_image_url := [] |}.

(** A form that passes every check. *)
Definition meetup_form : FormData :=
  {| name := js "Lion Meetup"; description := js "Monthly meetup";
     start_time := js "2030-01-01T10:00"; end_time := js "2030-01-01T11:30";
     location := []; is_online := true; participant_limit := js "25";
     tags := js " web3, ,polkadot ,,";
     registration_deadline := js "2030-01-01T09:00"; website_url := [];
     discord_url := js "https://discord.gg/x"; twitter_url := [];
     requirements := []; banner_image_url := [] |}.

Definition with_form (f : FormData) (cf : list CustomField) : Component :=
  {| user := Some alice; formData := f; customFields := cf |}.

(** The same form with the end equal to the start. *)
Definition zero_length_form : FormData :=
  {| name := js "Lion Meetup"; description := js "Monthly meetup";
     start_time := js "2030-01-01T10:00"; end_time := js "2030-01-01T10:00";
     location := []; is_online := true; participant_limit := js "25";
     tags := js " web3, ,polkadot ,,";
     registration_deadline := js "2030-01-01T09:00"; website_url := [];
     discord_url := js "https://discord.gg/x"; twitter_url := [];
     requirements := []; banner_image_url := [] |}.

(** The same form with the registration deadline equal to the start. *)
Definition late_deadline_form : FormData :=
  {| name := js "Lion Meetup"; description := js "Monthly meetup";
     start_time := js "2030-01-01T10:00"; end_time := js "2030-01-01T11:30";
     location := []; is_online := true; participant_limit := js "25";
     tags := js " web3, ,polkadot ,,";
     registration_deadline := js "2030-01-01T10:00"; website_url := [];
     discord_url := js "https://discord.gg/x"; twitter_url := [];
     requirements := []; banner_image_url := [] |}.

(** The world the submission of [meetup_form] by [alice] leaves, and the
    record it inserts. *)
Definition meetup_world : World :=
  Eval vm_compute in
    match handleSubmit browser 19 (with_form meetup_form []) fresh_world with
    | Some w => w
    | None => fresh_world
    end.

Definition meetup_payload : EventData :=
  Eval vm_compute in
    payload browser (with_form meetup_form []) alice
      {| profile_data := Some (Some (js "Alice")) |} (js "lioabcd").

(** One custom field, just added and not yet named. *)
Definition unnamed_field : CustomField :=
  {| id := js "1767225600000"; field_name := []; type := js "text";
     required := false; options := Some [] |}.

Definition meetup_world_with_field : World :=
  Eval vm_compute in
    match handleSubmit browser 19 (addCustomField browser (with_form meetup_form []))
            fresh_world with
    | Some w => w
    | None => fresh_world
    end.

Definition meetup_payload_with_field : EventData :=
  Eval vm_compute in
    payload browser (addCustomField browser (with_form meetup_form [])) alice
      {| profile_data := Some (Some (js "Alice")) |} (js "lioabcd").

(** *** Samples for the rest of the page *)

(** A storage that stores every file under the requested path, and
    answers every delete with an error. *)
Definition studio : UploadEnv :=
  {| upload_auth := fun _ => AuthUser alice;
     upload_now := 1767225600000;
     storage_upload := fun _ path _ => UploadDone path;
     storage_remove := fun _ _ => RemoveFailed (js "Object not found");
     storage_getPublicUrl := fun p => Some (js "https://cdn.example/" ++ p) |}.

(** The same storage seen by a visitor who is not signed in. *)
Definition studio_signed_out : UploadEnv :=
  {| upload_auth := fun _ => AuthNone;
     upload_now := 1767225600000;
     storage_upload := fun _ path _ => UploadDone path;
     storage_remove := fun _ _ => RemoveFailed (js "Object not found");
     storage_getPublicUrl := fun p => Some (js "https://cdn.example/" ++ p) |}.

(** An image of exactly 5 MiB. *)
Definition banner_png : File :=
  {| file_name := js "lion.final.png"; file_size := 5242880;
     file_type := js "image/png" |}.

Definition fresh_upload : UploadWorld :=
  {| uploading := false; preview := None; notices := []; storage_calls := [];
     changes := []; readers := []; input_cleared := false |}.

(** A dropdown field with two options. *)
Definition level_field : CustomField :=
  {| id := js "1767225600000"; field_name := js "Level"; type := js "select";
     required := true; options := Some [js "Beginner"; js "Advanced"] |}.

Definition rename_to_track : FieldUpdates :=
  {| upd_id := None; upd_name := Some (js "Track"); upd_type := None;
     upd_required := None; upd_options := None |}.

(** The meetup form with tidy tags and an uploaded banner. *)
Definition tidy_form : FormData :=
  {| name := js "Lion Meetup"; description := js "Monthly meetup";
     start_time := js "2030-01-01T10:00"; end_time := js "2030-01-01T11:30";
     location := []; is_online := true; participant_limit := js "25";
     tags := js "web3, polkadot";
     registration_deadline := []; website_url := [];
     discord_url := []; twitter_url := [];
     requirements := []; banner_image_url := [] |}.

Definition tidy_component : Component :=
  {| user := Some alice;
     formData := set_banner (Some (js "u-1/1767225600000.png")) tidy_form;
     customFields := [] |}.

Definition tidy_world : World :=
  Eval vm_compute in
    match handleSubmit browser 19 tidy_component fresh_world with
    | Some w => w
    | None => fresh_world
    end.

Definition tidy_payload : EventData :=
  Eval vm_compute in
    payload browser tidy_component alice
      {| profile_data := Some (Some (js "Alice")) |} (js "lioabcd").

Definition lion_lookups_world : World :=
  Eval vm_compute in
    match generateUniqueShortCode browser 19 (Some (js "lion")) fresh_world with
    | Some (_, w) => w
    | None => fresh_world
    end.

(* ================================================================= *)
(** ** Strings *)

Lemma characters_length : length characters = 31%nat.
Proof. reflexivity. Qed.

Lemma str_eqb_eq (s t : jsstring) : str_eqb s t = true <-> s = t.
Proof.
  revert t; induction s as [|a s IH]; intros [|b t]; simpl; split;
    try congruence; try reflexivity.
  - intros H; apply andb_prop in H as [Hab Hst].
    apply N.eqb_eq in Hab; apply IH in Hst; congruence.
  - intros H; injection H as -> ->.
    rewrite N.eqb_refl; simpl; apply IH; reflexivity.
Qed.

Lemma In_firstn (A : Type) (n : nat) (l : list A) (x : A) :
  In x (firstn n l) -> In x l.
Proof.
  intros H. rewrite <- (firstn_skipn n l). apply in_or_app. now left.
Qed.

Lemma charAt_in_range (s : jsstring) (i : Z) :
  (0 <= i < Z.of_nat (length s))%Z ->
  exists c, charAt s i = [c] /\ In c s.
Proof.
  intros Hi; unfold charAt.
  destruct (i <? 0)%Z eqn:Hneg; [apply Z.ltb_lt in Hneg; lia|].
  destruct (nth_error s (Z.to_nat i)) as [c|] eqn:Hn.
  - exists c; split; [reflexivity|]. eapply nth_error_In; eassumption.
  - apply nth_error_None in Hn. lia.
Qed.

Lemma characters_lower_alnum (c : N) : In c characters -> is_lower_alnum c = true.
Proof.
  intros H.
  assert (Hall : forallb is_lower_alnum characters = true) by reflexivity.
  rewrite forallb_forall in Hall; auto.
Qed.

Lemma lower_alnum_is_alnum_ci (c : N) : is_lower_alnum c = true -> is_alnum_ci c = true.
Proof.
  unfold is_lower_alnum, is_alnum_ci; intros H.
  apply orb_prop in H as [-> | ->]; [reflexivity | apply orb_true_r].
Qed.

(** *** Splitting and trimming *)

Lemma split_not_nil (sep : N) (s : jsstring) : split sep s <> [].
Proof.
  destruct s as [|c s]; cbn [split]; [discriminate|].
  destruct (c =? sep)%N; [discriminate|].
  destruct (split sep s); discriminate.
Qed.

(** Joining the parts with the separator gives the string back. *)
Lemma split_join (sep : N) (s : jsstring) : join sep (split sep s) = s.
Proof.
  induction s as [|c s IH]; [reflexivity|].
  cbn [split]. pose proof (split_not_nil sep s) as Hne.
  destruct (c =? sep)%N eqn:Hc.
  - apply N.eqb_eq in Hc. subst c.
    destruct (split sep s) as [|seg segs]; [congruence|].
    cbn [join app] in *. now rewrite IH.
  - destruct (split sep s) as [|seg segs]; [congruence|].
    destruct segs as [|seg2 segs]; cbn [join] in *; now rewrite <- IH.
Qed.

(** No part contains the separator. *)
Lemma split_no_separator (sep : N) (s : jsstring) :
  Forall (fun seg => ~ In sep seg) (split sep s).
Proof.
  induction s as [|c s IH]; cbn [split].
  - constructor; [intros []|constructor].
  - destruct (c =? sep)%N eqn:Hc.
    + constructor; [intros []|exact IH].
    + destruct (split sep s) as [|seg segs].
      * constructor; [|constructor]. intros [H|[]].
        apply N.eqb_neq in Hc. congruence.
      * inversion IH as [|? ? Hseg Hsegs]; subst. constructor; [|assumption].
        intros [H|H]; [apply N.eqb_neq in Hc; congruence | auto].
Qed.

Lemma drop_while_suffix (p : N -> bool) (s : jsstring) :
  exists pre, s = pre ++ drop_while p s.
Proof.
  induction s as [|c s [pre IH]]; [exists []; reflexivity|].
  cbn [drop_while]. destruct (p c).
  - exists (c :: pre). cbn. now rewrite <- IH.
  - exists []. reflexivity.
Qed.

Lemma drop_while_head (p : N -> bool) (s : jsstring) (c : N) (t : jsstring) :
  drop_while p s = c :: t -> p c = false.
Proof.
  induction s as [|a s IH]; cbn [drop_while]; [discriminate|].
  destruct (p a) eqn:Ha; [exact IH|].
  intros H. injection H as -> _. exact Ha.
Qed.

Lemma In_drop_while (p : N -> bool) (s : jsstring) (x : N) :
  In x (drop_while p s) -> In x s.
Proof.
  destruct (drop_while_suffix p s) as [pre H]. intros Hin.
  rewrite H. apply in_or_app. now right.
Qed.

Lemma In_trim (s : jsstring) (x : N) : In x (trim s) -> In x s.
Proof.
  unfold trim. intros H. apply in_rev in H.
  apply In_drop_while in H. apply in_rev in H.
  now apply In_drop_while in H.
Qed.

(** A trimmed string neither starts nor ends with white space. *)
Lemma trim_first (s : jsstring) (c : N) (t : jsstring) :
  trim s = c :: t -> is_space c = false.
Proof.
  unfold trim. intros H.
  destruct (drop_while_suffix is_space (rev (drop_while is_space s))) as [pre Hpre].
  assert (HD : drop_while is_space (rev (drop_while is_space s)) = rev (c :: t)).
  { rewrite <- H. now rewrite rev_involutive. }
  rewrite HD in Hpre.
  assert (HX : drop_while is_space s = c :: t ++ rev pre).
  { rewrite <- (rev_involutive (drop_while is_space s)), Hpre.
    rewrite rev_app_distr, rev_involutive. reflexivity. }
  exact (drop_while_head is_space s c (t ++ rev pre) HX).
Qed.

Lemma trim_last (s : jsstring) (c : N) (t : jsstring) :
  trim s = t ++ [c] -> is_space c = false.
Proof.
  unfold trim. intros H.
  assert (HD : drop_while is_space (rev (drop_while is_space s)) = c :: rev t).
  { rewrite <- (rev_involutive (drop_while _ (rev _))), H.
    now rewrite rev_app_distr. }
  exact (drop_while_head is_space _ c (rev t) HD).
Qed.

(* ================================================================= *)
(** ** The short-code generator *)

Section GeneratorFacts.

Variable E : Env.

Hypothesis random_range : random_in_unit_interval E.

Lemma random_index_range (k : nat) :
  (0 <= random_index E k < Z.of_nat (length characters))%Z.
Proof.
  unfold random_index. destruct (random_range k) as [Hlo Hhi].
  set (n := Z.of_nat (length characters)).
  assert (Hn : (0 < inject_Z n)%Q) by (unfold n; reflexivity).
  split.
  - change 0%Z with (Qfloor (inject_Z 0)) at 1. apply Qfloor_resp_le.
    change (inject_Z 0) with (0 * inject_Z n)%Q.
    apply Qmult_le_compat_r; [assumption | apply Qlt_le_weak; assumption].
  - assert (Hlt : (Math_random E k * inject_Z n < inject_Z n)%Q).
    { setoid_replace (inject_Z n) with (1 * inject_Z n)%Q at 2 by ring.
      apply Qmult_lt_compat_r; assumption. }
    pose proof (Qfloor_le (Math_random E k * inject_Z n)) as Hfl.
    rewrite Zlt_Qlt. eapply Qle_lt_trans; eassumption.
Qed.

Lemma random_char (k : nat) :
  exists c, charAt characters (random_index E k) = [c] /\ In c characters.
Proof. apply charAt_in_range, random_index_range. Qed.

Lemma random_chars_length (n k : nat) : length (random_chars E k n) = n.
Proof.
  revert k; induction n as [|n IH]; intros k; simpl; [reflexivity|].
  destruct (random_char k) as (c & -> & _). simpl. now rewrite IH.
Qed.

Lemma random_chars_alphabet (n k : nat) :
  Forall (fun c => In c characters) (random_chars E k n).
Proof.
  revert k; induction n as [|n IH]; intros k; simpl; [constructor|].
  destruct (random_char k) as (c & -> & Hc). simpl. constructor; auto.
Qed.

Lemma advance_draw (n : nat) (w : World) : advance n (draw w) = advance (S n) w.
Proof. unfold advance, draw; simpl. f_equal. lia. Qed.

Lemma advance_0 (w : World) : advance 0 w = w.
Proof. destruct w; reflexivity. Qed.

(** The loop appends exactly the missing characters, one draw each. *)
Lemma fill_spec (n : nat) :
  forall fuel result w,
    (length result + n = targetLength)%nat -> (n < fuel)%nat ->
    fill E fuel result w
    = Some (result ++ random_chars E (rand_pos w) n, advance n w).
Proof.
  induction n as [|n IH]; intros [|fuel] result w Hlen Hfuel; try lia; simpl.
  - replace (length result <? targetLength)%nat with false
      by (symmetry; apply Nat.ltb_ge; lia).
    now rewrite app_nil_r, advance_0.
  - replace (length result <? targetLength)%nat with true
      by (symmetry; apply Nat.ltb_lt; lia).
    destruct (random_char (rand_pos w)) as (c & Hc & _).
    rewrite IH.
    + rewrite advance_draw, <- app_assoc. reflexivity.
    + rewrite length_app, Hc. simpl. lia.
    + lia.
Qed.

Lemma seed_prefix_length (seed : option jsstring) :
  (length (seed_prefix E seed) <= 3)%nat.
Proof.
  unfold seed_prefix. destruct seed as [n|]; [|simpl; lia].
  destruct (truthy n); [|simpl; lia].
  match goal with |- context [(2 <=? ?x)%nat] => destruct (2 <=? x)%nat end;
    [|simpl; lia].
  unfold substring0. rewrite length_firstn. lia.
Qed.

Lemma seed_prefix_lower_alnum (seed : option jsstring) :
  Forall (fun c => is_lower_alnum c = true) (seed_prefix E seed).
Proof.
  unfold seed_prefix. destruct seed as [n|]; [|constructor].
  destruct (truthy n); [|constructor].
  match goal with |- context [(2 <=? ?x)%nat] => destruct (2 <=? x)%nat end;
    [|constructor].
  apply Forall_forall. intros c Hc.
  unfold substring0 in Hc. apply In_firstn in Hc.
  unfold strip_non_alnum in Hc. apply filter_In in Hc. tauto.
Qed.

(** What [generateShortCode] returns: the prefix, then the random fill. *)
Lemma generateShortCode_spec (fuel : nat) (seed : option jsstring) (w : World) :
  (targetLength < fuel)%nat ->
  let p := seed_prefix E seed in
  generateShortCode E fuel seed w
  = Some (p ++ random_chars E (rand_pos w) (targetLength - length p),
          advance (targetLength - length p) w).
Proof.
  intros Hfuel p. unfold generateShortCode.
  pose proof (seed_prefix_length seed) as Hp. fold p in Hp.
  unfold targetLength in *.
  apply fill_spec; unfold targetLength; lia.
Qed.

(** The deletion of [replace(/[^a-z0-9]/g, '')], with the class written
    out by its code-unit ranges. *)
Lemma strip_non_alnum_ranges (s : jsstring) :
  strip_non_alnum s
  = filter (fun c => ((97 <=? c) && (c <=? 122) || (48 <=? c) && (c <=? 57))%N) s.
Proof. reflexivity. Qed.

Lemma is_lower_alnum_ranges (c : N) :
  is_lower_alnum c = true ->
  ((97 <=? c) && (c <=? 122) || (48 <=? c) && (c <=? 57))%N = true.
Proof. intros H. exact H. Qed.

(** The prefix is empty, or the first three characters of the cleaned seed
    when there are at least two of them. *)
Lemma seed_prefix_cases (s : jsstring) :
  let prefix := firstn 3 (strip_non_alnum (String_toLowerCase E s)) in
  (seed_prefix E (Some s) = [] /\ (s = [] \/ length prefix <= 1)%nat)
  \/ (seed_prefix E (Some s) = prefix /\ s <> []
      /\ (length prefix = 2 \/ length prefix = 3)%nat).
Proof.
  intros prefix. unfold seed_prefix. destruct s as [|a s].
  - left. split; [reflexivity | left; reflexivity].
  - cbn [truthy falsy negb]. unfold substring0. fold prefix.
    assert (Hle : (length prefix <= 3)%nat)
      by (unfold prefix; rewrite length_firstn; lia).
    destruct (2 <=? length prefix)%nat eqn:H2.
    + apply Nat.leb_le in H2. right. split; [reflexivity|].
      split; [discriminate | lia].
    + apply Nat.leb_gt in H2. left. split; [reflexivity | right; lia].
Qed.

(** With no seed: seven alphabet characters for seven draws, and no call. *)
Lemma generateShortCode_no_seed (fuel : nat) (w : World) :
  (targetLength < fuel)%nat ->
  exists code,
    generateShortCode E fuel None w = Some (code, advance 7 w)
    /\ length code = 7%nat
    /\ Forall (fun c => In c characters) code.
Proof.
  intros Hfuel. exists (random_chars E (rand_pos w) 7).
  split; [|split].
  - rewrite generateShortCode_spec by assumption. reflexivity.
  - apply random_chars_length.
  - apply random_chars_alphabet.
Qed.

End GeneratorFacts.

Lemma sample_random_range (k : nat) :
  (0 <= sample_random k)%Q /\ (sample_random k < 1)%Q.
Proof.
  unfold sample_random, Qle, Qlt, Qnum, Qden.
  assert (k mod 31 < 31)%nat by (apply Nat.mod_upper_bound; discriminate).
  lia.
Qed.

Lemma browser_random_range : random_in_unit_interval browser.
Proof. intros k. apply sample_random_range. Qed.

Lemma browser_flaky_random_range : random_in_unit_interval browser_flaky.
Proof. intros k. apply sample_random_range. Qed.

Lemma browser_offline_random_range : random_in_unit_interval browser_offline.
Proof. intros k. apply sample_random_range. Qed.

Section ShortCodeClaims.

Variable E : Env.
Hypothesis random_range : random_in_unit_interval E.

(** C2 (as amended).  For every seed, present or absent, [generateShortCode]
    returns a string of exactly 7 characters, all of them in [[a-z0-9]]: a
    seed-derived prefix of 0, 2 or 3 characters followed by random
    characters, one draw each, and every character after the prefix is
    drawn from the alphabet ["23456789abcdefghjkmnpqrstuvwxyz"], which has
    31 symbols.  The prefix, when not empty, is the first three characters
    of the lower-cased seed with everything outside [[a-z0-9]] deleted.
    With no seed the prefix is empty, so all 7 characters are from the
    alphabet. *)
Theorem generateShortCode_shape (fuel : nat) (seed : option jsstring) (w : World) :
  (targetLength < fuel)%nat ->
  let alphabet := js "23456789abcdefghjkmnpqrstuvwxyz" in
  let in_class := fun c : N =>
    ((97 <=? c) && (c <=? 122) || (48 <=? c) && (c <=? 57))%N in
  exists rest,
    generateShortCode E fuel seed w
    = Some (seed_prefix E seed ++ rest, advance (length rest) w)
    /\ length (seed_prefix E seed ++ rest) = 7%nat
    /\ (length (seed_prefix E seed) = 0
        \/ length (seed_prefix E seed) = 2
        \/ length (seed_prefix E seed) = 3)%nat
    /\ (forall s, seed = Some s ->
          seed_prefix E seed = []
          \/ seed_prefix E seed
             = firstn 3 (filter in_class (String_toLowerCase E s)))
    /\ (seed = None -> seed_prefix E seed = [])
    /\ Forall (fun c => in_class c = true) (seed_prefix E seed ++ rest)
    /\ Forall (fun c => In c alphabet) rest
    /\ length alphabet = 31%nat.
Proof.
  intros Hfuel alphabet in_class.
  pose proof (seed_prefix_length E seed) as Hp.
  exists (random_chars E (rand_pos w) (targetLength - length (seed_prefix E seed))).
  rewrite random_chars_length by assumption.
  split; [apply generateShortCode_spec; assumption|].
  split.
  { rewrite length_app, random_chars_length by assumption.
    unfold targetLength. lia. }
  split.
  { destruct seed as [s|]; [|left; reflexivity].
    destruct (seed_prefix_cases E s) as [[-> _] | (-> & _ & H)];
      [left; reflexivity | right; exact H]. }
  split.
  { intros s ->.
    destruct (seed_prefix_cases E s) as [[-> _] | (-> & _ & _)];
      [left; reflexivity | right].
    rewrite strip_non_alnum_ranges. reflexivity. }
  split; [intros ->; reflexivity|].
  split.
  { apply Forall_app. split.
    - eapply Forall_impl; [|apply seed_prefix_lower_alnum].
      intros c; apply is_lower_alnum_ranges.
    - eapply Forall_impl; [|apply random_chars_alphabet; assumption].
      intros c Hc. apply is_lower_alnum_ranges.
      revert Hc. apply characters_lower_alnum. }
  split; [apply random_chars_alphabet; assumption | reflexivity].
Qed.


End ShortCodeClaims.

(** C2, as the specification words it, fails on the seed ["lion"]: the code
    keeps the prefix ["lio"], whose characters [l], [i] and [o] are not in
    the alphabet; and the alphabet has 31 symbols, not 32. *)
Lemma generateShortCode_seed_lion :
  generateShortCode browser 8 (Some (js "lion")) fresh_world
  = Some (js "lio2345", advance 4 fresh_world)
  /\ ~ Forall (fun c => In c characters) (js "lio2345")
  /\ length characters <> 32%nat.
Proof.
  split; [reflexivity|]. split.
  - intros H. inversion H as [|c l Hc _]; subst.
    cbv in Hc. repeat (destruct Hc as [Hc|Hc]; [discriminate Hc|]). exact Hc.
  - rewrite characters_length. discriminate.
Qed.

(* ================================================================= *)
(** ** The bounded retry loop *)

Section RetryLoop.

Variable E : Env.
Hypothesis random_range : random_in_unit_interval E.

(** With enough fuel for [generateShortCode], the fuel does not matter. *)
Lemma generateShortCode_fuel (f g : nat) (seed : option jsstring) (w : World) :
  (targetLength < f)%nat -> (targetLength < g)%nat ->
  generateShortCode E f seed w = generateShortCode E g seed w.
Proof.
  intros Hf Hg. now rewrite !generateShortCode_spec by assumption.
Qed.

Lemma attempt_fuel (f g : nat) (seed : option jsstring) (w : World) :
  (targetLength < f)%nat -> (targetLength < g)%nat ->
  attempt E f seed w = attempt E g seed w.
Proof.
  intros Hf Hg. unfold attempt.
  now rewrite (generateShortCode_fuel f g) by assumption.
Qed.

(** An attempt always completes, and issues exactly one call: the lookup
    of the code it generated. *)
Lemma attempt_total (g : nat) (seed : option jsstring) (w : World) :
  (targetLength < g)%nat ->
  exists c r w2,
    attempt E g seed w = Some (c, r, w2)
    /\ calls w2 = calls w ++ [SelectEventByShortCode c]
    /\ r = events_single E (calls w) c.
Proof.
  intros Hg. unfold attempt.
  rewrite generateShortCode_spec by assumption. cbv zeta.
  unfold select_event. eexists _, _, _. split; [reflexivity|].
  simpl. split; reflexivity.
Qed.

(** One turn of the loop, in terms of [attempt]. *)
Lemma unique_loop_step (f g : nat) (seed : option jsstring) (a : nat) (w : World)
  (c : jsstring) (r : LookupResponse) (w2 : World) :
  (targetLength < f)%nat -> (targetLength < g)%nat ->
  (a < maxAttempts)%nat ->
  attempt E g seed w = Some (c, r, w2) ->
  unique_loop E (S f) seed a w
  = if no_rows r then Some (c, w2) else unique_loop E f seed (S a) w2.
Proof.
  intros Hf Hg Ha Hatt.
  rewrite (attempt_fuel g f) in Hatt by assumption.
  unfold attempt in Hatt. cbn [unique_loop].
  replace (a <? maxAttempts)%nat with true by (symmetry; apply Nat.ltb_lt; lia).
  destruct (generateShortCode E f seed w) as [[c1 w1]|]; [|discriminate].
  unfold select_event in *.
  injection Hatt as <- <- <-. reflexivity.
Qed.

Lemma unique_loop_exhausted (f : nat) (seed : option jsstring) (a : nat) (w : World) :
  (maxAttempts <= a)%nat ->
  unique_loop E (S f) seed a w = generateShortCode E f None w.
Proof.
  intros Ha. cbn [unique_loop].
  replace (a <? maxAttempts)%nat with false by (symmetry; apply Nat.ltb_ge; lia).
  reflexivity.
Qed.

Lemma nth_attempt_0 (g : nat) (seed : option jsstring) (w : World) :
  nth_attempt E g seed 0 w = attempt E g seed w.
Proof. reflexivity. Qed.

Lemma nth_attempt_S (g : nat) (seed : option jsstring) (k : nat) (w : World)
  (c : jsstring) (r : LookupResponse) (w2 : World) :
  attempt E g seed w = Some (c, r, w2) ->
  nth_attempt E g seed (S k) w = nth_attempt E g seed k w2.
Proof. intros H. unfold nth_attempt. simpl. now rewrite H. Qed.

(** When the first [j] attempts all fail, the loop is at its turn [a + j],
    in the world those attempts left, having issued [j] lookups. *)
Lemma unique_loop_skip (g : nat) (seed : option jsstring) (j : nat) :
  (targetLength < g)%nat ->
  forall a f w,
    (a + j <= maxAttempts)%nat -> (targetLength < f)%nat ->
    all_fail E g seed j w ->
    exists wj codes,
      after_attempts E g seed j w = Some wj
      /\ unique_loop E (j + f) seed a w = unique_loop E f seed (a + j) wj
      /\ calls wj = calls w ++ map SelectEventByShortCode codes
      /\ length codes = j.
Proof.
  intros Hg. induction j as [|j IH]; intros a f w Ha Hf Hfail.
  - exists w, []. simpl. rewrite Nat.add_0_r, app_nil_r. auto.
  - destruct (attempt_total g seed w Hg) as (c & r & w2 & Hatt & Hcalls & _).
    assert (Hr : no_rows r = false).
    { apply (Hfail 0%nat c r w2); [lia|]. now rewrite nth_attempt_0. }
    destruct (IH (S a) f w2) as (wj & codes & Hafter & Hloop & Hc & Hlen).
    + lia.
    + assumption.
    + intros k c' r' w' Hk Hnth. apply (Hfail (S k) c' r' w'); [lia|].
      now rewrite (nth_attempt_S g seed k w c r w2 Hatt).
    + exists wj, (c :: codes). cbn [after_attempts map length]. rewrite Hatt.
      split; [assumption|]. split.
      * change (S j + f)%nat with (S (j + f)).
        rewrite (unique_loop_step (j + f) g seed a w c r w2) by (assumption || lia).
        rewrite Hr, Hloop. f_equal. lia.
      * split; [|lia]. rewrite Hc, Hcalls, <- app_assoc. reflexivity.
Qed.

(** Whatever the lookups answer, the loop ends after at most as many
    lookups as there are turns left. *)
Lemma unique_loop_total (seed : option jsstring) (n : nat) :
  forall a f w,
    (a + n = maxAttempts)%nat -> (targetLength < f)%nat ->
    exists code w' codes,
      unique_loop E (S n + f) seed a w = Some (code, w')
      /\ calls w' = calls w ++ map SelectEventByShortCode codes
      /\ (length codes <= n)%nat.
Proof.
  induction n as [|n IH]; intros a f w Ha Hf.
  - simpl Nat.add. rewrite unique_loop_exhausted by lia.
    rewrite generateShortCode_spec by assumption. cbv zeta.
    eexists _, _, []. split; [reflexivity|]. simpl. rewrite app_nil_r. auto.
  - destruct (attempt_total f seed w Hf) as (c & r & w2 & Hatt & Hcalls & _).
    change (S (S n) + f)%nat with (S (S n + f)).
    rewrite (unique_loop_step (S n + f) f seed a w c r w2) by (assumption || lia).
    destruct (no_rows r).
    + exists c, w2, [c]. simpl. split; [reflexivity|]. split; [assumption|lia].
    + destruct (IH (S a) f w2) as (code & w' & codes & Hloop & Hc & Hlen);
        [lia|assumption|].
      exists code, w', (c :: codes). split; [assumption|]. split.
      * rewrite Hc, Hcalls, <- app_assoc. reflexivity.
      * simpl. lia.
Qed.

(** The test [error && error.code === 'PGRST116']. *)
Lemma no_rows_PGRST116 (r : LookupResponse) :
  no_rows r = true
  <-> exists e, lookup_error r = Some e /\ code e = js "PGRST116".
Proof.
  unfold no_rows. destruct (lookup_error r) as [e|].
  - rewrite str_eqb_eq. split.
    + intros H; exists e; auto.
    + intros (e' & He & Hcode). injection He as ->. assumption.
  - split; [discriminate|]. intros (e & He & _). discriminate.
Qed.

Lemma all_fail_PGRST116 (g : nat) (seed : option jsstring) (j : nat) (w : World) :
  (forall k c r w',
      (k < j)%nat -> nth_attempt E g seed k w = Some (c, r, w') ->
      ~ exists e, lookup_error r = Some e /\ code e = js "PGRST116") ->
  all_fail E g seed j w.
Proof.
  intros H k c r w' Hk Hn.
  destruct (no_rows r) eqn:Hr; [|reflexivity].
  exfalso. apply (H k c r w' Hk Hn). apply no_rows_PGRST116. exact Hr.
Qed.

(** C1.  Whatever the seed and whatever the lookups answer,
    [generateUniqueShortCode] returns a code after at most 10 lookups.  A
    lookup reports "no rows" when it yields an error whose code is
    PGRST116.  If the [N]-th attempt ([N <= 10]) is the first whose lookup
    reports "no rows" -- every earlier lookup found a row, yielded no error,
    or failed with another error code -- exactly [N] lookups are issued and
    the code generated on that attempt is returned in the world right after
    its lookup.  If none of the 10 attempts reports "no rows", 10 lookups
    are issued and the result is one more [generateShortCode] with no seed:
    7 alphabet characters, for which no call is issued. *)
Theorem generateUniqueShortCode_bounded_retry (fuel g : nat)
  (seed : option jsstring) (w : World) :
  (maxAttempts + targetLength + 1 < fuel)%nat ->
  (targetLength < g)%nat ->
  (exists code w' codes,
      generateUniqueShortCode E fuel seed w = Some (code, w')
      /\ calls w' = calls w ++ map SelectEventByShortCode codes
      /\ (length codes <= 10)%nat)
  /\ (forall N c r wN,
        (1 <= N <= 10)%nat ->
        (forall k c' r' w',
            (k < N - 1)%nat ->
            nth_attempt E g seed k w = Some (c', r', w') ->
            ~ exists e, lookup_error r' = Some e /\ code e = js "PGRST116") ->
        nth_attempt E g seed (N - 1) w = Some (c, r, wN) ->
        (exists e, lookup_error r = Some e /\ code e = js "PGRST116") ->
        generateUniqueShortCode E fuel seed w = Some (c, wN)
        /\ exists codes,
            calls wN = calls w ++ map SelectEventByShortCode (codes ++ [c])
            /\ length (codes ++ [c]) = N
            /\ r = events_single E
                     (calls w ++ map SelectEventByShortCode codes) c)
  /\ ((forall k c' r' w',
          (k < 10)%nat ->
          nth_attempt E g seed k w = Some (c', r', w') ->
          ~ exists e, lookup_error r' = Some e /\ code e = js "PGRST116") ->
      exists w10 codes code,
        after_attempts E g seed 10 w = Some w10
        /\ calls w10 = calls w ++ map SelectEventByShortCode codes
        /\ length codes = 10%nat
        /\ generateUniqueShortCode E fuel seed w = generateShortCode E g None w10
        /\ generateShortCode E g None w10 = Some (code, advance 7 w10)
        /\ length code = 7%nat
        /\ Forall (fun x => In x (js "23456789abcdefghjkmnpqrstuvwxyz")) code
        /\ calls (advance 7 w10) = calls w10).
Proof.
  intros Hfuel Hg. unfold maxAttempts, targetLength in Hfuel.
  unfold generateUniqueShortCode.
  split; [|split].
  - replace fuel with (S 10 + (fuel - 11))%nat by lia.
    apply (unique_loop_total seed 10 0 (fuel - 11) w);
      unfold maxAttempts, targetLength; lia.
  - intros N c r wN HN Hfail Hnth Hr.
    apply all_fail_PGRST116 in Hfail. apply no_rows_PGRST116 in Hr.
    destruct (unique_loop_skip g seed (N - 1) Hg 0 (fuel - (N - 1)) w)
      as (wj & codes & Hafter & Hloop & Hc & Hlen);
      [unfold maxAttempts; lia | unfold targetLength; lia | assumption |].
    replace (N - 1 + (fuel - (N - 1)))%nat with fuel in Hloop by lia.
    unfold nth_attempt in Hnth. rewrite Hafter in Hnth.
    destruct (attempt_total g seed wj Hg)
      as (c' & r' & w2 & Hatt & Hcalls & Hans).
    rewrite Hatt in Hnth. injection Hnth as -> -> ->.
    split.
    + rewrite Hloop. replace (fuel - (N - 1))%nat with (S (fuel - N)) by lia.
      rewrite (unique_loop_step (fuel - N) g seed (0 + (N - 1)) wj c r wN)
        by (assumption || unfold maxAttempts, targetLength; lia).
      now rewrite Hr.
    + exists codes. split; [|split].
      * rewrite Hcalls, Hc, map_app, <- app_assoc. reflexivity.
      * rewrite length_app. simpl. lia.
      * rewrite <- Hc. exact Hans.
  - intros Hfail. apply all_fail_PGRST116 in Hfail.
    destruct (unique_loop_skip g seed 10 Hg 0 (fuel - 10) w)
      as (w10 & codes & Hafter & Hloop & Hc & Hlen);
      [unfold maxAttempts; lia | unfold targetLength; lia | assumption |].
    replace (10 + (fuel - 10))%nat with fuel in Hloop by lia.
    destruct (generateShortCode_no_seed E random_range g w10 Hg)
      as (code & Hgen & Hl & Hall).
    exists w10, codes, code. repeat (split; [assumption|]).
    split; [|split; [|split; [|split]]].
    + rewrite Hloop. replace (fuel - 10)%nat with (S (fuel - 11)) by lia.
      rewrite unique_loop_exhausted by (unfold maxAttempts; lia).
      apply generateShortCode_fuel; [unfold targetLength; lia | assumption].
    + exact Hgen.
    + exact Hl.
    + exact Hall.
    + reflexivity.
Qed.

(** C4.  A turn of the retry loop returns its code if and only if the
    lookup yields an error whose code is PGRST116; with any other answer
    (a row found, no error at all, or an error with another code) the loop
    goes on to the next turn with one more attempt counted. *)
Theorem lookup_accepted_iff_no_rows (fuel : nat) (seed : option jsstring)
  (attempts : nat) (w : World) :
  (targetLength < fuel)%nat ->
  (attempts < maxAttempts)%nat ->
  exists c r w2,
    attempt E fuel seed w = Some (c, r, w2)
    /\ r = events_single E (calls w) c
    /\ ((exists e, lookup_error r = Some e /\ code e = js "PGRST116") ->
        unique_loop E (S fuel) seed attempts w = Some (c, w2))
    /\ (~ (exists e, lookup_error r = Some e /\ code e = js "PGRST116") ->
        unique_loop E (S fuel) seed attempts w
        = unique_loop E fuel seed (S attempts) w2).
Proof.
  intros Hfuel Ha.
  destruct (attempt_total fuel seed w Hfuel)
    as (c & r & w2 & Hatt & _ & Hr).
  exists c, r, w2. split; [assumption|]. split; [assumption|].
  rewrite (unique_loop_step fuel fuel seed attempts w c r w2)
    by assumption.
  assert (Hiff : no_rows r = true
                 <-> exists e, lookup_error r = Some e /\ code e = js "PGRST116").
  { unfold no_rows. destruct (lookup_error r) as [e|].
    - rewrite str_eqb_eq. split.
      + intros H; exists e; auto.
      + intros (e' & He & Hcode). injection He as ->. assumption.
    - split; [discriminate|]. intros (e & He & _). discriminate. }
  split.
  - intros H. apply Hiff in H. now rewrite H.
  - intros H. destruct (no_rows r); [|reflexivity].
    exfalso. apply H, Hiff. reflexivity.
Qed.

End RetryLoop.

(** Against a backend that alternates between "row found" and a network
    error, ten lookups are spent and the eleventh code, generated without
    the seed, is returned unverified. *)
Lemma generateUniqueShortCode_offline_fallback :
  exists w',
    generateUniqueShortCode browser_offline 19 (Some (js "lion")) fresh_world
    = Some (js "bcdefgh", w')
    /\ length (calls w') = 10%nat.
Proof. eexists. split; [vm_compute; reflexivity | reflexivity]. Qed.

(* ================================================================= *)
(** ** Shareable URLs *)

Lemma take_while_all (p : N -> bool) (s : jsstring) :
  Forall (fun c => p c = true) s -> take_while p s = s.
Proof.
  induction 1 as [|c s Hc _ IH]; simpl; [reflexivity|].
  now rewrite Hc, IH.
Qed.

(** Whether the pattern matches at a position inside the base is decided
    by the base and the path segment alone. *)
Lemma matches_here_base (c : N) (b rest : jsstring) :
  matches_here ((c :: b) ++ js "/e/" ++ rest) = matches_here ((c :: b) ++ js "/e/").
Proof.
  change (js "/e/") with [47; 101; 47]%N.
  destruct b as [|b1 [|b2 [|b3 b]]]; reflexivity.
Qed.

(** If the pattern matches nowhere in the base followed by the path
    segment, the search reaches the path segment. *)
Lemma extract_skips_base (base rest : jsstring) :
  extractShortCodeFromURL (base ++ js "/e/") = None ->
  extractShortCodeFromURL (base ++ js "/e/" ++ rest)
  = extractShortCodeFromURL (js "/e/" ++ rest).
Proof.
  induction base as [|c b IH]; intros Hnone; [reflexivity|].
  change (extractShortCodeFromURL ((c :: b) ++ js "/e/" ++ rest))
    with (if matches_here ((c :: b) ++ js "/e/" ++ rest)
          then Some (take_while is_alnum_ci (skipn 3 ((c :: b) ++ js "/e/" ++ rest)))
          else extractShortCodeFromURL (b ++ js "/e/" ++ rest)).
  change (extractShortCodeFromURL ((c :: b) ++ js "/e/"))
    with (if matches_here ((c :: b) ++ js "/e/")
          then Some (take_while is_alnum_ci (skipn 3 ((c :: b) ++ js "/e/")))
          else extractShortCodeFromURL (b ++ js "/e/")) in Hnone.
  rewrite matches_here_base.
  destruct (matches_here ((c :: b) ++ js "/e/")); [discriminate|].
  apply IH, Hnone.
Qed.

Lemma extract_at_segment (code : jsstring) :
  code <> [] ->
  Forall (fun c => is_alnum_ci c = true) code ->
  extractShortCodeFromURL (js "/e/" ++ code) = Some code.
Proof.
  intros Hne Hall. destruct code as [|c code]; [congruence|].
  change (js "/e/" ++ c :: code) with (47 :: 101 :: 47 :: c :: code)%N.
  cbn [extractShortCodeFromURL matches_here skipn].
  inversion Hall as [|? ? Hc Hrest]; subst.
  rewrite Hc. cbn.
  now rewrite Hc, (take_while_all is_alnum_ci code Hrest).
Qed.

(** No match starts inside a string without a slash. *)
Lemma extract_no_slash (s tail : jsstring) :
  ~ In 47%N s ->
  extractShortCodeFromURL (s ++ tail) = extractShortCodeFromURL tail.
Proof.
  induction s as [|c s IH]; intros Hno; [reflexivity|].
  assert (Hc : (c =? 47)%N = false).
  { apply N.eqb_neq. intros ->. apply Hno. now left. }
  change (extractShortCodeFromURL ((c :: s) ++ tail))
    with (if matches_here (c :: s ++ tail)
          then Some (take_while is_alnum_ci (skipn 3 (c :: s ++ tail)))
          else extractShortCodeFromURL (s ++ tail)).
  replace (matches_here (c :: s ++ tail)) with false.
  - apply IH. intros H. apply Hno. now right.
  - unfold matches_here. destruct (s ++ tail) as [|x1 [|x2 [|x3 l]]]; try reflexivity.
    now rewrite Hc.
Qed.

(** An origin [scheme://host[:port]] is free of matches unless its host
    (with no port) is the single letter [e]. *)
Lemma origin_free_of_matches (scheme hostport : jsstring) :
  ~ In 47%N scheme -> ~ In 47%N hostport ->
  hostport <> js "e" -> hostport <> js "E" ->
  extractShortCodeFromURL ((scheme ++ js "://" ++ hostport) ++ js "/e/") = None.
Proof.
  intros Hs Hh He HE.
  rewrite <- !app_assoc. rewrite (extract_no_slash scheme _ Hs).
  change (js "://" ++ hostport ++ js "/e/")
    with (58 :: 47 :: 47 :: hostport ++ js "/e/")%N.
  assert (Htail : extractShortCodeFromURL (hostport ++ js "/e/") = None).
  { rewrite (extract_no_slash hostport _ Hh). reflexivity. }
  change (js "/e/") with [47; 101; 47]%N in *.
  cbn [extractShortCodeFromURL].
  replace (matches_here (58 :: 47 :: 47 :: hostport ++ [47; 101; 47])%N) with false
    by (destruct hostport; reflexivity).
  replace (matches_here (47 :: 47 :: hostport ++ [47; 101; 47])%N) with false
    by (destruct hostport as [|? [|? ?]]; reflexivity).
  replace (matches_here (47 :: hostport ++ [47; 101; 47])%N) with false.
  - destruct hostport; exact Htail.
  - destruct hostport as [|h1 [|h2 l]].
    + reflexivity.
    + cbn [matches_here app]. destruct (h1 =? 101)%N eqn:H1.
      { apply N.eqb_eq in H1. subst. exfalso. apply He. reflexivity. }
      destruct (h1 =? 69)%N eqn:H2; [|reflexivity].
      apply N.eqb_eq in H2. subst. exfalso. apply HE. reflexivity.
    + assert (H2 : (h2 =? 47)%N = false).
      { apply N.eqb_neq. intros ->. apply Hh. right. now left. }
      destruct l; cbn [matches_here app]; rewrite H2;
        now rewrite andb_false_r.
Qed.

Section ShareableURL.

Variable E : Env.

(** Where the round trip does hold.  For every non-empty code made of
    alphabet characters, extracting the code from the URL built for it with
    no base override gives back the code, provided the pattern matches
    nowhere in the base in use followed by the path segment, that is, the
    base neither ends in "/e" nor contains "/e/" followed by a letter or
    digit.  This is so when there is no [window] (the hard-coded fallback
    origin), and for every origin [scheme://host[:port]] whose
    host-and-port part is not the single letter [e]. *)
Theorem shareable_url_round_trip (shortCode : jsstring) :
  shortCode <> [] ->
  Forall (fun c => In c characters) shortCode ->
  (extractShortCodeFromURL (base_of E None ++ js "/e/") = None ->
   extractShortCodeFromURL (createShareableEventURL E shortCode None)
   = Some shortCode)
  /\ (window_location_origin E = None ->
      extractShortCodeFromURL (createShareableEventURL E shortCode None)
      = Some shortCode)
  /\ (forall scheme hostport,
        window_location_origin E = Some (scheme ++ js "://" ++ hostport) ->
        ~ In 47%N scheme -> ~ In 47%N hostport ->
        hostport <> js "e" -> hostport <> js "E" ->
        extractShortCodeFromURL (createShareableEventURL E shortCode None)
        = Some shortCode).
Proof.
  intros Hne Hall.
  assert (Hmain : extractShortCodeFromURL (base_of E None ++ js "/e/") = None ->
                  extractShortCodeFromURL (createShareableEventURL E shortCode None)
                  = Some shortCode).
  { intros Hclear. unfold createShareableEventURL.
    rewrite (extract_skips_base _ _ Hclear).
    apply extract_at_segment; [assumption|].
    eapply Forall_impl; [|exact Hall].
    intros c Hc. apply lower_alnum_is_alnum_ci, characters_lower_alnum, Hc. }
  split; [exact Hmain|]. split.
  - intros Hwin. apply Hmain. unfold base_of. rewrite Hwin. reflexivity.
  - intros scheme hostport Hwin Hs Hh He HE. apply Hmain.
    unfold base_of. rewrite Hwin. now apply origin_free_of_matches.
Qed.

End ShareableURL.

(** Rendered on the server, the URL uses the hard-coded origin. *)
Lemma shareable_url_on_server :
  createShareableEventURL server (js "abc2345") None
  = js "https://polkarena.montaq.org/e/abc2345"
  /\ extractShortCodeFromURL (js "https://polkarena.montaq.org/e/abc2345")
     = Some (js "abc2345").
Proof. split; reflexivity. Qed.

(** C7.  [extractShortCodeFromURL] is meant to extract the short code from
    a shareable URL, so that extracting from the URL built by
    [createShareableEventURL] for a code gives back that code.  It does not
    when the page is served from the host [e]: for the alphabet-only code
    ["abc2345"] and no base override the URL built is
    ["http://e/e/abc2345"], the leftmost match of the unanchored pattern is
    ["/e/e"], and the code extracted is ["e"], not ["abc2345"]. *)
Lemma shareable_url_host_e :
  Forall (fun c => In c characters) (js "abc2345")
  /\ createShareableEventURL intranet (js "abc2345") None = js "http://e/e/abc2345"
  /\ extractShortCodeFromURL (createShareableEventURL intranet (js "abc2345") None)
     = Some (js "e")
  /\ extractShortCodeFromURL (createShareableEventURL intranet (js "abc2345") None)
     <> Some (js "abc2345").
Proof.
  split.
  - apply Forall_forall. intros c Hc.
    assert (H : forallb (fun c => existsb (N.eqb c) characters) (js "abc2345") = true)
      by reflexivity.
    rewrite forallb_forall in H. specialize (H c Hc).
    apply existsb_exists in H as (x & Hx & Heq). apply N.eqb_eq in Heq. now subst.
  - split; [reflexivity|]. split; [reflexivity|]. discriminate.
Qed.

(* ================================================================= *)
(** ** Durations *)

Section Durations.

Variable E : Env.

(** The rendering in terms of the integer arithmetic of the model, which is
    the code's for spans of at most 2^53 milliseconds. *)
Lemma formatEventDuration_valid (startTime endTime : jsstring) (ts te : Z) :
  Date_parse E startTime = Int ts ->
  Date_parse E endTime = Int te ->
  formatEventDuration E startTime endTime
  = (let total := ((te - ts) / 60000)%Z in
     let hours := (total / 60)%Z in
     let minutes := Z.rem total 60 in
     if (hours =? 0)%Z then counted minutes (js "minute")
     else if (minutes =? 0)%Z then counted hours (js "hour")
     else counted hours (js "hour") ++ js " " ++ counted minutes (js "minute")).
Proof.
  intros Hs He. unfold formatEventDuration, getTime. rewrite Hs, He.
  cbn [num_sub num_floor_div num_rem num_is number_to_js]. cbv zeta.
  change (1000 * 60)%Z with 60000%Z.
  unfold counted, plural. cbn [num_is].
  destruct (_ / 60 =? 0)%Z; [|destruct (Z.rem _ 60 =? 0)%Z].
  - destruct (Z.rem _ 60 =? 1)%Z; reflexivity.
  - destruct (_ / 60 =? 1)%Z; reflexivity.
  - destruct (_ / 60 =? 1)%Z; destruct (Z.rem _ 60 =? 1)%Z;
      cbn [negb]; rewrite <- ?app_assoc; reflexivity.
Qed.

(** C8.  For valid start and end times no more than 2^53 milliseconds
    apart (the span within which the code's double arithmetic is exact),
    [formatEventDuration] takes the floor of the difference in whole
    minutes, splits it into hours and remaining minutes, and renders only
    the minutes when the hours are zero, only the hours when the minutes
    are zero, and otherwise hours then minutes, each with its singular or
    plural word.  For an end not before the start the two parts recompose
    the total and the minutes lie in [0, 60).  A span of 90 minutes renders
    "1 hour 30 minutes", 60 minutes "1 hour", 45 minutes "45 minutes", 61
    minutes "1 hour 1 minute", and 1 minute "1 minute". *)
Theorem formatEventDuration_render (startTime endTime : jsstring) (ts te : Z) :
  Date_parse E startTime = Int ts ->
  Date_parse E endTime = Int te ->
  (Z.abs (te - ts) <= 2 ^ 53)%Z ->
  let total := ((te - ts) / 60000)%Z in
  let hours := (total / 60)%Z in
  let minutes := Z.rem total 60 in
  formatEventDuration E startTime endTime
  = (if (hours =? 0)%Z then counted minutes (js "minute")
     else if (minutes =? 0)%Z then counted hours (js "hour")
     else counted hours (js "hour") ++ js " " ++ counted minutes (js "minute"))
  /\ ((ts <= te)%Z ->
      (60000 * total <= te - ts < 60000 * (total + 1))%Z
      /\ (total = 60 * hours + minutes)%Z /\ (0 <= minutes < 60)%Z)
  /\ ((te - ts = 90 * 60000)%Z ->
      formatEventDuration E startTime endTime = js "1 hour 30 minutes")
  /\ ((te - ts = 60 * 60000)%Z ->
      formatEventDuration E startTime endTime = js "1 hour")
  /\ ((te - ts = 45 * 60000)%Z ->
      formatEventDuration E startTime endTime = js "45 minutes")
  /\ ((te - ts = 61 * 60000)%Z ->
      formatEventDuration E startTime endTime = js "1 hour 1 minute")
  /\ ((te - ts = 1 * 60000)%Z ->
      formatEventDuration E startTime endTime = js "1 minute").
Proof.
  intros Hs He _ total hours minutes.
  pose proof (formatEventDuration_valid startTime endTime ts te Hs He) as Hfmt.
  cbv zeta in Hfmt.
  split; [exact Hfmt|]. split.
  - intros Hle. subst total hours minutes.
    assert (H0 : (0 <= (te - ts) / 60000)%Z) by (apply Z.div_pos; lia).
    pose proof (Z.mul_div_le (te - ts) 60000 ltac:(lia)).
    pose proof (Z.mul_succ_div_gt (te - ts) 60000 ltac:(lia)).
    rewrite Z.rem_mod_nonneg by lia.
    pose proof (Z.mod_pos_bound ((te - ts) / 60000) 60 ltac:(lia)).
    pose proof (Z.div_mod ((te - ts) / 60000) 60 ltac:(lia)).
    lia.
  - repeat split; intros Hd; rewrite Hfmt, Hd; reflexivity.
Qed.

(** An invalid date on either side renders as "NaN hours NaN minutes". *)
Lemma formatEventDuration_invalid (startTime endTime : jsstring) :
  Date_parse E startTime = NaN \/ Date_parse E endTime = NaN ->
  formatEventDuration E startTime endTime = js "NaN hours NaN minutes".
Proof.
  unfold formatEventDuration, getTime.
  intros [H|H]; rewrite H; [destruct (Date_parse E endTime)|]; reflexivity.
Qed.

End Durations.

(** An end before the start is not guarded: the hours are floored and the
    minutes keep the sign of the total. *)
Lemma formatEventDuration_negative :
  formatEventDuration browser (js "2030-01-01T11:30") (js "2030-01-01T10:00")
  = js "-2 hours -30 minutes".
Proof. reflexivity. Qed.

(* ================================================================= *)
(** ** The submit handler *)

Section SubmitHandler.

Variable E : Env.

Ltac run_block :=
  unfold toISOString, select_user, insert_event, router_push, toast_error,
    toast_success, setSaving, early_return; cbn beta iota;
  unfold bind, ret, throw; cbn beta iota.

(** A form that fails a local check is rejected with the notice of the
    first failing check and nothing else: no call, no draw, no navigation. *)
Lemma handleSubmit_rejects_with (fuel : nat) (c : Component) (u : User)
  (w : World) (msg : jsstring) :
  user c = Some u ->
  validation_message E (formData c) = Some msg ->
  handleSubmit E fuel c w = Some (rejected_with msg w).
Proof.
  intros Hu Hval. unfold handleSubmit. rewrite Hu.
  unfold validation_message in Hval.
  unfold try_catch_finally, submit_body, check_deadline. cbv zeta.
  destruct (falsy (name (formData c)) || falsy (description (formData c))
            || falsy (start_time (formData c)) || falsy (end_time (formData c))).
  { injection Hval as <-. run_block. reflexivity. }
  destruct (Date_parse E (start_time (formData c))) as [|s];
    [injection Hval as <-; run_block; reflexivity|].
  destruct (Date_parse E (end_time (formData c))) as [|e];
    [injection Hval as <-; run_block; reflexivity|].
  run_block. cbn [isNaN orb num_lt num_le].
  destruct (s <? Date_now E)%Z; [injection Hval as <-; reflexivity|].
  destruct (e <=? s)%Z; [injection Hval as <-; reflexivity|].
  destruct (truthy (registration_deadline (formData c))); [|discriminate].
  destruct (Date_parse E (registration_deadline (formData c))) as [|d];
    cbn [isNaN num_lt num_le]; [injection Hval as <-; reflexivity|].
  destruct (s <=? d)%Z; [injection Hval as <-; reflexivity|].
  destruct (d <? Date_now E)%Z; [injection Hval as <-; reflexivity|discriminate].
Qed.

(** The form passes the checks exactly when no notice is due. *)
Lemma passes_validation_message (f : FormData) :
  passes_validation E f = true <-> validation_message E f = None.
Proof.
  unfold passes_validation, validation_message, truthy.
  destruct (falsy (name f)), (falsy (description f)), (falsy (start_time f)),
    (falsy (end_time f)); cbn [negb orb andb]; try (split; discriminate).
  destruct (Date_parse E (start_time f)) as [|s]; [split; discriminate|].
  destruct (Date_parse E (end_time f)) as [|e]; [split; discriminate|].
  rewrite (Z.leb_antisym s (Date_now E)), (Z.ltb_antisym e s).
  destruct (s <? Date_now E)%Z; cbn [negb andb]; [split; discriminate|].
  destruct (e <=? s)%Z; cbn [negb andb]; [split; discriminate|].
  destruct (falsy (registration_deadline f)); cbn [negb]; [tauto|].
  destruct (Date_parse E (registration_deadline f)) as [|d]; [split; discriminate|].
  rewrite (Z.ltb_antisym s d), (Z.leb_antisym d (Date_now E)).
  destruct (s <=? d)%Z; cbn [negb andb]; [split; discriminate|].
  destruct (d <? Date_now E)%Z; cbn [negb andb]; [split; discriminate|tauto].
Qed.

Lemma handleSubmit_rejects (fuel : nat) (c : Component) (u : User) (w : World) :
  user c = Some u ->
  passes_validation E (formData c) = false ->
  exists msg, handleSubmit E fuel c w = Some (rejected_with msg w).
Proof.
  intros Hu Hval.
  destruct (validation_message E (formData c)) as [msg|] eqn:Hmsg.
  - exists msg. now apply (handleSubmit_rejects_with fuel c u w msg).
  - apply passes_validation_message in Hmsg. congruence.
Qed.

(** Without a signed-in user the handler does nothing at all. *)
Lemma handleSubmit_no_user (fuel : nat) (c : Component) (w : World) :
  user c = None -> handleSubmit E fuel c w = Some w.
Proof. intros Hu. unfold handleSubmit. now rewrite Hu. Qed.

(** The statements after the checks: the profile lookup, the short code,
    the insert, and how the block completes. *)
Lemma submit_valid_run (fuel : nat) (c : Component) (u : User) (s e : Z)
  (dl : option Z) (w : World) :
  submit_valid E fuel c u (Int s) (Int e) (option_map Int dl) w
  = match generateUniqueShortCode E fuel (Some (name (formData c)))
            (issue (SelectUserName (user_id u)) w) with
    | None => None
    | Some (shortCode, w1) =>
        let d := eventData E c u (Date_toISOString E s) (Date_toISOString E e)
                   (option_map (Date_toISOString E) dl)
                   (tagsArray_of (formData c))
                   (users_single E (calls w) (user_id u)) shortCode in
        let r := events_insert E (calls w1) d in
        let w2 := issue (InsertEvent d) w1 in
        match insert_error r with
        | Some err =>
            Some (Returned,
                  set_saving false
                    (notify (ToastError (js "Failed to create event: " ++ message err)) w2))
        | None =>
            let w3 := notify (ToastSuccess (js "Event created successfully!")) w2 in
            match insert_data r with
            | Some new_id => Some (Normal tt, push_route (js "/events/" ++ new_id) w3)
            | None => Some (Thrown, w3)
            end
        end
    end.
Proof.
  unfold submit_valid, await_generateUniqueShortCode. cbv zeta. run_block.
  destruct (generateUniqueShortCode E fuel (Some (name (formData c)))
              (issue (SelectUserName (user_id u)) w))
    as [[shortCode w1]|]; [|reflexivity].
  destruct dl as [d|]; cbn [option_map]; run_block;
    (match goal with
     | |- context [insert_error ?r] => destruct (insert_error r) as [err|]
     end; [reflexivity|]);
    (match goal with
     | |- context [insert_data ?r] => destruct (insert_data r) as [new_id|]
     end; reflexivity).
Qed.

(** A form that passes the local checks: the profile lookup, the short
    code, then the insert and what follows it. *)
Lemma handleSubmit_accepts (fuel : nat) (c : Component) (u : User) (w : World) :
  user c = Some u ->
  passes_validation E (formData c) = true ->
  handleSubmit E fuel c w
  = match generateUniqueShortCode E fuel (Some (name (formData c)))
            (issue (SelectUserName (user_id u)) (set_saving true w)) with
    | None => None
    | Some (shortCode, w1) =>
        Some (conclude E c u (users_single E (calls w) (user_id u)) shortCode w1)
    end.
Proof.
  intros Hu Hval. unfold handleSubmit. rewrite Hu.
  unfold passes_validation in Hval.
  unfold try_catch_finally, submit_body, check_deadline. cbv zeta.
  unfold conclude, payload, deadline_iso. cbv zeta.
  unfold truthy in *.
  destruct (falsy (name (formData c))); cbn [negb orb andb] in *;
    [discriminate|].
  destruct (falsy (description (formData c))); cbn [negb orb andb] in *;
    [discriminate|].
  destruct (falsy (start_time (formData c))); cbn [negb orb andb] in *;
    [discriminate|].
  destruct (falsy (end_time (formData c))); cbn [negb orb andb] in *;
    [discriminate|].
  destruct (Date_parse E (start_time (formData c))) as [|s]; [discriminate|].
  destruct (Date_parse E (end_time (formData c))) as [|e]; [discriminate|].
  run_block. cbn [isNaN orb num_lt num_le].
  rewrite (Z.leb_antisym s (Date_now E)) in Hval.
  destruct (s <? Date_now E)%Z; cbn [negb andb] in Hval; [discriminate|].
  rewrite (Z.ltb_antisym e s) in Hval.
  destruct (e <=? s)%Z; cbn [negb andb] in Hval; [discriminate|].
  destruct (falsy (registration_deadline (formData c))); cbn [negb] in *.
  - pose proof (submit_valid_run fuel c u s e None) as Hrun.
    cbn [option_map] in Hrun. rewrite Hrun. cbv zeta.
    cbn [calls set_saving].
    destruct (generateUniqueShortCode E fuel (Some (name (formData c)))
                (issue (SelectUserName (user_id u)) (set_saving true w)))
      as [[shortCode w1]|]; [|reflexivity].
    match goal with
    | |- context [insert_error ?r] => destruct (insert_error r) as [err|]
    end; [reflexivity|].
    match goal with
    | |- context [insert_data ?r] => destruct (insert_data r) as [new_id|]
    end; reflexivity.
  - destruct (Date_parse E (registration_deadline (formData c))) as [|d];
      [discriminate|].
    cbn [isNaN num_lt num_le].
    rewrite (Z.ltb_antisym s d), (Z.leb_antisym d (Date_now E)) in Hval.
    destruct (s <=? d)%Z; cbn [negb andb] in Hval; [discriminate|].
    destruct (d <? Date_now E)%Z; cbn [negb andb] in Hval; [discriminate|].
    pose proof (submit_valid_run fuel c u s e (Some d)) as Hrun.
    cbn [option_map] in Hrun. rewrite Hrun. cbv zeta. cbn [option_map].
    cbn [calls set_saving].
    destruct (generateUniqueShortCode E fuel (Some (name (formData c)))
                (issue (SelectUserName (user_id u)) (set_saving true w)))
      as [[shortCode w1]|]; [|reflexivity].
    match goal with
    | |- context [insert_error ?r] => destruct (insert_error r) as [err|]
    end; [reflexivity|].
    match goal with
    | |- context [insert_data ?r] => destruct (insert_data r) as [new_id|]
    end; reflexivity.
Qed.

(** Generating a code draws random numbers and does nothing else. *)
Lemma fill_frame (fuel : nat) :
  forall result w c w',
    fill E fuel result w = Some (c, w') ->
    calls w' = calls w /\ toasts w' = toasts w /\ saving w' = saving w
    /\ route w' = route w.
Proof.
  induction fuel as [|fuel IH]; intros result w c w' H; [discriminate|].
  cbn [fill] in H.
  destruct (length result <? targetLength)%nat.
  - apply IH in H. exact H.
  - injection H as _ <-. auto.
Qed.

(** The retry loop issues short-code lookups and nothing else. *)
Lemma unique_loop_frame (fuel : nat) :
  forall seed a w c w',
    unique_loop E fuel seed a w = Some (c, w') ->
    exists codes,
      calls w' = calls w ++ map SelectEventByShortCode codes
      /\ toasts w' = toasts w /\ saving w' = saving w /\ route w' = route w.
Proof.
  induction fuel as [|fuel IH]; intros seed a w c w' H; [discriminate|].
  cbn [unique_loop] in H.
  destruct (a <? maxAttempts)%nat.
  - unfold generateShortCode in H.
    destruct (fill E fuel (seed_prefix E seed) w) as [[sc w1]|] eqn:Hfill;
      [|discriminate].
    apply fill_frame in Hfill as (Hc & Ht & Hs & Hr).
    unfold select_event in H.
    destruct (no_rows (events_single E (calls w1) sc)).
    + injection H as _ <-. exists [sc]. cbn. rewrite Hc. auto.
    + apply IH in H as (codes & Hc2 & Ht2 & Hs2 & Hr2).
      exists (sc :: codes). cbn [map].
      rewrite Hc2, Ht2, Hs2, Hr2. cbn. rewrite Hc, <- app_assoc. auto.
  - unfold generateShortCode in H. apply fill_frame in H.
    exists []. cbn. rewrite app_nil_r. exact H.
Qed.

Lemma conclude_calls (c : Component) (u : User) (p : ProfileResponse)
  (shortCode : jsstring) (w : World) :
  calls (conclude E c u p shortCode w)
  = calls w ++ [InsertEvent (payload E c u p shortCode)].
Proof.
  unfold conclude. cbv zeta.
  destruct (insert_error _); [reflexivity|].
  destruct (insert_data _); reflexivity.
Qed.

(** The calls of a submission: none, or the profile lookup, the
    short-code lookups and one insert, in this order. *)
Lemma handleSubmit_trace (fuel : nat) (c : Component) (w w' : World) :
  handleSubmit E fuel c w = Some w' ->
  calls w' = calls w
  \/ exists u codes shortCode,
      user c = Some u
      /\ passes_validation E (formData c) = true
      /\ calls w'
         = calls w ++ SelectUserName (user_id u)
             :: map SelectEventByShortCode codes
             ++ [InsertEvent (payload E c u (users_single E (calls w) (user_id u))
                                shortCode)].
Proof.
  intros H. destruct (user c) as [u|] eqn:Hu.
  - destruct (passes_validation E (formData c)) eqn:Hval.
    + right. rewrite (handleSubmit_accepts fuel c u w Hu Hval) in H.
      destruct (generateUniqueShortCode E fuel (Some (name (formData c)))
                  (issue (SelectUserName (user_id u)) (set_saving true w)))
        as [[shortCode w1]|] eqn:Hgen; [|discriminate].
      injection H as <-.
      apply unique_loop_frame in Hgen as (codes & Hc & _).
      exists u, codes, shortCode. split; [reflexivity|]. split; [reflexivity|].
      rewrite conclude_calls, Hc. cbn [issue calls set_saving].
      rewrite <- !app_assoc. reflexivity.
    + left. destruct (handleSubmit_rejects fuel c u w Hu Hval) as [msg Hrej].
      rewrite Hrej in H. injection H as <-. reflexivity.
  - left. unfold handleSubmit in H. rewrite Hu in H. now injection H as <-.
Qed.

(** Every record a submission inserts is the payload of its form. *)
Lemma handleSubmit_inserted (fuel : nat) (c : Component) (w w' : World)
  (L : list Call) (d : EventData) :
  handleSubmit E fuel c w = Some w' ->
  calls w' = calls w ++ L ->
  In (InsertEvent d) L ->
  exists u p shortCode,
    user c = Some u /\ passes_validation E (formData c) = true
    /\ d = payload E c u p shortCode.
Proof.
  intros H HL Hin.
  destruct (handleSubmit_trace fuel c w w' H)
    as [Hsame | (u & codes & sc & Hu & Hval & Hcalls)].
  - rewrite HL in Hsame.
    assert (HLnil : L = []).
    { apply (app_inv_head (calls w)). now rewrite app_nil_r. }
    subst L. contradiction.
  - rewrite HL in Hcalls. apply app_inv_head in Hcalls. subst L.
    destruct Hin as [Hin|Hin]; [discriminate|].
    apply in_app_or in Hin as [Hin|Hin].
    + apply in_map_iff in Hin as (x & Hx & _). discriminate.
    + destruct Hin as [Hin|[]]. injection Hin as <-.
      exists u, (users_single E (calls w) (user_id u)), sc. auto.
Qed.

(** C5.  Every local validation failure ends the submission before any
    external call: the run issues no profile lookup, no short-code lookup
    and no insert, draws no random number, does not navigate, lowers the
    busy flag and shows exactly one error notice (with no signed-in user
    the handler returns at once, again without a call).  In particular this is
    so when the end time equals the start time, and when a registration
    deadline is present and equal to or after the start time; when the
    earlier checks pass, the notices are "End time must be after start
    time" and "Registration deadline must be before start time". *)
Theorem local_validation_precedes_network (fuel : nat) (c : Component)
  (u : User) (w : World) :
  user c = Some u ->
  let f := formData c in
  (passes_validation E f = false ->
   exists msg, handleSubmit E fuel c w = Some (rejected_with msg w))
  /\ (forall c', formData c' = f -> passes_validation E f = false ->
      exists w', handleSubmit E fuel c' w = Some w' /\ calls w' = calls w)
  /\ (Date_parse E (end_time f) = Date_parse E (start_time f) ->
      exists msg, handleSubmit E fuel c w = Some (rejected_with msg w))
  /\ (forall s d,
        registration_deadline f <> [] ->
        Date_parse E (start_time f) = Int s ->
        Date_parse E (registration_deadline f) = Int d ->
        (s <= d)%Z ->
        exists msg, handleSubmit E fuel c w = Some (rejected_with msg w))
  /\ (forall s,
        name f <> [] -> description f <> [] ->
        start_time f <> [] -> end_time f <> [] ->
        Date_parse E (start_time f) = Int s ->
        Date_parse E (end_time f) = Int s ->
        (Date_now E <= s)%Z ->
        handleSubmit E fuel c w
        = Some (rejected_with (js "End time must be after start time") w))
  /\ (forall s e d,
        name f <> [] -> description f <> [] ->
        start_time f <> [] -> end_time f <> [] ->
        Date_parse E (start_time f) = Int s ->
        Date_parse E (end_time f) = Int e ->
        (Date_now E <= s < e)%Z ->
        registration_deadline f <> [] ->
        Date_parse E (registration_deadline f) = Int d ->
        (s <= d)%Z ->
        handleSubmit E fuel c w
        = Some (rejected_with
                  (js "Registration deadline must be before start time") w))
  /\ (forall msg,
        calls (rejected_with msg w) = calls w
        /\ rand_pos (rejected_with msg w) = rand_pos w
        /\ route (rejected_with msg w) = route w
        /\ saving (rejected_with msg w) = false
        /\ toasts (rejected_with msg w) = toasts w ++ [ToastError msg]).
Proof.
  intros Hu f.
  assert (Hfalsy : forall x : jsstring, x <> [] -> falsy x = false)
    by (intros [|? ?] Hx; [congruence | reflexivity]).
  split; [apply (handleSubmit_rejects fuel c u w); assumption|].
  split.
  { intros c' Hf Hval. destruct (user c') as [u'|] eqn:Hu'.
    - destruct (handleSubmit_rejects fuel c' u' w Hu') as [msg Hrej];
        [rewrite Hf; exact Hval|].
      exists (rejected_with msg w). split; [exact Hrej | reflexivity].
    - exists w. split; [apply handleSubmit_no_user; exact Hu' | reflexivity]. }
  split.
  { intros Heq. apply (handleSubmit_rejects fuel c u w); [assumption|].
    fold f. unfold passes_validation. rewrite Heq.
    destruct (Date_parse E (start_time f)) as [|s].
    - now rewrite !andb_false_r.
    - rewrite Z.ltb_irrefl. now rewrite !andb_false_r. }
  split.
  { intros s d Hdl Hs Hd Hle. apply (handleSubmit_rejects fuel c u w); [assumption|].
    fold f. unfold passes_validation, truthy.
    rewrite Hs, Hd, (Hfalsy _ Hdl). cbn [negb].
    replace (d <? s)%Z with false by (symmetry; apply Z.ltb_ge; lia).
    destruct (Date_parse E (end_time f)); now rewrite ?andb_false_r. }
  split.
  { intros s Hn Hde Hst Hen Hs He Hnow.
    apply (handleSubmit_rejects_with fuel c u w); [assumption|].
    fold f. unfold validation_message.
    rewrite (Hfalsy _ Hn), (Hfalsy _ Hde), (Hfalsy _ Hst), (Hfalsy _ Hen), Hs, He.
    cbn [orb].
    replace (s <? Date_now E)%Z with false by (symmetry; apply Z.ltb_ge; lia).
    now rewrite Z.leb_refl. }
  split.
  { intros s e d Hn Hde Hst Hen Hs He Hord Hdl Hd Hle.
    apply (handleSubmit_rejects_with fuel c u w); [assumption|].
    fold f. unfold validation_message, truthy.
    rewrite (Hfalsy _ Hn), (Hfalsy _ Hde), (Hfalsy _ Hst), (Hfalsy _ Hen), Hs, He,
      (Hfalsy _ Hdl), Hd.
    cbn [orb negb].
    replace (s <? Date_now E)%Z with false by (symmetry; apply Z.ltb_ge; lia).
    replace (e <=? s)%Z with false by (symmetry; apply Z.leb_gt; lia).
    replace (s <=? d)%Z with true by (symmetry; apply Z.leb_le; lia).
    reflexivity. }
  intros msg. repeat split.
Qed.

(** C6.  In every record a submission inserts, the tags attribute is the
    ordered list obtained by splitting the tags string on commas, trimming
    each part and discarding the empty ones; when that list is empty, as it
    is for the empty tags string, the attribute is null and never an empty
    list.  The parts rejoin to the tags string, and every stored tag is
    non-empty, free of commas, and neither starts nor ends with white
    space. *)
Theorem submitted_tags (fuel : nat) (c : Component) (w w' : World)
  (L : list Call) (d : EventData) :
  handleSubmit E fuel c w = Some w' ->
  calls w' = calls w ++ L ->
  In (InsertEvent d) L ->
  let parts := split 44 (tags (formData c)) in
  let kept := filter (fun tag => (0 <? length tag)%nat) (map trim parts) in
  ev_tags d = match kept with [] => None | _ :: _ => Some kept end
  /\ ev_tags d <> Some []
  /\ (tags (formData c) = [] -> ev_tags d = None)
  /\ join 44 parts = tags (formData c)
  /\ Forall (fun tag =>
               tag <> [] /\ ~ In 44%N tag
               /\ (forall a t, tag = a :: t -> is_space a = false)
               /\ (forall a t, tag = t ++ [a] -> is_space a = false)) kept.
Proof.
  intros H HL Hin parts kept.
  destruct (handleSubmit_inserted fuel c w w' L d H HL Hin)
    as (u & p & sc & _ & _ & ->).
  assert (Htags : ev_tags (payload E c u p sc)
                  = match kept with [] => None | _ :: _ => Some kept end).
  { unfold payload, eventData, tagsArray_of. cbv zeta. cbn [ev_tags].
    fold parts. fold kept. destruct kept; reflexivity. }
  split; [exact Htags|]. split.
  { rewrite Htags. destruct kept; discriminate. }
  split.
  { intros Hempty. rewrite Htags. subst kept parts. rewrite Hempty. reflexivity. }
  split; [apply split_join|].
  apply Forall_forall. intros tag Htag.
  apply filter_In in Htag as [Hmap Hlen].
  apply in_map_iff in Hmap as (seg & <- & Hseg).
  split; [|split; [|split]].
  - intros Hnil. rewrite Hnil in Hlen. discriminate.
  - intros Hcomma. apply In_trim in Hcomma.
    pose proof (split_no_separator 44 (tags (formData c))) as Hno.
    rewrite Forall_forall in Hno. exact (Hno seg Hseg Hcomma).
  - intros a t. apply trim_first.
  - intros a t. apply trim_last.
Qed.

(** C9.  In every record a submission inserts, each optional free-text
    field (location, website, Discord and Twitter links, requirements,
    banner image) is null when its form value is the empty string and the
    form value otherwise; the participant limit is null when its form value
    is the empty string and [parseInt] of that value otherwise. *)
Theorem optional_fields_null_when_empty (fuel : nat) (c : Component)
  (w w' : World) (L : list Call) (d : EventData) :
  handleSubmit E fuel c w = Some w' ->
  calls w' = calls w ++ L ->
  In (InsertEvent d) L ->
  let f := formData c in
  let stored (s : jsstring) := match s with [] => None | _ :: _ => Some s end in
  ev_location d = stored (location f)
  /\ ev_website_url d = stored (website_url f)
  /\ ev_discord_url d = stored (discord_url f)
  /\ ev_twitter_url d = stored (twitter_url f)
  /\ ev_requirements d = stored (requirements f)
  /\ ev_banner_image_url d = stored (banner_image_url f)
  /\ ev_participant_limit d
     = match participant_limit f with
       | [] => None
       | _ :: _ => Some (parseInt E (participant_limit f))
       end.
Proof.
  intros H HL Hin f stored.
  destruct (handleSubmit_inserted fuel c w w' L d H HL Hin)
    as (u & p & sc & _ & _ & ->).
  unfold payload, eventData. cbv zeta.
  cbn [ev_location ev_website_url ev_discord_url ev_twitter_url ev_requirements
       ev_banner_image_url ev_participant_limit].
  fold f. unfold or_null, truthy.
  repeat split;
    match goal with
    | |- context [falsy ?x] => destruct x; reflexivity
    end.
Qed.

Lemma conclude_rand_pos (c : Component) (u : User) (p : ProfileResponse)
  (shortCode : jsstring) (w : World) :
  rand_pos (conclude E c u p shortCode w) = rand_pos w.
Proof.
  unfold conclude. cbv zeta.
  destruct (insert_error _); [reflexivity|].
  destruct (insert_data _); reflexivity.
Qed.

(** Two submissions that differ only in their custom fields issue the same
    calls up to the custom-fields attribute of the inserted record, and a
    local rejection is the same for both. *)
Lemma handleSubmit_ignores_custom_fields (fuel : nat) (ou : option User)
  (f : FormData) (cfs1 cfs2 : list CustomField) (w : World) :
  match handleSubmit E fuel {| user := ou; formData := f; customFields := cfs1 |} w,
        handleSubmit E fuel {| user := ou; formData := f; customFields := cfs2 |} w
  with
  | Some w1, Some w2 =>
      map without_custom_fields (calls w1) = map without_custom_fields (calls w2)
      /\ rand_pos w1 = rand_pos w2
      /\ (calls w1 = calls w <-> calls w2 = calls w)
      /\ (passes_validation E f = false -> w1 = w2)
  | None, None => True
  | _, _ => False
  end.
Proof.
  set (c1 := {| user := ou; formData := f; customFields := cfs1 |}).
  set (c2 := {| user := ou; formData := f; customFields := cfs2 |}).
  destruct ou as [u|].
  2:{ rewrite (handleSubmit_no_user fuel c1 w eq_refl),
        (handleSubmit_no_user fuel c2 w eq_refl). tauto. }
  destruct (validation_message E f) as [msg|] eqn:Hmsg.
  - rewrite (handleSubmit_rejects_with fuel c1 u w msg eq_refl Hmsg),
      (handleSubmit_rejects_with fuel c2 u w msg eq_refl Hmsg). tauto.
  - apply passes_validation_message in Hmsg.
    rewrite (handleSubmit_accepts fuel c1 u w eq_refl Hmsg),
      (handleSubmit_accepts fuel c2 u w eq_refl Hmsg).
    cbn [formData c1 c2].
    destruct (generateUniqueShortCode E fuel (Some (name f))
                (issue (SelectUserName (user_id u)) (set_saving true w)))
      as [[sc w1]|] eqn:Hgen; [|exact I].
    rewrite !conclude_calls, !conclude_rand_pos, !map_app.
    split; [reflexivity|]. split; [reflexivity|]. split; [|congruence].
    apply unique_loop_frame in Hgen as (codes & Hc & _).
    rewrite Hc. cbn [calls issue set_saving].
    split; intros Habs; exfalso;
      apply (f_equal (@length Call)) in Habs;
      rewrite !length_app in Habs; cbn in Habs; lia.
Qed.

(** C10.  No validation applies to the custom registration fields.  In every
    record a submission inserts, the custom-fields attribute is the list of
    custom fields exactly as it stands whenever that list is non-empty (and
    null when it is empty); this includes an entry just added by
    [addCustomField], whose name is still the empty string, whose type is
    "text", which is not required and has no options.  Whether and with
    what notice a submission is rejected locally, and which calls it
    issues up to the custom-fields attribute of the inserted record, do
    not depend on the custom fields. *)
Theorem custom_fields_submitted_unvalidated (fuel : nat) (c : Component)
  (w : World) :
  let added :=
    {| id := Z_to_js (Date_now E); field_name := []; type := js "text";
       required := false; options := Some [] |} in
  (forall w' L d,
      handleSubmit E fuel c w = Some w' ->
      calls w' = calls w ++ L ->
      In (InsertEvent d) L ->
      ev_custom_fields d
      = match customFields c with [] => None | _ :: _ => Some (customFields c) end)
  /\ customFields (addCustomField E c) = customFields c ++ [added]
  /\ (forall w' L d,
        handleSubmit E fuel (addCustomField E c) w = Some w' ->
        calls w' = calls w ++ L ->
        In (InsertEvent d) L ->
        ev_custom_fields d = Some (customFields c ++ [added]))
  /\ (forall cfs,
        match handleSubmit E fuel c w,
              handleSubmit E fuel
                {| user := user c; formData := formData c; customFields := cfs |} w
        with
        | Some w1, Some w2 =>
            map without_custom_fields (calls w1)
            = map without_custom_fields (calls w2)
            /\ rand_pos w1 = rand_pos w2
            /\ (calls w1 = calls w <-> calls w2 = calls w)
            /\ (passes_validation E (formData c) = false -> w1 = w2)
        | None, None => True
        | _, _ => False
        end).
Proof.
  intros added.
  assert (Hcf : forall c0 w' L d,
             handleSubmit E fuel c0 w = Some w' ->
             calls w' = calls w ++ L ->
             In (InsertEvent d) L ->
             ev_custom_fields d
             = match customFields c0 with
               | [] => None
               | _ :: _ => Some (customFields c0)
               end).
  { intros c0 w' L d H HL Hin.
    destruct (handleSubmit_inserted fuel c0 w w' L d H HL Hin)
      as (u & p & sc & _ & _ & ->).
    unfold payload, eventData. cbv zeta. cbn [ev_custom_fields].
    destruct (customFields c0); reflexivity. }
  split; [apply Hcf|]. split; [reflexivity|]. split.
  - intros w' L d H HL Hin. rewrite (Hcf _ w' L d H HL Hin).
    cbn [addCustomField customFields]. fold added.
    destruct (customFields c); reflexivity.
  - intros cfs. destruct c as [ou f cfs0]. cbn [user formData].
    apply handleSubmit_ignores_custom_fields.
Qed.

End SubmitHandler.

Section SubmitCompletes.

Variable E : Env.
Hypothesis random_range : random_in_unit_interval E.

(** A signed-in user's form that passes the local checks is submitted:
    the run ends, having issued the profile lookup, at most 10 short-code
    lookups and then exactly one insert, of the form's payload. *)
Lemma handleSubmit_valid_inserts (fuel : nat) (c : Component) (u : User)
  (w : World) :
  user c = Some u ->
  passes_validation E (formData c) = true ->
  (maxAttempts + targetLength + 1 < fuel)%nat ->
  exists w' codes shortCode,
    handleSubmit E fuel c w = Some w'
    /\ (length codes <= 10)%nat
    /\ calls w'
       = calls w ++ SelectUserName (user_id u)
           :: map SelectEventByShortCode codes
           ++ [InsertEvent (payload E c u (users_single E (calls w) (user_id u))
                              shortCode)].
Proof.
  intros Hu Hval Hfuel. unfold maxAttempts, targetLength in Hfuel.
  rewrite (handleSubmit_accepts E fuel c u w Hu Hval).
  unfold generateUniqueShortCode.
  replace fuel with (S 10 + (fuel - 11))%nat by lia.
  destruct (unique_loop_total E random_range (Some (name (formData c))) 10 0
              (fuel - 11) (issue (SelectUserName (user_id u)) (set_saving true w)))
    as (sc & w1 & codes & Hloop & Hc & Hlen);
    [unfold maxAttempts; lia | unfold targetLength; lia |].
  rewrite Hloop. eexists _, codes, sc. split; [reflexivity|].
  split; [exact Hlen|].
  rewrite conclude_calls, Hc. cbn [issue calls set_saving].
  rewrite <- !app_assoc. reflexivity.
Qed.

End SubmitCompletes.

(** A blank form is turned down at the first check. *)
Lemma handleSubmit_blank_form :
  handleSubmit browser 19 (with_form blank_form []) fresh_world
  = Some (rejected_with (js "Please fill in all required fields") fresh_world).
Proof. reflexivity. Qed.

(* ================================================================= *)
(** ** More about the shareable URLs *)

Lemma take_while_Forall (p : N -> bool) (s : jsstring) :
  Forall (fun c => p c = true) (take_while p s).
Proof.
  induction s as [|c s IH]; cbn [take_while]; [constructor|].
  destruct (p c) eqn:Hc; constructor; assumption.
Qed.

(** The run taken is maximal: what follows it does not start with a
    character of the class. *)
Lemma take_while_rest (p : N -> bool) (s : jsstring) :
  exists post,
    s = take_while p s ++ post
    /\ match post with [] => True | c :: _ => p c = false end.
Proof.
  induction s as [|c s (post & Hs & Hpost)]; cbn [take_while].
  - exists []. split; [reflexivity | exact I].
  - destruct (p c) eqn:Hc.
    + exists post. split; [cbn; now rewrite <- Hs | exact Hpost].
    + exists (c :: s). split; [reflexivity | exact Hc].
Qed.

Lemma take_while_app (p : N -> bool) (s post : jsstring) :
  Forall (fun c => p c = true) s ->
  match post with [] => True | c :: _ => p c = false end ->
  take_while p (s ++ post) = s.
Proof.
  intros Hs Hpost. induction Hs as [|c s Hc _ IH]; cbn [app take_while].
  - destruct post as [|c post]; cbn [take_while]; [reflexivity | now rewrite Hpost].
  - now rewrite Hc, IH.
Qed.

Lemma matches_here_inv (url : jsstring) :
  matches_here url = true ->
  exists e a rest,
    url = 47%N :: e :: 47%N :: a :: rest
    /\ (e = 101%N \/ e = 69%N) /\ is_alnum_ci a = true.
Proof.
  unfold matches_here.
  destruct url as [|x1 [|x2 [|x3 [|x4 rest]]]]; try discriminate.
  intros H. apply andb_prop in H as [H H4]. apply andb_prop in H as [H H3].
  apply andb_prop in H as [H1 H2].
  apply N.eqb_eq in H1, H3. subst.
  exists x2, x4, rest. split; [reflexivity|]. split; [|assumption].
  apply orb_prop in H2 as [H2|H2]; apply N.eqb_eq in H2; auto.
Qed.

(** What [extractShortCodeFromURL] returns is never empty, consists of
    ASCII letters and digits only, and stands in the URL right after a
    segment ["/e/"] (or ["/E/"]), up to the first character that is not a
    letter or digit. *)
Theorem extractShortCodeFromURL_sound (url code : jsstring) :
  extractShortCodeFromURL url = Some code ->
  code <> []
  /\ Forall (fun c => is_alnum_ci c = true) code
  /\ exists pre e post,
      url = pre ++ 47%N :: e :: 47%N :: code ++ post
      /\ (e = 101%N \/ e = 69%N)
      /\ match post with [] => True | c :: _ => is_alnum_ci c = false end.
Proof.
  revert code. induction url as [|c url IH]; intros code; [discriminate|].
  cbn [extractShortCodeFromURL].
  destruct (matches_here (c :: url)) eqn:Hm.
  - intros H. injection H as <-.
    apply matches_here_inv in Hm as (e & a & rest & Hurl & He & Ha).
    injection Hurl as -> ->.
    change (skipn 3 (47 :: e :: 47 :: a :: rest)%N) with (a :: rest).
    cbn [take_while]. rewrite Ha.
    split; [discriminate|]. split.
    + constructor; [assumption | apply take_while_Forall].
    + destruct (take_while_rest is_alnum_ci rest) as (post & Hrest & Hpost).
      exists [], e, post. cbn [app]. split; [|split; assumption].
      now rewrite <- Hrest.
  - intros H. apply IH in H as (Hne & Hall & pre & e & post & Hurl & He & Hpost).
    split; [assumption|]. split; [assumption|].
    exists (c :: pre), e, post. cbn [app]. now rewrite Hurl.
Qed.

(** [extractShortCodeFromURL] returns null exactly when the URL has no
    segment ["/e/"] or ["/E/"] followed by a letter or digit. *)
Theorem extractShortCodeFromURL_null (url : jsstring) :
  extractShortCodeFromURL url = None
  <-> (forall pre e a post,
          url = pre ++ 47%N :: e :: 47%N :: a :: post ->
          (e = 101%N \/ e = 69%N) -> is_alnum_ci a = false).
Proof.
  induction url as [|c url IH].
  - split; [|reflexivity]. intros _ pre e a post H.
    destruct pre; discriminate.
  - cbn [extractShortCodeFromURL]. split.
    + destruct (matches_here (c :: url)) eqn:Hm; [discriminate|].
      intros Hnone pre e a post Hurl He.
      destruct pre as [|x pre].
      * cbn [app] in Hurl. rewrite Hurl in Hm. cbn [matches_here] in Hm.
        rewrite N.eqb_refl in Hm. cbn [andb] in Hm.
        destruct He as [-> | ->]; cbn in Hm;
          destruct (is_alnum_ci a); [discriminate | reflexivity
                                    | discriminate | reflexivity].
      * cbn [app] in Hurl. injection Hurl as _ Hurl.
        exact (proj1 IH Hnone pre e a post Hurl He).
    + intros Hno. destruct (matches_here (c :: url)) eqn:Hm.
      * apply matches_here_inv in Hm as (e & a & rest & Hurl & He & Ha).
        rewrite (Hno [] e a rest Hurl He) in Ha. discriminate.
      * apply IH. intros pre e a post Hurl He.
        apply (Hno (c :: pre) e a post); [cbn; now rewrite Hurl | assumption].
Qed.

Section MoreShareableURL.

Variable E : Env.

(** The round trip holds for every non-empty code of ASCII letters and
    digits, upper case included, with or without a base override, and
    whatever follows the code in the URL as long as it does not start with
    a letter or digit (a query string, a fragment, a trailing slash),
    provided the pattern matches nowhere in the base followed by the path
    segment. *)
Theorem extractShortCodeFromURL_ignores_suffix (shortCode : jsstring)
  (baseUrl : option jsstring) (suffix : jsstring) :
  shortCode <> [] ->
  Forall (fun c => is_alnum_ci c = true) shortCode ->
  match suffix with [] => True | c :: _ => is_alnum_ci c = false end ->
  extractShortCodeFromURL (base_of E baseUrl ++ js "/e/") = None ->
  extractShortCodeFromURL (createShareableEventURL E shortCode baseUrl ++ suffix)
  = Some shortCode.
Proof.
  intros Hne Hall Hsuf Hbase. unfold createShareableEventURL.
  rewrite <- !app_assoc.
  rewrite (extract_skips_base _ (shortCode ++ suffix) Hbase).
  destruct shortCode as [|c code]; [congruence|].
  change (js "/e/" ++ (c :: code) ++ suffix)
    with (47 :: 101 :: 47 :: c :: code ++ suffix)%N.
  cbn [extractShortCodeFromURL matches_here skipn].
  inversion Hall as [|? ? Hc Hrest]; subst.
  rewrite Hc. cbn [N.eqb Pos.eqb andb orb take_while]. rewrite Hc.
  now rewrite (take_while_app is_alnum_ci code suffix Hrest Hsuf).
Qed.

End MoreShareableURL.

(* ================================================================= *)
(** ** More about the generator *)

Section CompletedRuns.

Variable E : Env.

Lemma charAt_characters (i : Z) :
  charAt characters i = []
  \/ exists c, charAt characters i = [c] /\ In c characters.
Proof.
  unfold charAt. destruct (i <? 0)%Z; [now left|].
  destruct (nth_error characters (Z.to_nat i)) as [c|] eqn:Hn; [|now left].
  right. exists c. split; [reflexivity|]. eapply nth_error_In; eassumption.
Qed.

(** Whenever the filling loop ends, it has brought the string to exactly 7
    characters by appending alphabet characters; no assumption on the
    random source is needed for this. *)
Lemma fill_shape (fuel : nat) :
  forall result w c w',
    fill E fuel result w = Some (c, w') ->
    (length result <= targetLength)%nat ->
    exists rest,
      c = result ++ rest /\ Forall (fun x => In x characters) rest
      /\ length c = targetLength.
Proof.
  induction fuel as [|fuel IH]; intros result w c w' H Hlen; [discriminate|].
  cbn [fill] in H.
  destruct (length result <? targetLength)%nat eqn:Hlt.
  - apply Nat.ltb_lt in Hlt.
    destruct (charAt_characters (random_index E (rand_pos w)))
      as [Hch | (x & Hch & Hx)]; rewrite Hch in H.
    + rewrite app_nil_r in H. exact (IH _ _ _ _ H Hlen).
    + apply IH in H as (rest & Hc & Hrest & Hl).
      * exists (x :: rest). rewrite Hc, <- app_assoc.
        split; [reflexivity|]. split; [constructor; assumption|].
        rewrite <- Hl, Hc, <- app_assoc. reflexivity.
      * rewrite length_app. cbn. lia.
  - apply Nat.ltb_ge in Hlt. injection H as <- _.
    exists []. rewrite app_nil_r. split; [reflexivity|].
    split; [constructor | lia].
Qed.

Lemma generateShortCode_completed (fuel : nat) (seed : option jsstring)
  (w : World) (c : jsstring) (w' : World) :
  generateShortCode E fuel seed w = Some (c, w') ->
  well_formed_code c
  /\ exists rest,
      c = seed_prefix E seed ++ rest /\ Forall (fun x => In x characters) rest.
Proof.
  intros H. unfold generateShortCode in H.
  pose proof (seed_prefix_length E seed) as Hp.
  apply fill_shape in H as (rest & Hc & Hrest & Hl);
    [|unfold targetLength; lia].
  split; [split|].
  - exact Hl.
  - rewrite Hc. apply Forall_app. split; [apply seed_prefix_lower_alnum|].
    eapply Forall_impl; [|exact Hrest]. intros x; apply characters_lower_alnum.
  - exists rest. split; assumption.
Qed.

Lemma unique_loop_completed (fuel : nat) :
  forall seed a w code w',
    unique_loop E fuel seed a w = Some (code, w') ->
    exists codes,
      calls w' = calls w ++ map SelectEventByShortCode codes
      /\ (length codes <= maxAttempts - a)%nat
      /\ ((a < maxAttempts)%nat -> (1 <= length codes)%nat)
      /\ Forall (fun c => well_formed_code c
                          /\ exists rest, c = seed_prefix E seed ++ rest) codes
      /\ well_formed_code code
      /\ ((exists pre,
              codes = pre ++ [code]
              /\ no_rows (events_single E
                            (calls w ++ map SelectEventByShortCode pre) code) = true)
          \/ ((maxAttempts <= a + length codes)%nat
              /\ Forall (fun x => In x characters) code))
      /\ toasts w' = toasts w /\ saving w' = saving w /\ route w' = route w.
Proof.
  induction fuel as [|fuel IH]; intros seed a w code w' H; [discriminate|].
  cbn [unique_loop] in H.
  destruct (a <? maxAttempts)%nat eqn:Ha.
  - apply Nat.ltb_lt in Ha.
    destruct (generateShortCode E fuel seed w) as [[sc w1]|] eqn:Hgen;
      [|discriminate].
    pose proof (generateShortCode_completed fuel seed w sc w1 Hgen)
      as (Hwf & rest & Hsc & _).
    unfold generateShortCode in Hgen.
    apply (fill_frame E) in Hgen as (Hc & Ht & Hs & Hr).
    unfold select_event in H. rewrite Hc in H.
    destruct (no_rows (events_single E (calls w) sc)) eqn:Hno.
    + injection H as <- <-. exists [sc]. cbn [map length issue calls toasts saving route].
      rewrite Hc. split; [reflexivity|]. split; [lia|]. split; [lia|].
      split; [constructor; [|constructor]; split; [assumption | now exists rest]|].
      split; [assumption|]. split; [|auto].
      left. exists []. cbn. rewrite app_nil_r. auto.
    + apply IH in H
        as (codes & Hc2 & Hlen & _ & Hall & Hwf2 & Hlast & Ht2 & Hs2 & Hr2).
      cbn [issue calls toasts saving route] in *.
      exists (sc :: codes). cbn [map length].
      split; [rewrite Hc2, Hc, <- app_assoc; reflexivity|].
      split; [lia|]. split; [lia|].
      split; [constructor; [split; [assumption | now exists rest] | assumption]|].
      split; [assumption|].
      split; [|rewrite Ht2, Hs2, Hr2; auto].
      destruct Hlast as [(pre & Hpre & Hnr) | (Hcount & Halpha)].
      * left. exists (sc :: pre). split; [cbn; now rewrite Hpre|].
        cbn [map]. rewrite Hc, <- app_assoc in Hnr. exact Hnr.
      * right. split; [lia | assumption].
  - apply Nat.ltb_ge in Ha.
    pose proof (generateShortCode_completed fuel None w code w' H)
      as (Hwf & rest & Hcode & Hrest).
    unfold generateShortCode in H. apply (fill_frame E) in H as (Hc & Ht & Hs & Hr).
    exists []. cbn [map length]. rewrite app_nil_r.
    split; [assumption|]. split; [lia|]. split; [lia|]. split; [constructor|].
    split; [assumption|]. split; [|auto].
    right. split; [lia|]. cbn in Hcode. now subst.
Qed.

(** Every completed run of [generateUniqueShortCode], whatever the random
    source and the lookups do: it has issued between 1 and 10 short-code
    lookups and nothing else (no other call, no notice, no navigation);
    every code looked up, like the one returned, has 7 characters of
    [[a-z0-9]] and starts with the seed's prefix; and the code returned is
    either the last one looked up, which the lookup answered "no rows", or,
    after 10 lookups, an unverified code of alphabet characters only. *)
Theorem generateUniqueShortCode_completed (fuel : nat) (seed : option jsstring)
  (w : World) (code : jsstring) (w' : World) :
  generateUniqueShortCode E fuel seed w = Some (code, w') ->
  exists codes,
    calls w' = calls w ++ map SelectEventByShortCode codes
    /\ (1 <= length codes <= 10)%nat
    /\ Forall (fun c => well_formed_code c
                        /\ exists rest, c = seed_prefix E seed ++ rest) codes
    /\ well_formed_code code
    /\ ((exists pre,
            codes = pre ++ [code]
            /\ no_rows (events_single E
                          (calls w ++ map SelectEventByShortCode pre) code) = true)
        \/ (length codes = 10%nat /\ Forall (fun x => In x characters) code))
    /\ toasts w' = toasts w /\ saving w' = saving w /\ route w' = route w.
Proof.
  intros H. unfold generateUniqueShortCode in H.
  apply unique_loop_completed in H
    as (codes & Hc & Hlen & Hone & Hall & Hwf & Hlast & Hui).
  unfold maxAttempts in *. exists codes.
  split; [assumption|]. split; [split; [apply Hone; lia | lia]|].
  split; [assumption|]. split; [assumption|]. split; [|assumption].
  destruct Hlast as [Hv | [Hcount Halpha]]; [left; assumption|].
  right. split; [lia | assumption].
Qed.

End CompletedRuns.

(* ================================================================= *)
(** ** More about durations *)

Lemma Z_to_js_negative (z : Z) :
  (z < 0)%Z -> exists t, Z_to_js z = 45%N :: t.
Proof.
  destruct z as [|p|p]; try lia. intros _.
  unfold Z_to_js. cbn [Z.to_int NilZero.string_of_int].
  eexists. reflexivity.
Qed.

Section MoreDurations.

Variable E : Env.

(** An end before the start, by no more than 2^53 milliseconds (the span
    within which the code's double arithmetic is exact), is not rejected.
    The hours are floored and so negative, the minutes keep the sign of the
    total, the output begins with a minus sign, and unless the total is a
    whole number of hours the two parts do not add up to the total: they
    are one hour short. *)
Theorem formatEventDuration_end_before_start (startTime endTime : jsstring)
  (ts te : Z) :
  Date_parse E startTime = Int ts ->
  Date_parse E endTime = Int te ->
  (- 2 ^ 53 <= te - ts < 0)%Z ->
  let total := ((te - ts) / 60000)%Z in
  let hours := (total / 60)%Z in
  let minutes := Z.rem total 60 in
  (hours < 0)%Z /\ (-60 < minutes <= 0)%Z
  /\ formatEventDuration E startTime endTime
     = (if (minutes =? 0)%Z then counted hours (js "hour")
        else counted hours (js "hour") ++ js " " ++ counted minutes (js "minute"))
  /\ (minutes <> 0%Z -> (60 * hours + minutes = total - 60)%Z)
  /\ exists t, formatEventDuration E startTime endTime = 45%N :: t.
Proof.
  intros Hs He [_ Hlt] total hours minutes.
  assert (Htot : (total < 0)%Z)
    by (apply Z.div_lt_upper_bound; lia).
  assert (Hh : (hours < 0)%Z)
    by (apply Z.div_lt_upper_bound; lia).
  assert (Hm : (-60 < minutes <= 0)%Z).
  { pose proof (Z.rem_bound_pos (- total) 60 ltac:(lia) ltac:(lia)) as Hb.
    rewrite Z.rem_opp_l' in Hb. unfold minutes. lia. }
  assert (Hfmt : formatEventDuration E startTime endTime
     = (if (minutes =? 0)%Z then counted hours (js "hour")
        else counted hours (js "hour") ++ js " " ++ counted minutes (js "minute"))).
  { rewrite (formatEventDuration_valid E startTime endTime ts te Hs He).
    cbv zeta. fold total. fold hours. fold minutes.
    replace (hours =? 0)%Z with false by (symmetry; apply Z.eqb_neq; lia).
    reflexivity. }
  split; [assumption|]. split; [assumption|]. split; [assumption|]. split.
  - intros Hnz.
    pose proof (Z.quot_rem' total 60) as Hq. fold minutes in Hq.
    pose proof (Z.div_mod total 60 ltac:(lia)) as Hd. fold hours in Hd.
    pose proof (Z.mod_pos_bound total 60 ltac:(lia)). lia.
  - rewrite Hfmt. destruct (Z_to_js_negative hours Hh) as [t Ht].
    unfold counted. rewrite Ht. destruct (minutes =? 0)%Z; eexists; reflexivity.
Qed.

(** A span shorter than a minute, the empty span included, renders as
    "0 minutes": seconds are dropped. *)
Theorem formatEventDuration_under_a_minute (startTime endTime : jsstring)
  (ts te : Z) :
  Date_parse E startTime = Int ts ->
  Date_parse E endTime = Int te ->
  (0 <= te - ts < 60000)%Z ->
  formatEventDuration E startTime endTime = js "0 minutes".
Proof.
  intros Hs He Hspan.
  rewrite (formatEventDuration_valid E startTime endTime ts te Hs He).
  rewrite (Z.div_small (te - ts) 60000 Hspan). reflexivity.
Qed.

End MoreDurations.

(* ================================================================= *)
(** ** More about the submit handler *)

Section MoreSubmit.

Variable E : Env.

Lemma falsy_false_iff (x : jsstring) : falsy x = false <-> x <> [].
Proof. destruct x; cbn; split; congruence. Qed.

Lemma passes_validation_iff (f : FormData) :
  passes_validation E f = true <-> form_in_order E f.
Proof.
  unfold passes_validation, form_in_order, truthy. split.
  - intros H.
    destruct (falsy (name f)) eqn:H1; [discriminate|].
    destruct (falsy (description f)) eqn:H2; [discriminate|].
    destruct (falsy (start_time f)) eqn:H3; [discriminate|].
    destruct (falsy (end_time f)) eqn:H4; [discriminate|].
    cbn [negb andb] in H.
    apply falsy_false_iff in H1, H2, H3, H4.
    repeat (split; [assumption|]).
    destruct (Date_parse E (start_time f)) as [|s]; [discriminate|].
    destruct (Date_parse E (end_time f)) as [|e]; [discriminate|].
    apply andb_prop in H as [H Hd]. apply andb_prop in H as [Hn He].
    apply Z.leb_le in Hn. apply Z.ltb_lt in He.
    exists s, e. repeat (split; [reflexivity || lia|]).
    destruct (falsy (registration_deadline f)) eqn:H5.
    + left. destruct (registration_deadline f); [reflexivity | discriminate].
    + right. apply falsy_false_iff in H5. split; [assumption|]. cbn [negb] in Hd.
      destruct (Date_parse E (registration_deadline f)) as [|d]; [discriminate|].
      apply andb_prop in Hd as [Hd1 Hd2].
      apply Z.ltb_lt in Hd1. apply Z.leb_le in Hd2.
      exists d. split; [reflexivity | lia].
  - intros (H1 & H2 & H3 & H4 & s & e & Hs & He & Hord & Hdl).
    apply falsy_false_iff in H1, H2, H3, H4.
    rewrite H1, H2, H3, H4, Hs, He. cbn [negb andb].
    replace (Date_now E <=? s)%Z with true by (symmetry; apply Z.leb_le; lia).
    replace (s <? e)%Z with true by (symmetry; apply Z.ltb_lt; lia).
    cbn [andb].
    destruct Hdl as [Hnil | (Hne & d & Hd & Hdord)].
    + rewrite Hnil. reflexivity.
    + apply falsy_false_iff in Hne. rewrite Hne, Hd. cbn [negb].
      replace (d <? s)%Z with true by (symmetry; apply Z.ltb_lt; lia).
      replace (Date_now E <=? d)%Z with true by (symmetry; apply Z.leb_le; lia).
      reflexivity.
Qed.

(** The run of a signed-in user's form that passes the checks, in full. *)
Lemma handleSubmit_accepted_run (fuel : nat) (c : Component) (u : User)
  (w w' : World) :
  user c = Some u ->
  passes_validation E (formData c) = true ->
  handleSubmit E fuel c w = Some w' ->
  exists shortCode w1 codes,
    generateUniqueShortCode E fuel (Some (name (formData c)))
      (issue (SelectUserName (user_id u)) (set_saving true w))
    = Some (shortCode, w1)
    /\ w' = conclude E c u (users_single E (calls w) (user_id u)) shortCode w1
    /\ calls w1 = calls w ++ SelectUserName (user_id u)
                    :: map SelectEventByShortCode codes
    /\ (1 <= length codes <= 10)%nat
    /\ well_formed_code shortCode
    /\ ((exists pre rest,
            codes = pre ++ [shortCode]
            /\ shortCode = seed_prefix E (Some (name (formData c))) ++ rest)
        \/ (length codes = 10%nat
            /\ Forall (fun x => In x characters) shortCode))
    /\ toasts w1 = toasts w /\ route w1 = route w.
Proof.
  intros Hu Hval H. rewrite (handleSubmit_accepts E fuel c u w Hu Hval) in H.
  destruct (generateUniqueShortCode E fuel (Some (name (formData c)))
              (issue (SelectUserName (user_id u)) (set_saving true w)))
    as [[sc w1]|] eqn:Hgen; [|discriminate].
  injection H as <-. exists sc, w1.
  pose proof Hgen as Hgen'.
  unfold generateUniqueShortCode in Hgen'.
  apply unique_loop_completed in Hgen'
    as (codes & Hc & Hlen & Hone & Hall & Hwf & Hlast & Ht & _ & Hr).
  exists codes. unfold maxAttempts in *. cbn [issue set_saving calls toasts route] in *.
  split; [reflexivity|]. split; [reflexivity|].
  split; [rewrite Hc, <- app_assoc; reflexivity|].
  split; [split; [apply Hone; lia | lia]|].
  split; [assumption|]. split; [|auto].
  destruct Hlast as [(pre & Hpre & _) | (Hcount & Halpha)].
  - left. rewrite Forall_forall in Hall.
    destruct (Hall sc) as (_ & rest & Hrest);
      [rewrite Hpre; apply in_or_app; right; now left|].
    now exists pre, rest.
  - right. split; [lia | assumption].
Qed.

(** A completed submission has contacted the backend exactly when a user
    is signed in and the form is in order: the four required fields are not
    empty, start and end are valid times with the start not before the
    current time and the end strictly after the start, and the registration
    deadline is either empty or a valid time not before the current time
    and strictly before the start. *)
Theorem handleSubmit_contacts_backend_iff (fuel : nat) (c : Component)
  (w w' : World) :
  handleSubmit E fuel c w = Some w' ->
  (calls w' <> calls w
   <-> (exists u, user c = Some u) /\ form_in_order E (formData c)).
Proof.
  intros H. split.
  - intros Hdiff.
    destruct (handleSubmit_trace E fuel c w w' H)
      as [Hsame | (u & codes & sc & Hu & Hval & _)]; [contradiction|].
    split; [now exists u | now apply passes_validation_iff].
  - intros [[u Hu] Hform]. apply passes_validation_iff in Hform.
    destruct (handleSubmit_accepted_run fuel c u w w' Hu Hform H)
      as (sc & w1 & codes & _ & -> & Hc & _).
    rewrite conclude_calls, Hc. intros Habs.
    apply (f_equal (@length Call)) in Habs.
    rewrite !length_app in Habs. cbn in Habs. lia.
Qed.

(** How an accepted submission ends, by the answer to its insert, which is
    its last call.  An error: one notice carrying the error's message, no
    navigation.  A new row: the success notice and navigation to the row's
    page.  Neither an error nor a row: the success notice followed by the
    failure notice, no navigation.  The busy flag is down in every case. *)
Theorem handleSubmit_outcome (fuel : nat) (c : Component) (u : User)
  (w w' : World) :
  user c = Some u ->
  passes_validation E (formData c) = true ->
  handleSubmit E fuel c w = Some w' ->
  exists history d,
    calls w' = history ++ [InsertEvent d]
    /\ saving w' = false
    /\ match insert_error (events_insert E history d),
             insert_data (events_insert E history d) with
       | Some err, _ =>
           toasts w'
           = toasts w ++ [ToastError (js "Failed to create event: " ++ message err)]
           /\ route w' = route w
       | None, Some new_id =>
           toasts w' = toasts w ++ [ToastSuccess (js "Event created successfully!")]
           /\ route w' = Some (js "/events/" ++ new_id)
       | None, None =>
           toasts w'
           = toasts w ++ [ToastSuccess (js "Event created successfully!");
                          ToastError (js "Failed to create event")]
           /\ route w' = route w
       end.
Proof.
  intros Hu Hval H.
  destruct (handleSubmit_accepted_run fuel c u w w' Hu Hval H)
    as (sc & w1 & codes & _ & -> & _ & _ & _ & _ & Ht & Hr).
  exists (calls w1), (payload E c u (users_single E (calls w) (user_id u)) sc).
  split; [apply conclude_calls|].
  unfold conclude. cbv zeta.
  destruct (insert_error _) as [err|].
  - cbn. rewrite Ht, Hr. auto.
  - destruct (insert_data _) as [new_id|]; cbn; rewrite Ht, ?Hr;
      rewrite <- ?app_assoc; auto.
Qed.

(** Every completed run of a signed-in user ends with the busy flag down
    and at least one new notice; and it has navigated only if its last call
    is an insert answered with a row and no error. *)
Theorem handleSubmit_always_answers (fuel : nat) (c : Component) (u : User)
  (w w' : World) :
  user c = Some u ->
  handleSubmit E fuel c w = Some w' ->
  saving w' = false
  /\ (exists t rest, toasts w' = toasts w ++ t :: rest)
  /\ (route w' <> route w ->
      exists history d new_id,
        calls w' = history ++ [InsertEvent d]
        /\ insert_error (events_insert E history d) = None
        /\ insert_data (events_insert E history d) = Some new_id
        /\ route w' = Some (js "/events/" ++ new_id)).
Proof.
  intros Hu H.
  destruct (passes_validation E (formData c)) eqn:Hval.
  - destruct (handleSubmit_accepted_run fuel c u w w' Hu Hval H)
      as (sc & w1 & codes & _ & -> & _ & _ & _ & _ & Ht & Hr).
    pose proof (conclude_calls E c u (users_single E (calls w) (user_id u)) sc w1)
      as Hcalls.
    unfold conclude in *. cbv zeta in *.
    destruct (insert_error _) as [err|] eqn:Herr.
    + cbn. rewrite Ht, Hr. split; [reflexivity|].
      split; [eexists _, []; reflexivity | congruence].
    + destruct (insert_data _) as [new_id|] eqn:Hdata; cbn; rewrite Ht, ?Hr.
      * split; [reflexivity|]. split; [eexists _, []; reflexivity|].
        intros _. eexists _, _, new_id. split; [exact Hcalls|].
        split; [exact Herr|]. split; [exact Hdata | reflexivity].
      * split; [reflexivity|].
        split; [rewrite <- app_assoc; eexists _, [_]; reflexivity | congruence].
  - destruct (handleSubmit_rejects E fuel c u w Hu Hval) as [msg Hrej].
    rewrite Hrej in H. injection H as <-. cbn.
    split; [reflexivity|]. split; [eexists _, []; reflexivity | congruence].
Qed.

(** The record a submission inserts, and the calls around it. *)
Lemma handleSubmit_inserted_exact (fuel : nat) (c : Component) (w w' : World)
  (L : list Call) (d : EventData) :
  handleSubmit E fuel c w = Some w' ->
  calls w' = calls w ++ L ->
  In (InsertEvent d) L ->
  exists u shortCode w1 codes,
    user c = Some u
    /\ passes_validation E (formData c) = true
    /\ generateUniqueShortCode E fuel (Some (name (formData c)))
         (issue (SelectUserName (user_id u)) (set_saving true w))
       = Some (shortCode, w1)
    /\ d = payload E c u (users_single E (calls w) (user_id u)) shortCode
    /\ L = SelectUserName (user_id u)
           :: map SelectEventByShortCode codes ++ [InsertEvent d]
    /\ (1 <= length codes <= 10)%nat
    /\ well_formed_code shortCode
    /\ ((exists pre rest,
            codes = pre ++ [shortCode]
            /\ shortCode = seed_prefix E (Some (name (formData c))) ++ rest)
        \/ (length codes = 10%nat
            /\ Forall (fun x => In x characters) shortCode)).
Proof.
  intros H HL Hin.
  destruct (user c) as [u|] eqn:Hu.
  2:{ rewrite (handleSubmit_no_user E fuel c w Hu) in H. injection H as <-.
      assert (L = []) by (apply (app_inv_head (calls w)); now rewrite app_nil_r).
      subst L. contradiction. }
  destruct (passes_validation E (formData c)) eqn:Hval.
  - destruct (handleSubmit_accepted_run fuel c u w w' Hu Hval H)
      as (sc & w1 & codes & Hgen & -> & Hc & Hlen & Hwf & Hlast & _).
    rewrite conclude_calls, Hc, <- app_assoc in HL. apply app_inv_head in HL.
    cbn [app] in HL. subst L.
    assert (Hd : d = payload E c u (users_single E (calls w) (user_id u)) sc).
    { destruct Hin as [Hin|Hin]; [discriminate|].
      apply in_app_or in Hin as [Hin|Hin].
      - apply in_map_iff in Hin as (x & Hx & _). discriminate.
      - destruct Hin as [Hin|[]]. now injection Hin. }
    exists u, sc, w1, codes. rewrite <- Hd. repeat (split; [auto; fail|]).
    exact Hlast.
  - destruct (handleSubmit_rejects E fuel c u w Hu Hval) as [msg Hrej].
    rewrite Hrej in H. injection H as <-. cbn [rejected_with calls] in HL.
    assert (L = []) by (apply (app_inv_head (calls w)); now rewrite app_nil_r).
    subst L. contradiction.
Qed.

(** The organizer of every inserted record is the signed-in user, and the
    organizer name is never empty: it is the profile's name when the
    profile lookup gave a non-empty one, else the account's e-mail address
    when there is a non-empty one, else "Anonymous". *)
Theorem inserted_organizer (fuel : nat) (c : Component) (w w' : World)
  (L : list Call) (d : EventData) :
  handleSubmit E fuel c w = Some w' ->
  calls w' = calls w ++ L ->
  In (InsertEvent d) L ->
  exists u,
    user c = Some u
    /\ ev_organizer_id d = user_id u
    /\ ev_organizer_name d <> []
    /\ ev_organizer_name d
       = match profile_data (users_single E (calls w) (user_id u)) with
         | Some (Some (a :: n)) => a :: n
         | _ => match email u with
                | Some (a :: m) => a :: m
                | _ => js "Anonymous"
                end
         end.
Proof.
  intros H HL Hin.
  destruct (handleSubmit_inserted_exact fuel c w w' L d H HL Hin)
    as (u & sc & w1 & codes & Hu & _ & _ & -> & _).
  exists u. split; [assumption|]. split; [reflexivity|].
  unfold payload, eventData. cbv zeta. cbn [ev_organizer_name].
  unfold organizer_name_of, or_else.
  destruct (profile_data (users_single E (calls w) (user_id u))) as [[[|a n]|]|];
    cbn; try (split; [discriminate | reflexivity]);
    destruct (email u) as [[|a' m]|]; cbn; split; (discriminate || reflexivity).
Qed.

(** The short code of every inserted record has 7 characters of
    [[a-z0-9]].  Either it is the code of the last short-code lookup issued
    before the insert, which starts with the prefix taken from the event
    name, or 10 lookups were issued and it consists of alphabet characters
    only. *)
Theorem inserted_short_code (fuel : nat) (c : Component) (w w' : World)
  (L : list Call) (d : EventData) :
  handleSubmit E fuel c w = Some w' ->
  calls w' = calls w ++ L ->
  In (InsertEvent d) L ->
  well_formed_code (ev_short_code d)
  /\ exists u codes,
      user c = Some u
      /\ L = SelectUserName (user_id u)
             :: map SelectEventByShortCode codes ++ [InsertEvent d]
      /\ (1 <= length codes <= 10)%nat
      /\ ((exists pre rest,
              codes = pre ++ [ev_short_code d]
              /\ ev_short_code d
                 = seed_prefix E (Some (name (formData c))) ++ rest)
          \/ (length codes = 10%nat
              /\ Forall (fun x => In x characters) (ev_short_code d))).
Proof.
  intros H HL Hin.
  destruct (handleSubmit_inserted_exact fuel c w w' L d H HL Hin)
    as (u & sc & w1 & codes & Hu & _ & _ & Hd & HLeq & Hlen & Hwf & Hlast).
  assert (Hsc : ev_short_code d = sc) by (rewrite Hd; reflexivity).
  rewrite Hsc. split; [assumption|].
  exists u, codes. auto.
Qed.

(** Every inserted record satisfies the date invariants: its start and end
    are the ISO renderings of the parsed form times, the start is not
    before the time of submission and the end is strictly after the start;
    its registration deadline is null when the form has none, and
    otherwise the ISO rendering of a time not before the submission and
    strictly before the start. *)
Theorem inserted_dates (fuel : nat) (c : Component) (w w' : World)
  (L : list Call) (d : EventData) :
  handleSubmit E fuel c w = Some w' ->
  calls w' = calls w ++ L ->
  In (InsertEvent d) L ->
  let f := formData c in
  exists s e,
    Date_parse E (start_time f) = Int s /\ Date_parse E (end_time f) = Int e
    /\ (Date_now E <= s < e)%Z
    /\ ev_start_time d = Date_toISOString E s
    /\ ev_end_time d = Date_toISOString E e
    /\ (registration_deadline f = [] -> ev_registration_deadline d = None)
    /\ (registration_deadline f <> [] ->
        exists dl,
          Date_parse E (registration_deadline f) = Int dl
          /\ (Date_now E <= dl < s)%Z
          /\ ev_registration_deadline d = or_null (Date_toISOString E dl)).
Proof.
  intros H HL Hin f.
  destruct (handleSubmit_inserted_exact fuel c w w' L d H HL Hin)
    as (u & sc & w1 & codes & Hu & Hval & _ & -> & _).
  apply passes_validation_iff in Hval.
  destruct Hval as (_ & _ & _ & _ & s & e & Hs & He & Hord & Hdl).
  fold f in Hs, He, Hdl.
  exists s, e. repeat (split; [assumption|]).
  unfold payload, eventData, deadline_iso. cbv zeta.
  cbn [ev_start_time ev_end_time ev_registration_deadline]. fold f.
  rewrite Hs, He. split; [reflexivity|]. split; [reflexivity|].
  split.
  - intros Hnil. rewrite Hnil. reflexivity.
  - intros Hne. destruct Hdl as [Hnil | (_ & dl & Hd & Hdord)]; [contradiction|].
    exists dl. split; [assumption|]. split; [assumption|].
    apply falsy_false_iff in Hne. unfold truthy. rewrite Hne, Hd. cbn [negb].
    unfold or_else, or_null. reflexivity.
Qed.


End MoreSubmit.

Section SubmitOrder.

Variable E : Env.
Hypothesis random_range : random_in_unit_interval E.

(** With a random source in [[0, 1)] and enough fuel, the submission of a
    signed-in user's form that passes the checks completes, and its calls
    are, in this order: the profile lookup, between 1 and 10 short-code
    lookups, and one insert, which carries the short code obtained. *)
Theorem handleSubmit_call_order (fuel : nat) (c : Component) (u : User)
  (w : World) :
  user c = Some u ->
  passes_validation E (formData c) = true ->
  (maxAttempts + targetLength + 1 < fuel)%nat ->
  exists w' codes d,
    handleSubmit E fuel c w = Some w'
    /\ calls w' = calls w ++ SelectUserName (user_id u)
                    :: map SelectEventByShortCode codes ++ [InsertEvent d]
    /\ (1 <= length codes <= 10)%nat
    /\ well_formed_code (ev_short_code d)
    /\ ev_organizer_id d = user_id u.
Proof.
  intros Hu Hval Hfuel.
  destruct (handleSubmit_valid_inserts E random_range fuel c u w Hu Hval Hfuel)
    as (w' & codes0 & sc0 & Hrun & _ & _).
  destruct (handleSubmit_accepted_run E fuel c u w w' Hu Hval Hrun)
    as (sc & w1 & codes & _ & Hw' & Hc & Hlen & Hwf & _).
  exists w', codes, (payload E c u (users_single E (calls w) (user_id u)) sc).
  split; [assumption|]. split.
  - rewrite Hw', conclude_calls, Hc, <- app_assoc. reflexivity.
  - split; [assumption|]. split; [exact Hwf | reflexivity].
Qed.

End SubmitOrder.

(* ================================================================= *)
(** ** Comma-separated lists: tags and dropdown options *)

Lemma split_app_separator (sep : N) (s t : jsstring) :
  split sep (s ++ sep :: t) = split sep s ++ split sep t.
Proof.
  induction s as [|c s IH]; cbn [app split].
  - now rewrite N.eqb_refl.
  - destruct (c =? sep)%N; [now rewrite IH|].
    rewrite IH. pose proof (split_not_nil sep s) as Hne.
    destruct (split sep s) as [|seg segs]; [congruence | reflexivity].
Qed.

Lemma split_without_separator (sep : N) (s : jsstring) :
  ~ In sep s -> split sep s = [s].
Proof.
  induction s as [|c s IH]; intros Hno; [reflexivity|].
  cbn [split].
  replace (c =? sep)%N with false
    by (symmetry; apply N.eqb_neq; intros ->; apply Hno; now left).
  rewrite IH by (intros H; apply Hno; now right). reflexivity.
Qed.

Lemma spaces_no_comma (s : jsstring) :
  Forall (fun c => is_space c = true) s -> ~ In 44%N s.
Proof.
  intros Hs Hin. rewrite Forall_forall in Hs. specialize (Hs _ Hin). discriminate.
Qed.

Lemma drop_while_spaces_app (lead t : jsstring) :
  Forall (fun c => is_space c = true) lead ->
  drop_while is_space (lead ++ t) = drop_while is_space t.
Proof.
  induction 1 as [|c lead Hc _ IH]; [reflexivity|].
  cbn [app drop_while]. now rewrite Hc.
Qed.

Lemma trim_leading_spaces (lead t : jsstring) :
  Forall (fun c => is_space c = true) lead -> trim (lead ++ t) = trim t.
Proof. intros H. unfold trim. now rewrite drop_while_spaces_app. Qed.

Lemma trim_spaces (s : jsstring) :
  Forall (fun c => is_space c = true) s -> trim s = [].
Proof.
  intros H. rewrite <- (app_nil_r s), trim_leading_spaces by assumption.
  reflexivity.
Qed.

Lemma truthy_length (t : jsstring) : truthy t = (0 <? length t)%nat.
Proof. destruct t; reflexivity. Qed.

(** Parsing a list of clean items joined by a comma and any white space
    gives the items back. *)
Lemma parse_joined (pad : jsstring) (items : list jsstring) :
  Forall (fun c => is_space c = true) pad ->
  Forall clean_item items ->
  forall lead,
    Forall (fun c => is_space c = true) lead ->
    filter truthy (map trim (split 44 (lead ++ join_with (44%N :: pad) items)))
    = items.
Proof.
  intros Hpad Hitems.
  induction Hitems as [|t items (Hne & Hcomma & Htrim) Hrest IH]; intros lead Hlead.
  - cbn [join_with]. rewrite app_nil_r.
    rewrite split_without_separator by (now apply spaces_no_comma).
    cbn [map filter]. rewrite trim_spaces by assumption. reflexivity.
  - assert (Hseg : filter truthy (map trim (split 44 (lead ++ t))) = [t]).
    { rewrite split_without_separator.
      - cbn [map filter]. rewrite trim_leading_spaces, Htrim by assumption.
        destruct t; [congruence | reflexivity].
      - intros Hin. apply in_app_or in Hin as [Hin|Hin]; [|auto].
        exact (spaces_no_comma lead Hlead Hin). }
    destruct items as [|t2 items].
    + cbn [join_with]. exact Hseg.
    + change (join_with (44%N :: pad) (t :: t2 :: items))
        with (t ++ (44%N :: pad) ++ join_with (44%N :: pad) (t2 :: items)).
      cbn [app]. rewrite app_assoc, split_app_separator, map_app, filter_app, Hseg.
      rewrite (IH pad Hpad). reflexivity.
Qed.

Section ListInputs.

Variable E : Env.

(** Tags entered as clean items (not empty, no comma, no white space at
    either end) separated by a comma and any white space are stored as
    exactly those items, in order and with duplicates kept; with no item
    the stored value is null. *)
Theorem tags_round_trip (fuel : nat) (c : Component) (w w' : World)
  (L : list Call) (d : EventData) (pad : jsstring) (items : list jsstring) :
  handleSubmit E fuel c w = Some w' ->
  calls w' = calls w ++ L ->
  In (InsertEvent d) L ->
  Forall (fun x => is_space x = true) pad ->
  Forall clean_item items ->
  tags (formData c) = join_with (44%N :: pad) items ->
  ev_tags d = match items with [] => None | _ :: _ => Some items end.
Proof.
  intros H HL Hin Hpad Hitems Htags.
  destruct (handleSubmit_inserted E fuel c w w' L d H HL Hin)
    as (u & p & sc & _ & _ & ->).
  unfold payload, eventData, tagsArray_of. cbv zeta. cbn [ev_tags].
  rewrite Htags.
  pose proof (parse_joined pad items Hpad Hitems [] (Forall_nil _)) as Hparse.
  cbn [app] in Hparse.
  match goal with
  | |- context [filter ?f ?l] => replace (filter f l) with items
  end.
  - destruct items; reflexivity.
  - transitivity
      (filter truthy (map trim (split 44 (join_with (44%N :: pad) items))));
      [symmetry; exact Hparse|].
    apply filter_ext. intros t. apply truthy_length.
Qed.

End ListInputs.

Lemma options_parse_display (field : CustomField) (opts : list jsstring) :
  options field = Some opts ->
  Forall clean_item opts ->
  options_of_input (options_display field) = opts.
Proof.
  intros Hopts Hclean. unfold options_of_input, options_display. rewrite Hopts.
  change (js ", ") with (44 :: [32])%N.
  assert (Hpad : Forall (fun c => is_space c = true) [32%N])
    by (constructor; [reflexivity | constructor]).
  exact (parse_joined [32%N] opts Hpad Hclean [] (Forall_nil _)).
Qed.

(** The options input of a dropdown field is stable: parsing the text it
    displays gives the stored options back, when these are clean items. *)
Theorem options_display_round_trip (field : CustomField) (opts : list jsstring) :
  options field = Some opts ->
  Forall clean_item opts ->
  options_of_input (options_display field) = opts
  /\ merge_field field (only_options (options_of_input (options_display field)))
     = field.
Proof.
  intros Hopts Hclean.
  rewrite (options_parse_display field opts Hopts Hclean).
  split; [reflexivity|].
  unfold merge_field, only_options. cbn. rewrite <- Hopts. destruct field; reflexivity.
Qed.

(** A comma typed at the end of the displayed options, with or without
    white space after it, is lost: the parsed options are the stored ones,
    so the input shows the text without the comma again. *)
Theorem options_trailing_comma_lost (field : CustomField) (opts : list jsstring)
  (spaces : jsstring) :
  options field = Some opts ->
  Forall clean_item opts ->
  Forall (fun c => is_space c = true) spaces ->
  options_of_input (options_display field ++ 44%N :: spaces) = opts
  /\ options_display
       (merge_field field
          (only_options (options_of_input (options_display field ++ 44%N :: spaces))))
     = options_display field.
Proof.
  intros Hopts Hclean Hsp.
  assert (Hparse : options_of_input (options_display field ++ 44%N :: spaces) = opts).
  { unfold options_of_input.
    rewrite split_app_separator, map_app, filter_app.
    fold (options_of_input (options_display field)).
    rewrite (options_parse_display field opts Hopts Hclean).
    rewrite split_without_separator by (now apply spaces_no_comma).
    cbn [map filter]. rewrite trim_spaces by assumption. cbn. apply app_nil_r. }
  split; [exact Hparse|].
  rewrite Hparse. unfold options_display, merge_field, only_options. cbn.
  now rewrite Hopts.
Qed.

(* ================================================================= *)
(** ** The custom-field handlers *)

Lemma str_eqb_neq (s t : jsstring) : str_eqb s t = false <-> s <> t.
Proof.
  split.
  - intros H Heq. apply str_eqb_eq in Heq. congruence.
  - intros H. destruct (str_eqb s t) eqn:Heq; [|reflexivity].
    apply str_eqb_eq in Heq. contradiction.
Qed.

Lemma filter_other_ids (i : jsstring) (l : list CustomField) :
  Forall (fun f => id f <> i) l ->
  filter (fun field => negb (str_eqb (id field) i)) l = l.
Proof.
  induction 1 as [|f l Hf _ IH]; [reflexivity|].
  cbn [filter]. apply str_eqb_neq in Hf. now rewrite Hf, IH.
Qed.

Lemma map_other_ids (i : jsstring) (g : CustomField -> CustomField)
  (l : list CustomField) :
  Forall (fun f => id f <> i) l ->
  map (fun field => if str_eqb (id field) i then g field else field) l = l.
Proof.
  induction 1 as [|f l Hf _ IH]; [reflexivity|].
  cbn [map]. apply str_eqb_neq in Hf. now rewrite Hf, IH.
Qed.

(** [removeCustomField] leaves no field with the given identifier, cuts
    exactly that field out when it is the only one with the identifier,
    changes nothing when no field has it, and touches neither the user nor
    the form. *)
Theorem removeCustomField_spec (i : jsstring) (c : Component) :
  Forall (fun f => id f <> i) (customFields (removeCustomField i c))
  /\ (forall pre f post,
        customFields c = pre ++ f :: post ->
        id f = i ->
        Forall (fun g => id g <> i) pre -> Forall (fun g => id g <> i) post ->
        customFields (removeCustomField i c) = pre ++ post)
  /\ (Forall (fun f => id f <> i) (customFields c) -> removeCustomField i c = c)
  /\ user (removeCustomField i c) = user c
  /\ formData (removeCustomField i c) = formData c.
Proof.
  split; [|split; [|split; [|split; reflexivity]]].
  - cbn [removeCustomField customFields]. apply Forall_forall.
    intros f Hf. apply filter_In in Hf as [_ Hf].
    apply negb_true_iff in Hf. now apply str_eqb_neq.
  - intros pre f post Hc Hid Hpre Hpost. cbn [removeCustomField customFields].
    rewrite Hc, filter_app. cbn [filter].
    assert (Heq : str_eqb (id f) i = true) by now apply str_eqb_eq.
    rewrite Heq. cbn [negb].
    now rewrite (filter_other_ids i pre Hpre), (filter_other_ids i post Hpost).
  - intros Hall. destruct c as [u f cfs]. unfold removeCustomField.
    cbn [user formData customFields] in *. now rewrite filter_other_ids.
Qed.

Section AddRemove.

Variable E : Env.

(** Removing the field just added, by its time-based identifier, removes
    with it every older field that carries the same identifier (one added
    at the same clock reading); the list is the one before the addition
    exactly when no older field has that identifier. *)
Theorem removeCustomField_after_add (c : Component) :
  let i := Z_to_js (Date_now E) in
  customFields (removeCustomField i (addCustomField E c))
  = customFields (removeCustomField i c)
  /\ (Forall (fun f => id f <> i) (customFields c) ->
      removeCustomField i (addCustomField E c) = c)
  /\ (forall f, In f (customFields c) -> id f = i ->
      removeCustomField i (addCustomField E c) <> c).
Proof.
  intros i.
  assert (Hcf : customFields (removeCustomField i (addCustomField E c))
                = customFields (removeCustomField i c)).
  { cbn [removeCustomField addCustomField customFields].
    rewrite filter_app. cbn [filter id].
    assert (Heq : str_eqb i i = true) by now apply str_eqb_eq.
    fold i. rewrite Heq. cbn [negb]. apply app_nil_r. }
  split; [exact Hcf|]. split.
  - intros Hall. destruct c as [u f cfs].
    unfold removeCustomField in *. cbn [user formData customFields addCustomField] in *.
    rewrite Hcf. now rewrite filter_other_ids.
  - intros f Hin Hid Habs.
    apply (f_equal customFields) in Habs. rewrite Hcf in Habs.
    cbn [removeCustomField customFields] in Habs.
    assert (Hf : In f (filter (fun field => negb (str_eqb (id field) i))
                         (customFields c)))
      by (rewrite Habs; exact Hin).
    apply filter_In in Hf as [_ Hf]. apply negb_true_iff in Hf.
    apply str_eqb_neq in Hf. contradiction.
Qed.

End AddRemove.

(** [updateCustomField] keeps the number and the order of the fields; it
    changes nothing when no field has the identifier; when exactly one
    field has it, that field alone is replaced by its merge with the
    update; every field with the identifier is merged; and an update that
    carries no identifier leaves all identifiers as they are. *)
Theorem updateCustomField_spec (i : jsstring) (updates : FieldUpdates)
  (c : Component) :
  length (customFields (updateCustomField i updates c)) = length (customFields c)
  /\ (Forall (fun f => id f <> i) (customFields c) ->
      updateCustomField i updates c = c)
  /\ (forall pre f post,
        customFields c = pre ++ f :: post ->
        id f = i ->
        Forall (fun g => id g <> i) pre -> Forall (fun g => id g <> i) post ->
        customFields (updateCustomField i updates c)
        = pre ++ merge_field f updates :: post)
  /\ (forall n f,
        nth_error (customFields c) n = Some f ->
        nth_error (customFields (updateCustomField i updates c)) n
        = Some (if str_eqb (id f) i then merge_field f updates else f))
  /\ (upd_id updates = None ->
      map id (customFields (updateCustomField i updates c))
      = map id (customFields c)).
Proof.
  cbn [updateCustomField customFields].
  split; [apply length_map|]. split.
  { intros Hall. destruct c as [u f cfs]. unfold updateCustomField.
    cbn [user formData customFields] in *. now rewrite map_other_ids. }
  split.
  { intros pre f post Hc Hid Hpre Hpost. rewrite Hc, map_app. cbn [map].
    assert (Heq : str_eqb (id f) i = true) by now apply str_eqb_eq.
    rewrite Heq. now rewrite (map_other_ids i _ pre Hpre), (map_other_ids i _ post Hpost). }
  split.
  { intros n f Hn. rewrite nth_error_map, Hn. reflexivity. }
  intros Hnone. rewrite map_map. apply map_ext. intros f.
  destruct (str_eqb (id f) i); [|reflexivity].
  unfold merge_field. cbn [id]. now rewrite Hnone.
Qed.

(* ================================================================= *)
(** ** Loading the user *)

(** The form is rendered only for a signed-in user whose profile was
    ensured: after [getUser] on the initial page state, the form is
    rendered exactly when the auth call gave a user and
    [ensureUserProfile] fulfilled, and then that user is the page's user
    and nothing else happened; in every other case the page keeps loading
    with no user, and unless the auth call itself was rejected the route is
    the login page.  No backend call of the form is issued. *)
Theorem getUser_gate (auth : AuthAnswer) (ensured : jsstring -> bool) (w : World) :
  let p' := fst (getUser auth ensured initial_page w) in
  let w' := snd (getUser auth ensured initial_page w) in
  (form_rendered p' = true
   <-> exists u, auth = AuthUser u /\ ensured (user_id u) = true)
  /\ (form_rendered p' = true ->
      exists u, auth = AuthUser u /\ page_user p' = Some u /\ w' = w)
  /\ (form_rendered p' = false ->
      page_user p' = None
      /\ ((exists e, auth = AuthThrows e) -> w' = w)
      /\ ((forall e, auth <> AuthThrows e) -> route w' = Some (js "/auth/login")))
  /\ calls w' = calls w.
Proof.
  destruct auth as [u| |e]; cbn [getUser].
  - destruct (ensured (user_id u)) eqn:Hens; cbn.
    + split; [split; [intros _; now exists u | reflexivity]|].
      split; [intros _; now exists u|]. split; [discriminate | reflexivity].
    + split; [split; [discriminate | intros (u' & Hu & He); congruence]|].
      split; [discriminate|]. split; [|reflexivity]. intros _.
      split; [reflexivity|]. split; [intros (e & He); discriminate | reflexivity].
  - cbn. split; [split; [discriminate | intros (u' & Hu & _); discriminate]|].
    split; [discriminate|]. split; [|reflexivity]. intros _.
    split; [reflexivity|]. split; [intros (e & He); discriminate | reflexivity].
  - cbn. split; [split; [discriminate | intros (u' & Hu & _); discriminate]|].
    split; [discriminate|]. split; [|reflexivity]. intros _.
    split; [reflexivity|]. split; [reflexivity|]. intros H. now destruct (H e).
Qed.

(** [getUser] keeps the invariant that a page which is no longer loading
    has a user, whatever state it starts from. *)
Lemma getUser_keeps_user (auth : AuthAnswer) (ensured : jsstring -> bool)
  (p : PageState) (w : World) :
  (loading p = false -> page_user p <> None) ->
  loading (fst (getUser auth ensured p w)) = false ->
  page_user (fst (getUser auth ensured p w)) <> None.
Proof.
  intros Hinv. destruct auth as [u| |e]; cbn [getUser]; try exact Hinv.
  destruct (ensured (user_id u)); cbn; [discriminate | exact Hinv].
Qed.

(* ================================================================= *)
(** ** The image upload component *)

Lemma last_occurrence (x : N) (l : jsstring) :
  In x l -> exists pre post, l = pre ++ x :: post /\ ~ In x post.
Proof.
  induction l as [|c l IH]; [intros []|].
  intros Hin.
  destruct (in_dec N.eq_dec x l) as [Hl|Hl].
  - destruct (IH Hl) as (pre & post & -> & Hpost).
    exists (c :: pre), post. auto.
  - destruct Hin as [->|Hin]; [|contradiction].
    exists [], l. auto.
Qed.

(** The extension is the text after the last dot of the name, and the
    whole name when it has no dot; it never contains a dot. *)
Theorem file_extension_spec (name : jsstring) :
  ~ In 46%N (file_extension name)
  /\ (~ In 46%N name -> file_extension name = name)
  /\ (forall stem ext,
        name = stem ++ 46%N :: ext -> ~ In 46%N ext -> file_extension name = ext)
  /\ (In 46%N name ->
      exists stem, name = stem ++ 46%N :: file_extension name).
Proof.
  assert (Hafter : forall stem ext,
             name = stem ++ 46%N :: ext -> ~ In 46%N ext ->
             file_extension name = ext).
  { intros stem ext -> Hext. unfold file_extension.
    rewrite split_app_separator, (split_without_separator 46 ext Hext).
    apply last_last. }
  assert (Hnone : ~ In 46%N name -> file_extension name = name).
  { intros Hno. unfold file_extension.
    now rewrite (split_without_separator 46 name Hno). }
  split; [|split; [exact Hnone | split; [exact Hafter|]]].
  - destruct (in_dec N.eq_dec 46%N name) as [Hin|Hno].
    + destruct (last_occurrence 46 name Hin) as (pre & post & Heq & Hpost).
      now rewrite (Hafter pre post Heq Hpost).
    + now rewrite (Hnone Hno).
  - intros Hin.
    destruct (last_occurrence 46 name Hin) as (pre & post & Heq & Hpost).
    exists pre. now rewrite (Hafter pre post Heq Hpost).
Qed.

Section UploadFacts.

Variable U : UploadEnv.

(** The run of [handleFileSelect] on a file that passes the checks, by the
    answers of the auth call and of the upload. *)
Lemma handleFileSelect_accepted (maxSize : Z) (file : File) (w : UploadWorld) :
  acceptable_file maxSize file ->
  handleFileSelect U maxSize (Some file) w
  = let w1 := up_issue AuthGetUser (up_set_uploading true w) in
    let settle w' := up_clear_input (up_set_uploading false w') in
    let fail e w' := settle (up_set_preview None (up_notify (upload_failure_notice e) w')) in
    match upload_auth U (storage_calls w) with
    | AuthThrows e => fail e w1
    | AuthNone => fail (ErrorObject (js "User not authenticated")) w1
    | AuthUser u =>
        let fileName :=
          user_id u ++ js "/" ++ Z_to_js (upload_now U) ++ js "."
          ++ file_extension (file_name file) in
        let w2 := up_issue (StorageUpload fileName file) (up_read file w1) in
        match storage_upload U (storage_calls w1) fileName file with
        | UploadThrows e => fail e w2
        | UploadFailed msg =>
            fail (ErrorObject
                    (if includes msg (js "Bucket not found")
                     then js "Storage bucket not configured. Please contact support."
                     else msg)) w2
        | UploadDone path =>
            let w3 :=
              match getImageUrl U path with
              | Some (a :: url) => up_set_preview (Some (a :: url)) w2
              | _ => w2
              end in
            settle (up_notify (ToastSuccess (js "Image uploaded successfully!"))
                      (up_onChange (Some path) w3))
        end
    end.
Proof.
  intros [Hsize Htype]. unfold handleFileSelect.
  replace (maxSize * 1024 * 1024 <? file_size file)%Z with false
    by (symmetry; apply Z.ltb_ge; exact Hsize).
  rewrite Htype. cbn [negb]. cbv zeta.
  unfold upload_body, try_bind, await_getUser, try_throw, try_do, try_ret,
    upload_failure_notice. cbv zeta.
  cbn [storage_calls up_set_uploading].
  destruct (upload_auth U (storage_calls w)) as [u| |e]; try reflexivity.
  unfold await_upload. cbv zeta.
  cbn [storage_calls up_read up_issue up_set_uploading].
  destruct (storage_upload U _ _ file) as [path|msg|e]; try reflexivity.
  - destruct (getImageUrl U path) as [[|a url]|]; reflexivity.
  - destruct (includes msg (js "Bucket not found")); reflexivity.
Qed.

(** [handleFileSelect] contacts the auth service or the storage exactly
    when a file was selected whose size does not exceed the limit (a file
    of exactly [maxSize] MiB passes) and whose type starts with "image/";
    otherwise it changes nothing but, for a selected file, one error
    notice, the size check coming first. *)
Theorem handleFileSelect_contacts_storage_iff (maxSize : Z)
  (selected : option File) (w : UploadWorld) :
  let w' := handleFileSelect U maxSize selected w in
  (storage_calls w' <> storage_calls w
   <-> exists file, selected = Some file /\ acceptable_file maxSize file)
  /\ (selected = None -> w' = w)
  /\ (forall file,
        selected = Some file ->
        (maxSize * 1024 * 1024 < file_size file)%Z ->
        w' = up_notify (ToastError (js "File size must be less than "
                                    ++ Z_to_js maxSize ++ js "MB")) w)
  /\ (forall file,
        selected = Some file ->
        (file_size file <= maxSize * 1024 * 1024)%Z ->
        starts_with (js "image/") (file_type file) = false ->
        w' = up_notify (ToastError (js "Please select an image file")) w).
Proof.
  intros w'. subst w'.
  assert (Hbig : forall file, (maxSize * 1024 * 1024 < file_size file)%Z ->
            handleFileSelect U maxSize (Some file) w
            = up_notify (ToastError (js "File size must be less than "
                                     ++ Z_to_js maxSize ++ js "MB")) w).
  { intros file Hlt. unfold handleFileSelect.
    replace (maxSize * 1024 * 1024 <? file_size file)%Z with true
      by (symmetry; apply Z.ltb_lt; exact Hlt).
    reflexivity. }
  assert (Htype : forall file, (file_size file <= maxSize * 1024 * 1024)%Z ->
            starts_with (js "image/") (file_type file) = false ->
            handleFileSelect U maxSize (Some file) w
            = up_notify (ToastError (js "Please select an image file")) w).
  { intros file Hle Hty. unfold handleFileSelect.
    replace (maxSize * 1024 * 1024 <? file_size file)%Z with false
      by (symmetry; apply Z.ltb_ge; exact Hle).
    now rewrite Hty. }
  split; [|split; [intros ->; reflexivity | split]].
  - split.
    + intros Hdiff. destruct selected as [file|]; [|now contradiction Hdiff].
      exists file. split; [reflexivity|].
      destruct (Z_lt_le_dec (maxSize * 1024 * 1024) (file_size file)) as [Hlt|Hle].
      { rewrite (Hbig file Hlt) in Hdiff. now contradiction Hdiff. }
      destruct (starts_with (js "image/") (file_type file)) eqn:Hty.
      { split; assumption. }
      rewrite (Htype file Hle Hty) in Hdiff. now contradiction Hdiff.
    + intros (file & -> & Hok).
      rewrite (handleFileSelect_accepted maxSize file w Hok). cbv zeta.
      intros Habs. apply (f_equal (@length StorageCall)) in Habs.
      destruct (upload_auth U (storage_calls w)) as [u| |e];
        try (cbn in Habs; rewrite length_app in Habs; cbn in Habs; lia).
      destruct (storage_upload U _ _ file) as [path|msg|e];
        try (cbn in Habs; rewrite !length_app in Habs; cbn in Habs; lia).
      destruct (getImageUrl U path) as [[|a url]|];
        cbn in Habs; rewrite !length_app in Habs; cbn in Habs; lia.
  - intros file -> Hlt. now apply Hbig.
  - intros file -> Hle Hty. now apply Htype.
Qed.

(** Whatever the auth service and the storage answer, [handleFileSelect]
    on a file that passes the checks ends with the uploading flag down and
    the input cleared, has asked for the user first and issued at most one
    storage call, and shows exactly one notice.  Either that notice is the success
    notice and [onChange] was called exactly once, with a path; or it is an
    error notice, [onChange] was not called and the preview was reset. *)
Theorem handleFileSelect_settles (maxSize : Z) (file : File) (w : UploadWorld) :
  acceptable_file maxSize file ->
  let w' := handleFileSelect U maxSize (Some file) w in
  uploading w' = false
  /\ input_cleared w' = true
  /\ (exists rest,
        storage_calls w' = storage_calls w ++ AuthGetUser :: rest
        /\ (length rest <= 1)%nat)
  /\ exists t,
      notices w' = notices w ++ [t]
      /\ ((t = ToastSuccess (js "Image uploaded successfully!")
           /\ exists path, changes w' = changes w ++ [Some path])
          \/ ((exists msg, t = ToastError msg)
              /\ changes w' = changes w /\ preview w' = None)).
Proof.
  intros Hok w'. subst w'.
  rewrite (handleFileSelect_accepted maxSize file w Hok). cbv zeta.
  assert (Herr : forall e, exists msg, upload_failure_notice e = ToastError msg)
    by (intros e; unfold upload_failure_notice; eexists; reflexivity).
  destruct (upload_auth U (storage_calls w)) as [u| |e].
  - destruct (storage_upload U _ _ file) as [path|msg|e].
    + destruct (getImageUrl U path) as [[|a url]|]; cbn;
        (split; [reflexivity|]; split; [reflexivity|];
         split; [eexists [_]; rewrite <- app_assoc; split; [reflexivity | cbn; lia]|];
         eexists; split; [reflexivity|]; left; split; [reflexivity|];
         now exists path).
    + cbn. split; [reflexivity|]. split; [reflexivity|].
      split; [eexists [_]; rewrite <- app_assoc; split; [reflexivity | cbn; lia]|].
      eexists; split; [reflexivity|]. right. split; [eexists; reflexivity | auto].
    + cbn. split; [reflexivity|]. split; [reflexivity|].
      split; [eexists [_]; rewrite <- app_assoc; split; [reflexivity | cbn; lia]|].
      eexists; split; [reflexivity|]. right. split; [apply Herr | auto].
  - cbn. split; [reflexivity|]. split; [reflexivity|].
    split; [exists []; split; [reflexivity | cbn; lia]|].
    eexists; split; [reflexivity|]. right. split; [eexists; reflexivity | auto].
  - cbn. split; [reflexivity|]. split; [reflexivity|].
    split; [exists []; split; [reflexivity | cbn; lia]|].
    eexists; split; [reflexivity|]. right. split; [apply Herr | auto].
Qed.

(** For a signed-in user and a file that passes the checks: the reader is
    started and exactly one upload is issued, to the path
    [<user id>/<clock>.<extension>].  If the storage stores the file,
    [onChange] receives the stored path and the preview becomes the public
    URL when there is a non-empty one.  If it answers with an error, the
    notice is the error's message, or, for a message containing "Bucket
    not found", the advice to contact support; [onChange] is not called. *)
Theorem handleFileSelect_signed_in (maxSize : Z) (file : File) (u : User)
  (w : UploadWorld) :
  acceptable_file maxSize file ->
  upload_auth U (storage_calls w) = AuthUser u ->
  let w' := handleFileSelect U maxSize (Some file) w in
  let fileName :=
    user_id u ++ js "/" ++ Z_to_js (upload_now U) ++ js "."
    ++ file_extension (file_name file) in
  let answer :=
    storage_upload U (storage_calls w ++ [AuthGetUser]) fileName file in
  storage_calls w' = storage_calls w ++ [AuthGetUser; StorageUpload fileName file]
  /\ readers w' = readers w ++ [file]
  /\ (forall path,
        answer = UploadDone path ->
        changes w' = changes w ++ [Some path]
        /\ notices w' = notices w ++ [ToastSuccess (js "Image uploaded successfully!")]
        /\ preview w' = match getImageUrl U path with
                        | Some (a :: url) => Some (a :: url)
                        | _ => preview w
                        end)
  /\ (forall msg,
        answer = UploadFailed msg ->
        changes w' = changes w /\ preview w' = None
        /\ notices w'
           = notices w
             ++ [ToastError
                   (if includes msg (js "Bucket not found")
                    then js "Storage bucket not configured. Please contact support."
                    else msg)]).
Proof.
  intros Hok Hauth w' fileName answer. subst w'.
  rewrite (handleFileSelect_accepted maxSize file w Hok). cbv zeta.
  rewrite Hauth. cbn [storage_calls up_issue up_set_uploading].
  fold fileName. fold answer.
  destruct answer as [path|msg|e] eqn:Hans.
  - destruct (getImageUrl U path) as [[|a url]|] eqn:Hurl; cbn;
      rewrite <- ?app_assoc;
      (split; [reflexivity|]; split; [reflexivity|]; split;
       [intros p Hp; injection Hp as <-; rewrite Hurl; auto | discriminate]).
  - cbn. rewrite <- ?app_assoc.
    split; [reflexivity|]. split; [reflexivity|]. split; [discriminate|].
    intros m Hm. injection Hm as <-. auto.
  - cbn. rewrite <- ?app_assoc.
    split; [reflexivity|]. split; [reflexivity|]. split; discriminate.
Qed.

(** Without a signed-in user nothing is uploaded and no reader is started:
    the only call is the one asking for the user, and the notice is "User
    not authenticated". *)
Theorem handleFileSelect_not_signed_in (maxSize : Z) (file : File)
  (w : UploadWorld) :
  acceptable_file maxSize file ->
  upload_auth U (storage_calls w) = AuthNone ->
  let w' := handleFileSelect U maxSize (Some file) w in
  storage_calls w' = storage_calls w ++ [AuthGetUser]
  /\ readers w' = readers w
  /\ changes w' = changes w
  /\ notices w' = notices w ++ [ToastError (js "User not authenticated")]
  /\ preview w' = None /\ uploading w' = false.
Proof.
  intros Hok Hauth w'. subst w'.
  rewrite (handleFileSelect_accepted maxSize file w Hok). cbv zeta.
  rewrite Hauth. cbn. repeat split; reflexivity.
Qed.

(** [handleRemove] does nothing without a stored image.  With one, it asks
    the storage to delete it, and unless that call is rejected it clears
    the image ([onChange(null)], no preview, input cleared) and shows
    "Image removed", in the same way whether the storage deleted the object
    or answered with an error; a rejected call gives an error notice and
    clears nothing. *)
Theorem handleRemove_spec (value : option jsstring) (w : UploadWorld) :
  let w' := handleRemove U value w in
  ((value = None \/ value = Some []) -> w' = w)
  /\ (forall a v,
        value = Some (a :: v) ->
        storage_calls w' = storage_calls w ++ [StorageRemove (a :: v)]
        /\ ((forall e, storage_remove U (storage_calls w) (a :: v) <> RemoveThrows e) ->
            changes w' = changes w ++ [None]
            /\ preview w' = None /\ input_cleared w' = true
            /\ notices w' = notices w ++ [ToastSuccess (js "Image removed")])
        /\ ((exists e, storage_remove U (storage_calls w) (a :: v) = RemoveThrows e) ->
            changes w' = changes w /\ preview w' = preview w
            /\ input_cleared w' = input_cleared w
            /\ notices w' = notices w ++ [ToastError (js "Failed to remove image")])).
Proof.
  intros w'. subst w'. split.
  - intros [-> | ->]; reflexivity.
  - intros a v ->. unfold handleRemove. cbn [or_else truthy falsy negb].
    destruct (storage_remove U (storage_calls w) (a :: v)) as [|msg|e]; cbn.
    + split; [reflexivity|]. split; [auto|]. intros (e & He). discriminate.
    + split; [reflexivity|]. split; [auto|]. intros (e & He). discriminate.
    + split; [reflexivity|]. split; [|auto]. intros H. now destruct (H e).
Qed.

End UploadFacts.

(* ================================================================= *)
(** ** The theorems at concrete inputs *)

Lemma generateShortCode_shape_witness :
  exists rest,
    generateShortCode browser 8 (Some (js "L-i!on Meetup")) fresh_world
    = Some (js "lio" ++ rest, advance (length rest) fresh_world)
    /\ length (js "lio" ++ rest) = 7%nat
    /\ Forall (fun c => In c (js "23456789abcdefghjkmnpqrstuvwxyz")) rest.
Proof.
  destruct (generateShortCode_shape browser browser_random_range 8
              (Some (js "L-i!on Meetup")) fresh_world)
    as (rest & Hgen & Hlen & _ & _ & _ & _ & Hrest & _).
  - unfold targetLength; lia.
  - exists rest. repeat split; assumption.
Defined.


Lemma browser_flaky_two_failures (k : nat) (c : jsstring) (r : LookupResponse)
  (w' : World) :
  (k < 2)%nat ->
  nth_attempt browser_flaky 8 (Some (js "lion")) k fresh_world = Some (c, r, w') ->
  ~ exists e, lookup_error r = Some e /\ code e = js "PGRST116".
Proof.
  intros Hk Hn (e & He & Hcode).
  destruct k as [|[|k]]; [| |lia];
    vm_compute in Hn; injection Hn as _ <- _; cbn in He.
  - injection He as <-. discriminate Hcode.
  - discriminate He.
Qed.

Lemma browser_offline_ten_failures (k : nat) (c : jsstring) (r : LookupResponse)
  (w' : World) :
  (k < 10)%nat ->
  nth_attempt browser_offline 8 (Some (js "lion")) k fresh_world = Some (c, r, w') ->
  ~ exists e, lookup_error r = Some e /\ code e = js "PGRST116".
Proof.
  intros Hk Hn (e & He & Hcode).
  do 10 (destruct k as [|k];
         [vm_compute in Hn; injection Hn as _ <- _; cbn in He;
          first [discriminate He | injection He as <-; discriminate Hcode]|]).
  lia.
Qed.

(** Against a backend whose first lookup fails with a network error, whose
    second finds a row, and whose third is the first to report "no rows",
    three lookups are issued and the third code is returned.  Against one
    that alternates between a row found and a network error, ten lookups
    are issued and a seedless code of 7 characters follows. *)
Lemma generateUniqueShortCode_bounded_retry_witness :
  (exists w',
      generateUniqueShortCode browser_flaky 19 (Some (js "lion")) fresh_world
      = Some (js "lioabcd", w')
      /\ calls w' = map SelectEventByShortCode
                      [js "lio2345"; js "lio6789"; js "lioabcd"])
  /\ (exists w10 codes code,
        after_attempts browser_offline 8 (Some (js "lion")) 10 fresh_world
        = Some w10
        /\ calls w10 = calls fresh_world ++ map SelectEventByShortCode codes
        /\ length codes = 10%nat
        /\ generateUniqueShortCode browser_offline 19 (Some (js "lion")) fresh_world
           = Some (code, advance 7 w10)
        /\ length code = 7%nat).
Proof.
  split.
  - destruct (generateUniqueShortCode_bounded_retry browser_flaky
                browser_flaky_random_range
                19 8 (Some (js "lion")) fresh_world) as (_ & H & _).
    + unfold maxAttempts, targetLength; lia.
    + unfold targetLength; lia.
    + edestruct (H 3%nat) as [Hres _].
      * lia.
      * exact browser_flaky_two_failures.
      * vm_compute. reflexivity.
      * eexists. split; reflexivity.
      * eexists. split; [exact Hres | reflexivity].
  - destruct (generateUniqueShortCode_bounded_retry browser_offline
                browser_offline_random_range
                19 8 (Some (js "lion")) fresh_world) as (_ & _ & H).
    + unfold maxAttempts, targetLength; lia.
    + unfold targetLength; lia.
    + destruct (H browser_offline_ten_failures)
        as (w10 & codes & code & Ha & Hc & Hl & Hu & Hg & Hlen & _).
      exists w10, codes, code. repeat (split; [assumption|]).
      split; [rewrite Hu; exact Hg | exact Hlen].
Defined.

Lemma lookup_accepted_iff_no_rows_witness :
  exists c r w2,
    attempt browser 8 (Some (js "lion")) fresh_world = Some (c, r, w2)
    /\ r = events_single browser (calls fresh_world) c
    /\ ((exists e, lookup_error r = Some e /\ code e = js "PGRST116") ->
        unique_loop browser 9 (Some (js "lion")) 0 fresh_world = Some (c, w2))
    /\ (~ (exists e, lookup_error r = Some e /\ code e = js "PGRST116") ->
        unique_loop browser 9 (Some (js "lion")) 0 fresh_world
        = unique_loop browser 8 (Some (js "lion")) 1 w2).
Proof.
  apply (lookup_accepted_iff_no_rows browser browser_random_range 8
           (Some (js "lion")) 0 fresh_world).
  - unfold targetLength; lia.
  - unfold maxAttempts; lia.
Defined.

Lemma alphabet_code_abc2345 : Forall (fun c => In c characters) (js "abc2345").
Proof.
  apply Forall_forall. intros c Hc.
  assert (H : forallb (fun c => existsb (N.eqb c) characters) (js "abc2345") = true)
    by reflexivity.
  rewrite forallb_forall in H. specialize (H c Hc).
  apply existsb_exists in H as (x & Hx & Heq). apply N.eqb_eq in Heq. now subst.
Qed.

(** On [http://localhost:3000] the code comes back. *)
Lemma shareable_url_round_trip_witness :
  extractShortCodeFromURL (js "http://localhost:3000/e/abc2345") = Some (js "abc2345").
Proof.
  destruct (shareable_url_round_trip browser (js "abc2345")) as (H & _ & _).
  - discriminate.
  - exact alphabet_code_abc2345.
  - apply H. reflexivity.
Defined.

Lemma formatEventDuration_render_witness :
  formatEventDuration browser (js "2030-01-01T10:00") (js "2030-01-01T11:30")
  = js "1 hour 30 minutes"
  /\ (90 = 60 * 1 + 30)%Z
  /\ formatEventDuration browser (js "2030-01-01T09:00") (js "2030-01-01T10:00")
     = js "1 hour".
Proof.
  destruct (formatEventDuration_render browser (js "2030-01-01T10:00")
              (js "2030-01-01T11:30") 1893492000000 1893497400000)
    as (_ & Hsplit & H90 & _).
  - reflexivity.
  - reflexivity.
  - lia.
  - destruct (formatEventDuration_render browser (js "2030-01-01T09:00")
                (js "2030-01-01T10:00") 1893488400000 1893492000000)
      as (_ & _ & _ & H60 & _).
    + reflexivity.
    + reflexivity.
    + lia.
    + split; [apply H90; reflexivity|].
      split; [|apply H60; reflexivity].
      destruct Hsplit as (_ & Hsum & _); [lia|]. exact Hsum.
Defined.

Lemma local_validation_precedes_network_witness :
  handleSubmit browser 19 (with_form zero_length_form []) fresh_world
  = Some (rejected_with (js "End time must be after start time") fresh_world)
  /\ handleSubmit browser 19 (with_form late_deadline_form []) fresh_world
     = Some (rejected_with (js "Registration deadline must be before start time")
               fresh_world).
Proof.
  split.
  - destruct (local_validation_precedes_network browser 19
                (with_form zero_length_form []) alice fresh_world eq_refl)
      as (_ & _ & _ & _ & H & _).
    apply (H 1893492000000%Z);
      first [discriminate | reflexivity | (cbn; lia)].
  - destruct (local_validation_precedes_network browser 19
                (with_form late_deadline_form []) alice fresh_world eq_refl)
      as (_ & _ & _ & _ & _ & H & _).
    apply (H 1893492000000%Z 1893497400000%Z 1893492000000%Z);
      first [discriminate | reflexivity | (cbn; lia)].
Defined.

Lemma meetup_run :
  handleSubmit browser 19 (with_form meetup_form []) fresh_world = Some meetup_world.
Proof. vm_compute. reflexivity. Qed.

Lemma meetup_insert : In (InsertEvent meetup_payload) (calls meetup_world).
Proof. do 4 right. left. reflexivity. Qed.

Lemma meetup_run_with_field :
  handleSubmit browser 19 (addCustomField browser (with_form meetup_form []))
    fresh_world
  = Some meetup_world_with_field.
Proof. vm_compute. reflexivity. Qed.

Lemma meetup_insert_with_field :
  In (InsertEvent meetup_payload_with_field) (calls meetup_world_with_field).
Proof. do 4 right. left. reflexivity. Qed.

(** The tags string [" web3, ,polkadot ,,"] is stored as two tags. *)
Lemma submitted_tags_witness :
  ev_tags meetup_payload = Some [js "web3"; js "polkadot"]
  /\ ev_tags meetup_payload <> Some [].
Proof.
  destruct (submitted_tags browser 19 (with_form meetup_form []) fresh_world
              meetup_world (calls meetup_world) meetup_payload
              meetup_run eq_refl meetup_insert) as (H1 & H2 & _).
  split; [exact H1 | exact H2].
Defined.

Lemma optional_fields_null_when_empty_witness :
  ev_location meetup_payload = None
  /\ ev_discord_url meetup_payload = Some (js "https://discord.gg/x")
  /\ ev_participant_limit meetup_payload = Some (Int 25).
Proof.
  destruct (optional_fields_null_when_empty browser 19 (with_form meetup_form [])
              fresh_world meetup_world (calls meetup_world) meetup_payload
              meetup_run eq_refl meetup_insert)
    as (H1 & _ & H3 & _ & _ & _ & H7).
  split; [exact H1|]. split; [exact H3 | exact H7].
Defined.

(** A field added and left unnamed is submitted as it is. *)
Lemma custom_fields_submitted_unvalidated_witness :
  ev_custom_fields meetup_payload_with_field = Some [unnamed_field]
  /\ unnamed_field
     = {| id := js "1767225600000"; field_name := []; type := js "text";
          required := false; options := Some [] |}.
Proof.
  destruct (custom_fields_submitted_unvalidated browser 19
              (with_form meetup_form []) fresh_world) as (_ & _ & H & _).
  split; [|reflexivity].
  exact (H meetup_world_with_field (calls meetup_world_with_field)
           meetup_payload_with_field meetup_run_with_field eq_refl
           meetup_insert_with_field).
Defined.

(* ================================================================= *)
(** ** The further theorems at concrete inputs *)

Lemma extractShortCodeFromURL_sound_witness :
  js "AbC9" <> []
  /\ Forall (fun c => is_alnum_ci c = true) (js "AbC9").
Proof.
  destruct (extractShortCodeFromURL_sound (js "https://x.org/E/AbC9?ref=1")
              (js "AbC9") eq_refl) as (H1 & H2 & _).
  split; assumption.
Defined.

Lemma extractShortCodeFromURL_null_witness : is_alnum_ci 45 = false.
Proof.
  exact (proj1 (extractShortCodeFromURL_null (js "https://x.org/e/-"))
           eq_refl (js "https://x.org") 101%N 45%N [] eq_refl (or_introl eq_refl)).
Defined.

Lemma extractShortCodeFromURL_ignores_suffix_witness :
  extractShortCodeFromURL (js "https://my.site/e/AbC9?ref=1") = Some (js "AbC9").
Proof.
  apply (extractShortCodeFromURL_ignores_suffix browser (js "AbC9")
           (Some (js "https://my.site")) (js "?ref=1")).
  - discriminate.
  - repeat constructor.
  - reflexivity.
  - reflexivity.
Defined.

Lemma lion_run :
  generateUniqueShortCode browser 19 (Some (js "lion")) fresh_world
  = Some (js "lioefgh", lion_lookups_world).
Proof. vm_compute. reflexivity. Qed.

Lemma generateUniqueShortCode_completed_witness :
  well_formed_code (js "lioefgh") /\ toasts lion_lookups_world = [].
Proof.
  destruct (generateUniqueShortCode_completed browser 19 (Some (js "lion"))
              fresh_world (js "lioefgh") lion_lookups_world lion_run)
    as (codes & _ & _ & _ & Hwf & _ & Ht & _).
  split; [exact Hwf | exact Ht].
Defined.

Lemma formatEventDuration_invalid_witness :
  formatEventDuration browser (js "tomorrow") (js "2030-01-01T10:00")
  = js "NaN hours NaN minutes".
Proof.
  apply (formatEventDuration_invalid browser (js "tomorrow") (js "2030-01-01T10:00")).
  left. reflexivity.
Defined.

Lemma formatEventDuration_end_before_start_witness :
  formatEventDuration browser (js "2030-01-01T11:30") (js "2030-01-01T10:00")
  = js "-2 hours -30 minutes"
  /\ (60 * -2 + -30 = -90 - 60)%Z.
Proof.
  destruct (formatEventDuration_end_before_start browser
              (js "2030-01-01T11:30") (js "2030-01-01T10:00")
              1893497400000 1893492000000 eq_refl eq_refl)
    as (_ & _ & Hfmt & Hsum & _).
  - lia.
  - split; [exact Hfmt|]. apply Hsum. discriminate.
Defined.

Lemma formatEventDuration_under_a_minute_witness :
  formatEventDuration browser (js "2030-01-01T10:00") (js "2030-01-01T10:00")
  = js "0 minutes".
Proof.
  apply (formatEventDuration_under_a_minute browser (js "2030-01-01T10:00")
           (js "2030-01-01T10:00") 1893492000000 1893492000000 eq_refl eq_refl).
  lia.
Defined.

Lemma handleSubmit_contacts_backend_iff_witness :
  calls meetup_world <> calls fresh_world
  <-> (exists u, user (with_form meetup_form []) = Some u)
      /\ form_in_order browser (formData (with_form meetup_form [])).
Proof.
  exact (handleSubmit_contacts_backend_iff browser 19 (with_form meetup_form [])
           fresh_world meetup_world meetup_run).
Defined.

Lemma handleSubmit_outcome_witness :
  exists history d,
    calls meetup_world = history ++ [InsertEvent d]
    /\ saving meetup_world = false
    /\ toasts meetup_world = [ToastSuccess (js "Event created successfully!")]
    /\ route meetup_world = Some (js "/events/42").
Proof.
  destruct (handleSubmit_outcome browser 19 (with_form meetup_form []) alice
              fresh_world meetup_world eq_refl eq_refl meetup_run)
    as (history & d & Hc & Hs & Hcase).
  exists history, d. split; [exact Hc|]. split; [exact Hs|].
  split; reflexivity.
Defined.

Lemma handleSubmit_always_answers_witness :
  saving meetup_world = false
  /\ exists t rest, toasts meetup_world = toasts fresh_world ++ t :: rest.
Proof.
  destruct (handleSubmit_always_answers browser 19 (with_form meetup_form []) alice
              fresh_world meetup_world eq_refl meetup_run) as (H1 & H2 & _).
  split; assumption.
Defined.

Lemma handleSubmit_call_order_witness :
  exists w' codes d,
    handleSubmit browser 19 (with_form meetup_form []) fresh_world = Some w'
    /\ calls w' = calls fresh_world ++ SelectUserName (user_id alice)
                    :: map SelectEventByShortCode codes ++ [InsertEvent d]
    /\ (1 <= length codes <= 10)%nat
    /\ well_formed_code (ev_short_code d)
    /\ ev_organizer_id d = user_id alice.
Proof.
  apply (handleSubmit_call_order browser browser_random_range 19
           (with_form meetup_form []) alice fresh_world eq_refl eq_refl).
  unfold maxAttempts, targetLength. lia.
Defined.

Lemma inserted_organizer_witness :
  ev_organizer_name meetup_payload = js "Alice".
Proof.
  destruct (inserted_organizer browser 19 (with_form meetup_form []) fresh_world
              meetup_world (calls meetup_world) meetup_payload
              meetup_run eq_refl meetup_insert) as (u & Hu & _ & _ & Hname).
  injection Hu as <-. exact Hname.
Defined.

Lemma inserted_short_code_witness :
  well_formed_code (ev_short_code meetup_payload).
Proof.
  exact (proj1 (inserted_short_code browser 19 (with_form meetup_form [])
                  fresh_world meetup_world (calls meetup_world) meetup_payload
                  meetup_run eq_refl meetup_insert)).
Defined.

Lemma inserted_dates_witness :
  exists s e,
    (Date_now browser <= s < e)%Z
    /\ ev_start_time meetup_payload = Date_toISOString browser s
    /\ ev_end_time meetup_payload = Date_toISOString browser e.
Proof.
  destruct (inserted_dates browser 19 (with_form meetup_form []) fresh_world
              meetup_world (calls meetup_world) meetup_payload
              meetup_run eq_refl meetup_insert)
    as (s & e & _ & _ & Hord & Hs & He & _).
  exists s, e. auto.
Defined.

Lemma tidy_run : handleSubmit browser 19 tidy_component fresh_world = Some tidy_world.
Proof. vm_compute. reflexivity. Qed.

Lemma tidy_insert : In (InsertEvent tidy_payload) (calls tidy_world).
Proof. do 4 right. left. reflexivity. Qed.


Lemma clean_web3_polkadot : Forall clean_item [js "web3"; js "polkadot"].
Proof.
  repeat constructor; try discriminate;
    intros H; cbv in H; repeat (destruct H as [H|H]; [discriminate H|]); exact H.
Qed.

Lemma tags_round_trip_witness :
  ev_tags tidy_payload = Some [js "web3"; js "polkadot"].
Proof.
  apply (tags_round_trip browser 19 tidy_component fresh_world tidy_world
           (calls tidy_world) tidy_payload [32%N] [js "web3"; js "polkadot"]
           tidy_run eq_refl tidy_insert).
  - repeat constructor.
  - exact clean_web3_polkadot.
  - reflexivity.
Defined.

Lemma clean_levels : Forall clean_item [js "Beginner"; js "Advanced"].
Proof.
  repeat constructor; try discriminate;
    intros H; cbv in H; repeat (destruct H as [H|H]; [discriminate H|]); exact H.
Qed.

Lemma options_display_round_trip_witness :
  options_of_input (js "Beginner, Advanced") = [js "Beginner"; js "Advanced"].
Proof.
  exact (proj1 (options_display_round_trip level_field
                  [js "Beginner"; js "Advanced"] eq_refl clean_levels)).
Defined.

Lemma options_trailing_comma_lost_witness :
  options_of_input (js "Beginner, Advanced, ") = [js "Beginner"; js "Advanced"].
Proof.
  exact (proj1 (options_trailing_comma_lost level_field
                  [js "Beginner"; js "Advanced"] [32%N] eq_refl clean_levels
                  ltac:(repeat constructor))).
Defined.

Lemma removeCustomField_spec_witness :
  customFields (removeCustomField (js "1767225600000")
                  (with_form meetup_form [level_field]))
  = [].
Proof.
  exact (proj1 (proj2 (removeCustomField_spec (js "1767225600000")
                         (with_form meetup_form [level_field])))
           [] level_field [] eq_refl eq_refl (Forall_nil _) (Forall_nil _)).
Defined.

(** An older field added at the same clock reading goes with the new one. *)
Lemma removeCustomField_after_add_witness :
  removeCustomField (js "1767225600000")
    (addCustomField browser (with_form meetup_form [level_field]))
  <> with_form meetup_form [level_field].
Proof.
  exact (proj2 (proj2 (removeCustomField_after_add browser
                         (with_form meetup_form [level_field])))
           level_field (or_introl eq_refl) eq_refl).
Defined.

Lemma updateCustomField_spec_witness :
  customFields (updateCustomField (js "1767225600000") rename_to_track
                  (with_form meetup_form [level_field]))
  = [merge_field level_field rename_to_track].
Proof.
  destruct (updateCustomField_spec (js "1767225600000") rename_to_track
              (with_form meetup_form [level_field])) as (_ & _ & H & _).
  exact (H [] level_field [] eq_refl eq_refl (Forall_nil _) (Forall_nil _)).
Defined.

Lemma getUser_gate_witness :
  form_rendered (fst (getUser (AuthUser alice) (fun _ => false) initial_page
                        fresh_world)) = false
  /\ route (snd (getUser (AuthUser alice) (fun _ => false) initial_page
                   fresh_world)) = Some (js "/auth/login").
Proof.
  destruct (getUser_gate (AuthUser alice) (fun _ => false) fresh_world)
    as (_ & _ & H & _).
  split; [reflexivity|].
  destruct (H eq_refl) as (_ & _ & Hroute). apply Hroute. discriminate.
Defined.

Lemma file_extension_spec_witness :
  file_extension (js "lion.final.png") = js "png"
  /\ file_extension (js "README") = js "README".
Proof.
  split.
  - destruct (file_extension_spec (js "lion.final.png")) as (_ & _ & H & _).
    apply (H (js "lion.final") (js "png")); [reflexivity|].
    intros Hin. cbv in Hin.
    repeat (destruct Hin as [Hin|Hin]; [discriminate Hin|]). exact Hin.
  - destruct (file_extension_spec (js "README")) as (_ & H & _).
    apply H. intros Hin. cbv in Hin.
    repeat (destruct Hin as [Hin|Hin]; [discriminate Hin|]). exact Hin.
Defined.

Lemma banner_png_acceptable : acceptable_file 5 banner_png.
Proof. split; [cbn; lia | reflexivity]. Qed.

Lemma handleFileSelect_contacts_storage_iff_witness :
  storage_calls (handleFileSelect studio 5 (Some banner_png) fresh_upload)
  <> storage_calls fresh_upload.
Proof.
  destruct (handleFileSelect_contacts_storage_iff studio 5 (Some banner_png)
              fresh_upload) as ([_ H] & _).
  apply H. exists banner_png. split; [reflexivity | exact banner_png_acceptable].
Defined.

Lemma handleFileSelect_settles_witness :
  uploading (handleFileSelect studio 5 (Some banner_png) fresh_upload) = false
  /\ input_cleared (handleFileSelect studio 5 (Some banner_png) fresh_upload) = true.
Proof.
  destruct (handleFileSelect_settles studio 5 banner_png fresh_upload
              banner_png_acceptable) as (H1 & H2 & _).
  split; assumption.
Defined.

Lemma handleFileSelect_signed_in_witness :
  storage_calls (handleFileSelect studio 5 (Some banner_png) fresh_upload)
  = [AuthGetUser; StorageUpload (js "u-1/1767225600000.png") banner_png]
  /\ changes (handleFileSelect studio 5 (Some banner_png) fresh_upload)
     = [Some (js "u-1/1767225600000.png")].
Proof.
  destruct (handleFileSelect_signed_in studio 5 banner_png alice fresh_upload
              banner_png_acceptable eq_refl) as (Hc & _ & Hdone & _).
  split; [exact Hc|].
  exact (proj1 (Hdone (js "u-1/1767225600000.png") eq_refl)).
Defined.

Lemma handleFileSelect_not_signed_in_witness :
  storage_calls (handleFileSelect studio_signed_out 5 (Some banner_png) fresh_upload)
  = [AuthGetUser]
  /\ notices (handleFileSelect studio_signed_out 5 (Some banner_png) fresh_upload)
     = [ToastError (js "User not authenticated")].
Proof.
  destruct (handleFileSelect_not_signed_in studio_signed_out 5 banner_png
              fresh_upload banner_png_acceptable eq_refl)
    as (Hc & _ & _ & Hn & _).
  split; [exact Hc | exact Hn].
Defined.

(** The storage refuses the delete; the component reports success. *)
Lemma handleRemove_spec_witness :
  notices (handleRemove studio (Some (js "u-1/1767225600000.png")) fresh_upload)
  = [ToastSuccess (js "Image removed")]
  /\ changes (handleRemove studio (Some (js "u-1/1767225600000.png")) fresh_upload)
     = [None].
Proof.
  destruct (handleRemove_spec studio (Some (js "u-1/1767225600000.png"))
              fresh_upload) as (_ & H).
  destruct (H 117%N (js "-1/1767225600000.png") eq_refl) as (_ & Hok & _).
  destruct Hok as (Hch & _ & _ & Hn); [discriminate|].
  split; [exact Hn | exact Hch].
Defined.
